(** * Order ledger (app.py): a shallow embedding and its verified properties

    The program keeps a list of pending orders and a list of fulfilled
    orders, reads its commands from standard input, prints to standard
    output and persists both lists as JSON documents.

    Modelling choices, all of them visible in the definitions below:
    - a Python [str] is a [string], read as the UTF-8 bytes of the text;
      equality and emptiness of texts are equality and emptiness of the
      byte strings (a text with a lone surrogate has no UTF-8 bytes and is
      outside the model);
    - a Python [int] is a [Z].  CPython refuses to convert an integer of
      more than 4300 digits to text: the fields of the f-strings of the
      report raise [ValueError] there ([text_of_int]).  [json.dump],
      [json.load] and the index of an [enumerate] are written without the
      limit: in a run a price or a quantity comes in through [int], which
      lets in no more than 4300 digits, and an index is at most the length
      of a list;
    - an order (a [dict] with the keys order_id, customer, items) is the
      record [Order], an item (keys name, price, quantity) the record
      [Item].  The program keeps whatever [json.load] gives it and checks
      nothing: a file that holds anything but what [save_orders] writes (a
      list of dicts with exactly these keys in this order, texts and
      integers as values) has no value of type [list Order], and loading it
      is the outcome [Unmodelled], about which nothing is stated;
    - the list the Python code mutates in place is passed in and handed
      back by the model of each function;
    - console and files live in a [world]; an uncaught exception is the
      outcome [Raise]; the two [while True] loops run on fuel, and the
      outcome [OutOfFuel] is shown never to occur ([add_order_result],
      [main_terminates]);
    - [str.upper], [str.strip] and [int] are the methods of the class
      [PyStr]: every general theorem holds for any implementation of them,
      and the instance [ascii_str] (the behaviour of the three built-ins on
      ASCII text) runs the examples. *)

From Stdlib Require Import ZArith List Ascii String Lia.
From Stdlib Require Import Decimal DecimalFacts DecimalString DecimalPos DecimalZ.
From stdpp Require Import base option list gmap strings.

Local Open Scope Z_scope.
Set Warnings "-register-all".

(** ** Characters and text *)

Definition LF : string := String "010"%char "".
Definition TAB : string := String "009"%char "".
Definition QUOTE : ascii := "034"%char.
Definition BACKSLASH : ascii := "092"%char.

Definition code (c : ascii) : N := N_of_ascii c.

(** [not s] on a Python string. *)
Definition is_empty (s : string) : bool :=
  match s with
  | EmptyString => true
  | String _ _ => false
  end.

(** [sep.join(l)]. *)
Fixpoint join (sep : string) (l : list string) : string :=
  match l with
  | [] => ""
  | [x] => x
  | x :: rest => x +:+ sep +:+ join sep rest
  end.

(** [" " * n]. *)
Fixpoint spaces (n : nat) : string :=
  match n with
  | O => ""
  | S k => String " "%char (spaces k)
  end.

(** *** Decimal digits *)

Definition digit (c : ascii) : option (uint -> uint) :=
  match c with
  | "0" => Some D0 | "1" => Some D1 | "2" => Some D2 | "3" => Some D3
  | "4" => Some D4 | "5" => Some D5 | "6" => Some D6 | "7" => Some D7
  | "8" => Some D8 | "9" => Some D9
  | _ => None
  end%char.

Definition is_digit (c : ascii) : bool :=
  match digit c with Some _ => true | None => false end.

(** The longest prefix of decimal digits, and what follows it. *)
Fixpoint scan_digits (s : string) : uint * string :=
  match s with
  | EmptyString => (Nil, s)
  | String c r =>
      match digit c with
      | Some D => let '(d, r') := scan_digits r in (D d, r')
      | None => (Nil, s)
      end
  end.

(** The decimal text of an integer: what [str(z)] and an f-string field
    [{z}] give when they give a text (see [text_of_int] for the limit). *)
Definition str_of_int (z : Z) : string :=
  NilEmpty.string_of_int (Z.to_int z).

(** Groups of three digits, built from the reversed digit string. *)
Fixpoint group_thousands (rev_digits : string) (k : nat) (acc : string) : string :=
  match rev_digits with
  | EmptyString => acc
  | String c r =>
      if Nat.eqb k 3
      then group_thousands r 1 (String c (String ","%char acc))
      else group_thousands r (S k) (String c acc)
  end.

(** The decimal text with thousands separators: what [format(z, ',')] and
    the f-string field [{z:,}] give when they give a text (see
    [text_of_int_comma] for the limit). *)
Definition format_comma (z : Z) : string :=
  match Z.to_int z with
  | Pos d => group_thousands (String.rev (NilEmpty.string_of_uint d)) 0 ""
  | Neg d =>
      String "-"%char
        (group_thousands (String.rev (NilEmpty.string_of_uint d)) 0 "")
  end.

(** *** The limit on the conversion of an integer to text

    [sys.get_int_max_str_digits()] is 4300 unless the interpreter is told
    otherwise: [str(z)], [format(z, ',')] and the f-string fields [{z}]
    and [{z:,}] raise [ValueError] when [z] has more decimal digits (the
    sign and the separators do not count). *)

Definition MAX_STR_DIGITS : nat := 4300.

(** The least number with more digits than that: 10^4300, computed once. *)
Definition STR_LIMIT : Z := Eval vm_compute in 10 ^ Z.of_nat MAX_STR_DIGITS.

(** [z] has at most 4300 decimal digits: its absolute value is below
    10^4300. *)
Definition fits_str (z : Z) : bool := Z.abs z <? STR_LIMIT.

(** The f-string field [{z}]; [None] stands for [ValueError]. *)
Definition text_of_int (z : Z) : option string :=
  if fits_str z then Some (str_of_int z) else None.

(** The f-string field [{z:,}]; [None] stands for [ValueError]. *)
Definition text_of_int_comma (z : Z) : option string :=
  if fits_str z then Some (format_comma z) else None.

(** ** The string built-ins the program calls *)

Class PyStr := {
  (** [s.upper()] *)
  upper : string -> string;
  (** [s.strip()] *)
  strip : string -> string;
  (** [int(s)]; [None] stands for [ValueError] *)
  int : string -> option Z
}.

(** *** Their behaviour on ASCII text *)

(** [str.isspace] on the ASCII range: TAB, LF, VT, FF, CR, FS, GS, RS, US
    and the space. *)
Definition is_space (c : ascii) : bool :=
  let n := code c in
  ((9 <=? n) && (n <=? 13) || (28 <=? n) && (n <=? 32))%N.

(** The white space [int] skips around an ASCII text: TAB, LF, VT, FF, CR
    and the space ([Py_ISSPACE]); not FS, GS, RS, US, which [str.strip]
    drops. *)
Definition is_c_space (c : ascii) : bool :=
  let n := code c in
  ((9 <=? n) && (n <=? 13) || (n =? 32))%N.

Fixpoint lstrip (space : ascii -> bool) (s : string) : string :=
  match s with
  | EmptyString => ""
  | String c r => if space c then lstrip space r else s
  end.

Fixpoint rstrip (space : ascii -> bool) (s : string) : string :=
  match s with
  | EmptyString => ""
  | String c r =>
      let r' := rstrip space r in
      if space c && is_empty r' then "" else String c r'
  end.

Definition ascii_strip (s : string) : string :=
  rstrip is_space (lstrip is_space s).

Definition upper_char (c : ascii) : ascii :=
  let n := code c in
  if ((97 <=? n) && (n <=? 122))%N then ascii_of_N (n - 32) else c.

Fixpoint ascii_upper (s : string) : string :=
  match s with
  | EmptyString => ""
  | String c r => String (upper_char c) (ascii_upper r)
  end.

(** The digits of an integer literal: at least one digit, single
    underscores allowed between digits. *)
Fixpoint literal_digits (s : string) : option uint :=
  match s with
  | EmptyString => None
  | String c r =>
      match digit c with
      | None => None
      | Some D =>
          match r with
          | EmptyString => Some (D Nil)
          | String "_"%char r' => option_map D (literal_digits r')
          | String _ _ => option_map D (literal_digits r)
          end
      end
  end.

(** [int(s)] on an ASCII text: the white space around it is skipped, then
    an optional sign and the digits in base ten; more than 4300 digits are
    refused. *)
Definition ascii_int (s : string) : option Z :=
  let number (sign : uint -> Decimal.int) (t : string) : option Z :=
    match literal_digits t with
    | Some d =>
        if (nb_digits d <=? MAX_STR_DIGITS)%nat then Some (Z.of_int (sign d)) else None
    | None => None
    end in
  match rstrip is_c_space (lstrip is_c_space s) with
  | String "-"%char r => number Neg r
  | String "+"%char r => number Pos r
  | t => number Pos t
  end.

#[export] Instance ascii_str : PyStr :=
  {| upper := ascii_upper; strip := ascii_strip; int := ascii_int |}.

(** ** Data model *)

Record Item := mkItem { name : string; price : Z; quantity : Z }.

Record Order := mkOrder { order_id : string; customer : string; items : list Item }.

(** ** Console, files and exceptions *)

Record world := mkWorld {
  stdin : list string;          (* the lines still to be read *)
  stdout : list string;         (* what was written, oldest first *)
  files : gmap string string    (* path to contents *)
}.

Inductive exn := EOFError | JSONDecodeError | TypeError | IndexError | ValueError.

(** How a computation ends: with a value, with an uncaught exception, with
    the fuel of a loop used up, or outside the model (a file holds what no
    [list Order] stands for, see [load_data]). *)
Inductive outcome (A : Type) :=
| Return (a : A)
| Raise (e : exn)
| OutOfFuel
| Unmodelled.
Arguments Return {A} a.
Arguments Raise {A} e.
Arguments OutOfFuel {A}.
Arguments Unmodelled {A}.

Definition io (A : Type) : Type := world -> outcome A * world.

Definition io_ret {A} (a : A) : io A := fun w => (Return a, w).

Definition io_bind {A B} (m : io A) (k : A -> io B) : io B :=
  fun w =>
    match m w with
    | (Return a, w') => k a w'
    | (Raise e, w') => (Raise e, w')
    | (OutOfFuel, w') => (OutOfFuel, w')
    | (Unmodelled, w') => (Unmodelled, w')
    end.

Declare Scope io_scope.
Delimit Scope io_scope with io.
Notation "x <- m ;; k" := (io_bind m (fun x => k))
  (at level 100, m at next level, right associativity) : io_scope.
Notation "m ;; k" := (io_bind m (fun _ => k))
  (at level 100, right associativity) : io_scope.
Local Open Scope io_scope.

Definition raise {A} (e : exn) : io A := fun w => (Raise e, w).

Definition out_of_fuel {A} : io A := fun w => (OutOfFuel, w).

Definition write (s : string) (w : world) : world :=
  mkWorld (stdin w) (stdout w ++ [s]) (files w).

(** [print(s)] *)
Definition print (s : string) : io unit :=
  fun w => (Return tt, write (s +:+ LF) w).

(** [input(prompt)]: the prompt is written, then a line is read; at the end
    of the input Python raises [EOFError]. *)
Definition input (prompt : string) : io string :=
  fun w =>
    match stdin w with
    | [] => (Raise EOFError, write prompt w)
    | line :: rest =>
        (Return line, mkWorld rest (stdout w ++ [prompt]) (files w))
    end.

(** The number of input lines left, to bound the loops. *)
Definition lines_left : io nat := fun w => (Return (length (stdin w)), w).

(** ** The standard library's [json] module

    [json.dump(v, file, indent=4, ensure_ascii=False)] and [json.load(file)]
    on documents built from null, booleans, integers, strings, arrays and
    objects.  Numbers with a fraction or an exponent are outside this model:
    [json_load] gives no document for a text that holds one. *)

Inductive json :=
| JNull
| JBool (b : bool)
| JInt (z : Z)
| JStr (s : string)
| JArr (l : list json)
| JObj (m : list (string * json)).

(** *** Writing *)

Definition hex_digit (n : N) : ascii :=
  if (n <? 10)%N then ascii_of_N (48 + n) else ascii_of_N (87 + n).

(** One character of a string: the quote, the backslash and the control
    characters are escaped, everything else is written as it is. *)
Definition escape_char (c : ascii) : string :=
  let n := code c in
  if Ascii.eqb c QUOTE then String BACKSLASH (String QUOTE "")
  else if Ascii.eqb c BACKSLASH then String BACKSLASH (String BACKSLASH "")
  else if (n =? 10)%N then String BACKSLASH "n"
  else if (n =? 13)%N then String BACKSLASH "r"
  else if (n =? 9)%N then String BACKSLASH "t"
  else if (n =? 8)%N then String BACKSLASH "b"
  else if (n =? 12)%N then String BACKSLASH "f"
  else if (n <? 32)%N then
    String BACKSLASH
      (String "u" (String "0" (String "0"
         (String (hex_digit (n / 16)) (String (hex_digit (n mod 16)) "")))))
  else String c "".

Fixpoint escape (s : string) : string :=
  match s with
  | EmptyString => ""
  | String c r => escape_char c +:+ escape r
  end.

Definition encode_string (s : string) : string :=
  String QUOTE (escape s +:+ String QUOTE "").

(** A line break and the indentation of a nesting level. *)
Definition newline_indent (level : nat) : string :=
  LF +:+ spaces (4 * level).

Fixpoint encode (level : nat) (v : json) : string :=
  match v with
  | JNull => "null"
  | JBool true => "true"
  | JBool false => "false"
  | JInt z => str_of_int z
  | JStr s => encode_string s
  | JArr [] => "[]"
  | JArr l =>
      "[" +:+ newline_indent (S level)
      +:+ join ("," +:+ newline_indent (S level)) (map (encode (S level)) l)
      +:+ newline_indent level +:+ "]"
  | JObj [] => "{}"
  | JObj m =>
      "{" +:+ newline_indent (S level)
      +:+ join ("," +:+ newline_indent (S level))
            (map (fun kv : string * json =>
                    let (k, x) := kv in
                    encode_string k +:+ ": " +:+ encode (S level) x) m)
      +:+ newline_indent level +:+ "}"
  end.

Definition json_dump (v : json) : string := encode 0 v.

(** *** Reading *)

Definition is_json_space (c : ascii) : bool :=
  let n := code c in
  ((n =? 32) || (n =? 9) || (n =? 10) || (n =? 13))%N.

Fixpoint skip_ws (s : string) : string :=
  match s with
  | EmptyString => ""
  | String c r => if is_json_space c then skip_ws r else s
  end.

Definition hex_value (c : ascii) : option N :=
  let n := code c in
  if ((48 <=? n) && (n <=? 57))%N then Some (n - 48)%N
  else if ((97 <=? n) && (n <=? 102))%N then Some (n - 87)%N
  else if ((65 <=? n) && (n <=? 70))%N then Some (n - 55)%N
  else None.

Definition hex4 (a b c d : ascii) : option N :=
  match hex_value a, hex_value b, hex_value c, hex_value d with
  | Some x, Some y, Some z, Some t => Some (((x * 16 + y) * 16 + z) * 16 + t)%N
  | _, _, _, _ => None
  end.

(** The UTF-8 bytes of a code point. *)
Definition utf8 (cp : N) : string :=
  let byte (n : N) := ascii_of_N n in
  (if cp <? 128 then String (byte cp) ""
   else if cp <? 2048 then
     String (byte (192 + cp / 64)) (String (byte (128 + cp mod 64)) "")
   else if cp <? 65536 then
     String (byte (224 + cp / 4096))
       (String (byte (128 + (cp / 64) mod 64))
          (String (byte (128 + cp mod 64)) ""))
   else
     String (byte (240 + cp / 262144))
       (String (byte (128 + (cp / 4096) mod 64))
          (String (byte (128 + (cp / 64) mod 64))
             (String (byte (128 + cp mod 64)) ""))))%N.

Definition unescape (c : ascii) : option ascii :=
  let n := code c in
  if Ascii.eqb c QUOTE then Some QUOTE
  else if Ascii.eqb c BACKSLASH then Some BACKSLASH
  else if (n =? 47)%N then Some "/"%char
  else if (n =? 98)%N then Some "008"%char
  else if (n =? 102)%N then Some "012"%char
  else if (n =? 110)%N then Some "010"%char
  else if (n =? 114)%N then Some "013"%char
  else if (n =? 116)%N then Some "009"%char
  else None.

Definition prepend (p : string) (r : option (string * string)) : option (string * string) :=
  match r with
  | Some (s, rest) => Some (p +:+ s, rest)
  | None => None
  end.

(** The inside of a string, after its opening quote: the text and what
    follows the closing quote.  A lone surrogate escape has no UTF-8 bytes
    and gives no result here. *)
Fixpoint scan_string (s : string) : option (string * string) :=
  match s with
  | EmptyString => None
  | String c r =>
      if Ascii.eqb c QUOTE then Some ("", r)
      else if Ascii.eqb c BACKSLASH then
        match r with
        | String "u" (String h1 (String h2 (String h3 (String h4 r1)))) =>
            match hex4 h1 h2 h3 h4 with
            | None => None
            | Some hi =>
                if ((55296 <=? hi) && (hi <? 56320))%N then
                  match r1 with
                  | String b (String "u" (String l1 (String l2 (String l3 (String l4 r2))))) =>
                      match hex4 l1 l2 l3 l4 with
                      | Some lo =>
                          if Ascii.eqb b BACKSLASH && (56320 <=? lo)%N && (lo <? 57344)%N
                          then prepend (utf8 (65536 + (hi - 55296) * 1024 + (lo - 56320))%N)
                                 (scan_string r2)
                          else None
                      | None => None
                      end
                  | _ => None
                  end
                else if ((56320 <=? hi) && (hi <? 57344))%N then None
                else prepend (utf8 hi) (scan_string r1)
            end
        | String e r1 =>
            match unescape e with
            | Some c' => prepend (String c' "") (scan_string r1)
            | None => None
            end
        | EmptyString => None
        end
      else if (code c <? 32)%N then None
      else prepend (String c "") (scan_string r)
  end.

(** [s] without its first character, when that is [c]. *)
Definition expect (c : ascii) (s : string) : option string :=
  match s with
  | EmptyString => None
  | String c' r => if Ascii.eqb c' c then Some r else None
  end.

(** [s] without its prefix [p], when it starts with [p]. *)
Fixpoint skip_prefix (p s : string) : option string :=
  match p with
  | EmptyString => Some s
  | String c p' =>
      match expect c s with
      | Some r => skip_prefix p' r
      | None => None
      end
  end.

(** The digits of an integer: a single zero, or a digit string that does
    not start with zero. *)
Definition scan_unsigned (s : string) : option (uint * string) :=
  match expect "0" s with
  | Some r => Some (D0 Nil, r)
  | None =>
      match scan_digits s with
      | (Nil, _) => None
      | (d, r) => Some (d, r)
      end
  end.

(** An integer: an optional minus sign, then the digits. *)
Definition scan_number (s : string) : option (json * string) :=
  match expect "-" s with
  | Some t =>
      match scan_unsigned t with
      | Some (d, r) => Some (JInt (Z.of_int (Neg d)), r)
      | None => None
      end
  | None =>
      match scan_unsigned s with
      | Some (d, r) => Some (JInt (Z.of_int (Pos d)), r)
      | None => None
      end
  end.

Fixpoint scan_value (fuel : nat) (s : string) {struct fuel} : option (json * string) :=
  match fuel with
  | O => None
  | S fuel =>
      match s with
      | EmptyString => None
      | String c r =>
          if Ascii.eqb c "[" then
            match expect "]" (skip_ws r) with
            | Some r' => Some (JArr [], r')
            | None =>
                match scan_elements fuel (skip_ws r) with
                | Some (l, r') => Some (JArr l, r')
                | None => None
                end
            end
          else if Ascii.eqb c "{" then
            match expect "}" (skip_ws r) with
            | Some r' => Some (JObj [], r')
            | None =>
                match scan_members fuel (skip_ws r) with
                | Some (m, r') => Some (JObj m, r')
                | None => None
                end
            end
          else if Ascii.eqb c QUOTE then
            match scan_string r with
            | Some (t, r') => Some (JStr t, r')
            | None => None
            end
          else if Ascii.eqb c "n" then
            match skip_prefix "ull" r with
            | Some r' => Some (JNull, r')
            | None => None
            end
          else if Ascii.eqb c "t" then
            match skip_prefix "rue" r with
            | Some r' => Some (JBool true, r')
            | None => None
            end
          else if Ascii.eqb c "f" then
            match skip_prefix "alse" r with
            | Some r' => Some (JBool false, r')
            | None => None
            end
          else scan_number s
      end
  end
with scan_elements (fuel : nat) (s : string) {struct fuel} : option (list json * string) :=
  match fuel with
  | O => None
  | S fuel =>
      match scan_value fuel s with
      | None => None
      | Some (v, r) =>
          match expect "]" (skip_ws r) with
          | Some r' => Some ([v], r')
          | None =>
              match expect "," (skip_ws r) with
              | Some r' =>
                  match scan_elements fuel (skip_ws r') with
                  | Some (l, r'') => Some (v :: l, r'')
                  | None => None
                  end
              | None => None
              end
          end
      end
  end
with scan_members (fuel : nat) (s : string) {struct fuel}
  : option (list (string * json) * string) :=
  match fuel with
  | O => None
  | S fuel =>
      match expect QUOTE s with
      | None => None
      | Some r =>
          match scan_string r with
          | None => None
          | Some (k, r1) =>
              match expect ":" (skip_ws r1) with
              | None => None
              | Some r2 =>
                  match scan_value fuel (skip_ws r2) with
                  | None => None
                  | Some (v, r3) =>
                      match expect "}" (skip_ws r3) with
                      | Some r' => Some ([(k, v)], r')
                      | None =>
                          match expect "," (skip_ws r3) with
                          | Some r' =>
                              match scan_members fuel (skip_ws r') with
                              | Some (m, r'') => Some ((k, v) :: m, r'')
                              | None => None
                              end
                          | None => None
                          end
                      end
                  end
              end
          end
      end
  end.

(** [json.load]: one value, surrounded by optional white space, and nothing
    else.  The nesting depth of a text is below its length. *)
Definition json_load (text : string) : option json :=
  match scan_value (S (String.length text)) (skip_ws text) with
  | Some (v, r) => if is_empty (skip_ws r) then Some v else None
  | None => None
  end.

(** ** Orders as Python values

    In the program an order is the [dict] that [add_order] builds, with its
    keys in the order order_id, customer, items, and an item the [dict]
    with the keys name, price, quantity.  [json.load] gives back a [dict]
    with the keys of the file in the order of the file, and the program
    keeps it as it is: only a document of exactly the shape [save_orders]
    writes is the same thing as a [list Order], and only such a document is
    read as one. *)

Definition item_to_py (item : Item) : json :=
  JObj [("name", JStr (name item)); ("price", JInt (price item));
        ("quantity", JInt (quantity item))].

Definition order_to_py (order : Order) : json :=
  JObj [("order_id", JStr (order_id order)); ("customer", JStr (customer order));
        ("items", JArr (map item_to_py (items order)))].

Definition orders_to_py (orders : list Order) : json :=
  JArr (map order_to_py orders).

Definition item_of_py (v : json) : option Item :=
  match v with
  | JObj [(k1, JStr n); (k2, JInt p); (k3, JInt q)] =>
      if String.eqb k1 "name" && String.eqb k2 "price" && String.eqb k3 "quantity"
      then Some (mkItem n p q) else None
  | _ => None
  end.

Definition order_of_py (v : json) : option Order :=
  match v with
  | JObj [(k1, JStr i); (k2, JStr c); (k3, JArr l)] =>
      if String.eqb k1 "order_id" && String.eqb k2 "customer" && String.eqb k3 "items"
      then
        match mapM item_of_py l with
        | Some its => Some (mkOrder i c its)
        | None => None
        end
      else None
  | _ => None
  end.

Definition orders_of_py (v : json) : option (list Order) :=
  match v with
  | JArr l => mapM order_of_py l
  | _ => None
  end.

(** ** The program *)

Definition INPUT_FILE : string := "orders.json".
Definition OUTPUT_FILE : string := "output_orders.json".

(** [load_data]: a missing file ([FileNotFoundError]) gives the empty list;
    an empty or blank file is a [JSONDecodeError].  The program returns
    whatever [json.load] gives and would go on with it; where that is not
    a list of orders as [save_orders] writes it (or the text is not read by
    [json_load] at all: a malformed text, a number with a fraction) the
    model has no value to go on with, and the outcome is [Unmodelled]. *)
Definition load_data (filename : string) : io (list Order) :=
  fun w =>
    match files w !! filename with
    | None => (Return [], w)
    | Some text =>
        match json_load text with
        | None =>
            if is_empty (skip_ws text) then (Raise JSONDecodeError, w)
            else (Unmodelled, w)
        | Some v =>
            match orders_of_py v with
            | Some orders => (Return orders, w)
            | None => (Unmodelled, w)
            end
        end
    end.

(** [save_orders]: the file is overwritten with the document. *)
Definition save_orders (filename : string) (orders : list Order) : io unit :=
  fun w =>
    (Return tt,
     mkWorld (stdin w) (stdout w)
       (<[filename := json_dump (orders_to_py orders)]> (files w))).

(** The accumulator loop [total = 0; for item in ...: total += ...]. *)
Definition calculate_order_total (order : Order) : Z :=
  fold_left (fun total item => total + price item * quantity item) (items order) 0.

(** [for x in l: body(x)] *)
Fixpoint for_each {A} (l : list A) (body : A -> io unit) : io unit :=
  match l with
  | [] => io_ret tt
  | x :: rest => body x ;; for_each rest body
  end.

(** [for idx, x in enumerate(l, start): body(idx, x)] *)
Fixpoint for_enumerate {A} (start : Z) (l : list A) (body : Z -> A -> io unit) : io unit :=
  match l with
  | [] => io_ret tt
  | x :: rest => body start x ;; for_enumerate (start + 1) rest body
  end.

Definition RULE_DASH : string := "--------------------------------------------------".
Definition RULE_EQ : string := "==================================================".

(** [print_order_report].  [data] is one order when [single] holds and a
    list of orders otherwise; with the other pairing the first subscript
    [order['order_id']] raises [TypeError].  The text of a row and of the
    total line is built before it is printed: a price, a quantity, a
    subtotal or a total of more than 4300 digits raises [ValueError]
    there. *)
Definition print_order_report (data : Order + list Order) (title : string)
    (single : bool) : io unit :=
  print (LF +:+ "==================== " +:+ title +:+ " ====================") ;;
  match single, data with
  | true, inr _ => raise TypeError
  | false, inl _ => print (LF +:+ "訂單 #" +:+ str_of_int 1) ;; raise TypeError
  | _, _ =>
      let orders := match data with inl order => [order] | inr l => l end in
      for_enumerate 1 orders (fun idx order =>
        (if single then io_ret tt
         else print (LF +:+ "訂單 #" +:+ str_of_int idx)) ;;
        print ("訂單編號: " +:+ order_id order) ;;
        print ("客戶姓名: " +:+ customer order) ;;
        print RULE_DASH ;;
        print ("商品名稱" +:+ TAB +:+ "單價" +:+ TAB +:+ "數量" +:+ TAB +:+ "小計") ;;
        print RULE_DASH ;;
        for_each (items order) (fun item =>
          let subtotal := price item * quantity item in
          match text_of_int (price item), text_of_int (quantity item),
                text_of_int subtotal with
          | Some p, Some q, Some t =>
              print (name item +:+ TAB +:+ p +:+ TAB +:+ q +:+ TAB +:+ t)
          | _, _, _ => raise ValueError
          end) ;;
        print RULE_DASH ;;
        let total := calculate_order_total order in
        match text_of_int_comma total with
        | Some t => print ("訂單總額: " +:+ t)
        | None => raise ValueError
        end ;;
        print RULE_EQ)
  end.

(** [l.pop(i)]: a negative index counts from the end; outside the list it
    is an [IndexError], here [None]. *)
Definition list_pop {A} (l : list A) (i : Z) : option (A * list A) :=
  let j := if i <? 0 then i + Z.of_nat (length l) else i in
  if (j <? 0) || (Z.of_nat (length l) <=? j) then None
  else
    match l !! Z.to_nat j with
    | Some x => Some (x, delete (Z.to_nat j) l)
    | None => None
    end.

Section Program.
Context `{PyStr}.

(** The [while True] loop of [add_order] that reads the items; every turn
    of it reads a line, so [fuel] above the number of lines left is never
    used up. *)
Fixpoint add_order_items (fuel : nat) (items : list Item) : io (list Item) :=
  match fuel with
  | O => out_of_fuel
  | S fuel =>
      name <- input "請輸入訂單項目名稱（輸入空白結束）：" ;;
      if is_empty name then io_ret items
      else
        text <- input "請輸入價格：" ;;
        match int text with
        | None =>
            print "=> 錯誤：價格或數量必須為整數，請重新輸入" ;;
            add_order_items fuel items
        | Some price =>
            if price <? 0 then
              print "=> 錯誤：價格不能為負數，請重新輸入" ;;
              add_order_items fuel items
            else
              text <- input "請輸入數量：" ;;
              match int text with
              | None =>
                  print "=> 錯誤：價格或數量必須為整數，請重新輸入" ;;
                  add_order_items fuel items
              | Some quantity =>
                  if quantity <=? 0 then
                    print "=> 錯誤：數量必須為正整數，請重新輸入" ;;
                    add_order_items fuel items
                  else
                    add_order_items fuel (items ++ [mkItem name price quantity])
              end
        end
  end.

(** [add_order]: the message it returns and the list it leaves. *)
Definition add_order (orders : list Order) : io (string * list Order) :=
  line <- input "請輸入訂單編號：" ;;
  let order_id' := upper line in
  if existsb (fun order => String.eqb (order_id order) order_id') orders then
    io_ret ("=> 錯誤：訂單編號 " +:+ order_id' +:+ " 已存在！", orders)
  else
    customer <- input "請輸入顧客姓名：" ;;
    n <- lines_left ;;
    items <- add_order_items (S n) [] ;;
    if bool_decide (items = []) then
      io_ret ("=> 至少需要一個訂單項目", orders)
    else
      io_ret ("=> 訂單 " +:+ order_id' +:+ " 已新增！",
              orders ++ [mkOrder order_id' customer items]).

(** [process_order]: the message, the order taken out if any, and the list
    it leaves. *)
Definition process_order (orders : list Order)
  : io (string * option Order * list Order) :=
  if bool_decide (orders = []) then
    io_ret ("=> 目前沒有待處理訂單", None, orders)
  else
    print (LF +:+ "======== 待處理訂單列表 ========") ;;
    for_enumerate 1 orders (fun idx order =>
      print (str_of_int idx +:+ ". 訂單編號: " +:+ order_id order
             +:+ " - 客戶: " +:+ customer order)) ;;
    print "================================" ;;
    choice <- input "請選擇要出餐的訂單編號 (輸入數字或按 Enter 取消): " ;;
    if is_empty choice then io_ret ("=> 已取消出餐", None, orders)
    else
      match int choice with
      | None => io_ret ("=> 錯誤：請輸入有效的數字", None, orders)
      | Some n =>
          let idx := n - 1 in
          if (0 <=? idx) && (idx <? Z.of_nat (length orders)) then
            match list_pop orders idx with
            | None => raise IndexError
            | Some (completed_order, orders') =>
                io_ret ("=> 訂單 " +:+ order_id completed_order +:+ " 已出餐完成",
                        Some completed_order, orders')
            end
          else io_ret ("=> 錯誤：請輸入有效的數字", None, orders)
      end.

(** One turn of the menu loop of [main]: [None] is the [break], otherwise
    the two lists as the turn leaves them. *)
Definition main_iteration (orders output_orders : list Order)
  : io (option (list Order * list Order)) :=
  print (LF +:+ "***************選單***************") ;;
  print "1. 新增訂單" ;;
  print "2. 顯示訂單報表" ;;
  print "3. 出餐處理" ;;
  print "4. 離開" ;;
  print "**********************************" ;;
  line <- input "請選擇操作項目(Enter 離開)：" ;;
  let choice := strip line in
  if String.eqb choice "" then io_ret None
  else if String.eqb choice "1" then
    r <- add_order orders ;;
    let '(result, orders') := r in
    print result ;;
    save_orders INPUT_FILE orders' ;;
    io_ret (Some (orders', output_orders))
  else if String.eqb choice "2" then
    (if bool_decide (orders = []) then print "=> 目前沒有訂單"
     else print_order_report (inr orders) "訂單報表" false) ;;
    io_ret (Some (orders, output_orders))
  else if String.eqb choice "3" then
    r <- process_order orders ;;
    let '(result, completed_order, orders') := r in
    print result ;;
    match completed_order with
    | Some order =>
        let output_orders' := output_orders ++ [order] in
        save_orders INPUT_FILE orders' ;;
        save_orders OUTPUT_FILE output_orders' ;;
        print_order_report (inl order) "出餐訂單" true ;;
        io_ret (Some (orders', output_orders'))
    | None => io_ret (Some (orders', output_orders))
    end
  else if String.eqb choice "4" then io_ret None
  else
    print "=> 請輸入有效的選項（1-4）" ;;
    io_ret (Some (orders, output_orders)).

(** The [while True] of [main]; it hands back the two lists as the [break]
    leaves them. *)
Fixpoint main_loop (fuel : nat) (orders output_orders : list Order)
  : io (list Order * list Order) :=
  match fuel with
  | O => out_of_fuel
  | S fuel =>
      r <- main_iteration orders output_orders ;;
      match r with
      | None => io_ret (orders, output_orders)
      | Some (orders', output_orders') => main_loop fuel orders' output_orders'
      end
  end.

Definition main : io (list Order * list Order) :=
  orders <- load_data INPUT_FILE ;;
  output_orders <- load_data OUTPUT_FILE ;;
  n <- lines_left ;;
  main_loop (S n) orders output_orders.

End Program.

(** ** Vocabulary of the statements *)

(** The glossary's order total: the sum over the items of price times
    quantity. *)
Fixpoint sum_of_subtotals (l : list Item) : Z :=
  match l with
  | [] => 0
  | item :: rest => price item * quantity item + sum_of_subtotals rest
  end.

(** A computation that only writes to the console: it returns, reads no
    line and touches no file. *)
Definition writes_only (m : io unit) : Prop :=
  forall w, exists out,
    m w = (Return tt, mkWorld (stdin w) (stdout w ++ out) (files w)).

(** A computation that only writes to the console and then returns or
    raises [ValueError]: it reads no line and touches no file. *)
Definition writes_or_fails (m : io unit) : Prop :=
  forall w, exists out,
    m w = (Return tt, mkWorld (stdin w) (stdout w ++ out) (files w))
    \/ m w = (Raise ValueError, mkWorld (stdin w) (stdout w ++ out) (files w)).

(** An item and an order that the report can print: the price, the
    quantity and the subtotal of every item, and the total, have at most
    4300 digits. *)
Definition printable_item (item : Item) : bool :=
  fits_str (price item) && fits_str (quantity item)
  && fits_str (price item * quantity item).

Definition printable_order (order : Order) : bool :=
  forallb printable_item (items order) && fits_str (calculate_order_total order).

(** The order ids of a sequence, in its order. *)
Definition ids (orders : list Order) : list string := map order_id orders.

(** The three messages of a fulfilment that selects nothing. *)
Definition MSG_NO_ORDERS : string := "=> 目前沒有待處理訂單".
Definition MSG_CANCEL : string := "=> 已取消出餐".
Definition MSG_INVALID_NUMBER : string := "=> 錯誤：請輸入有效的數字".

(** *** What the round trip of a document is stated with *)

(** A text that can follow an integer: it does not go on with a digit. *)
Definition not_a_digit (rest : string) : Prop :=
  match rest with
  | EmptyString => True
  | String c _ => digit c = None
  end.

(** A text that starts as a value does: not with white space, and not
    with the bracket that closes an array. *)
Definition value_start (s : string) : Prop :=
  match s with
  | EmptyString => False
  | String c _ => is_json_space c = false /\ Ascii.eqb c "]" = false
  end.

(** A text that starts as an integer does: with the sign or a digit. *)
Definition number_start (s : string) : Prop :=
  match s with
  | EmptyString => False
  | String c _ => Ascii.eqb c "-" || is_digit c = true
  end.

(** The fuel that reading a document takes: one unit for each value and
    one for each element of an array and each member of an object. *)
Fixpoint elements_size (size : json -> nat) (l : list json) : nat :=
  match l with
  | [] => 0
  | x :: rest => S (size x + elements_size size rest)
  end.

Fixpoint members_size (size : json -> nat) (m : list (string * json)) : nat :=
  match m with
  | [] => 0
  | (_, x) :: rest => S (size x + members_size size rest)
  end.

Fixpoint json_size (v : json) : nat :=
  match v with
  | JArr l => S (elements_size json_size l)
  | JObj m => S (members_size json_size m)
  | _ => 1
  end.

(** The text of a document is read back as the document, at every nesting
    level and before every text that can follow it. *)
Definition scans_back (v : json) : Prop :=
  forall n level rest,
    (json_size v <= n)%nat -> not_a_digit rest ->
    scan_value n (encode level v +:+ rest) = Some (v, rest).

(** One member of an object, as [encode] writes it. *)
Definition encode_member (level : nat) (kv : string * json) : string :=
  let (k, x) := kv in encode_string k +:+ ": " +:+ encode (S level) x.

(** *** What the further properties are stated with *)

(** An item as [add_order] lets it in: a name that is not empty, a price
    that is not negative, a quantity above zero. *)
Definition valid_item (item : Item) : Prop :=
  name item <> "" /\ 0 <= price item /\ 0 < quantity item.

(** An order as [add_order] builds it: at least one item, all valid. *)
Definition valid_order (order : Order) : Prop :=
  items order <> [] /\ Forall valid_item (items order).

(** The two files hold these two sequences. *)
Definition files_in_step (orders output_orders : list Order)
    (fs : gmap string string) : Prop :=
  forall w, files w = fs ->
    fst (load_data INPUT_FILE w) = Return orders
    /\ fst (load_data OUTPUT_FILE w) = Return output_orders.

(** One turn of the item loop of [add_order]: the lines it reads, and the
    item it records if it records one.  The name is never empty; the price
    and, if it is reached, the quantity decide. *)
Inductive attempt `{PyStr} : list string -> option Item -> Prop :=
| attempt_recorded (n p q : string) (price quantity : Z) :
    n <> "" -> int p = Some price -> 0 <= price ->
    int q = Some quantity -> 0 < quantity ->
    attempt [n; p; q] (Some (mkItem n price quantity))
| attempt_price_not_int (n p : string) :
    n <> "" -> int p = None -> attempt [n; p] None
| attempt_price_negative (n p : string) (price : Z) :
    n <> "" -> int p = Some price -> price < 0 -> attempt [n; p] None
| attempt_quantity_not_int (n p q : string) (price : Z) :
    n <> "" -> int p = Some price -> 0 <= price -> int q = None ->
    attempt [n; p; q] None
| attempt_quantity_not_positive (n p q : string) (price quantity : Z) :
    n <> "" -> int p = Some price -> 0 <= price ->
    int q = Some quantity -> quantity <= 0 ->
    attempt [n; p; q] None.

(** The line of the listing of [process_order] for the order numbered
    [idx], and the lines for a sequence numbered from [start]. *)
Definition listing_line (idx : Z) (order : Order) : string :=
  (str_of_int idx +:+ ". 訂單編號: " +:+ order_id order
   +:+ " - 客戶: " +:+ customer order) +:+ LF.

Fixpoint listing_lines (start : Z) (orders : list Order) : list string :=
  match orders with
  | [] => []
  | order :: rest => listing_line start order :: listing_lines (start + 1) rest
  end.

(** The lines of a report: the row of one item, the block of one order,
    and the numbered blocks of a sequence. *)
Definition item_line (item : Item) : string :=
  (name item +:+ TAB +:+ str_of_int (price item) +:+ TAB
   +:+ str_of_int (quantity item) +:+ TAB
   +:+ str_of_int (price item * quantity item)) +:+ LF.

Definition order_block (order : Order) : list string :=
  [("訂單編號: " +:+ order_id order) +:+ LF;
   ("客戶姓名: " +:+ customer order) +:+ LF;
   RULE_DASH +:+ LF;
   ("商品名稱" +:+ TAB +:+ "單價" +:+ TAB +:+ "數量" +:+ TAB +:+ "小計") +:+ LF;
   RULE_DASH +:+ LF]
  ++ map item_line (items order)
  ++ [RULE_DASH +:+ LF;
      ("訂單總額: " +:+ format_comma (sum_of_subtotals (items order))) +:+ LF;
      RULE_EQ +:+ LF].

Fixpoint numbered_blocks (start : Z) (orders : list Order) : list string :=
  match orders with
  | [] => []
  | order :: rest =>
      ((LF +:+ "訂單 #" +:+ str_of_int start) +:+ LF) :: order_block order
      ++ numbered_blocks (start + 1) rest
  end.

(** The text without its commas. *)
Fixpoint without_commas (s : string) : string :=
  match s with
  | EmptyString => ""
  | String c r =>
      if Ascii.eqb c "," then without_commas r else String c (without_commas r)
  end.

(** The character at position [i] counted from the end of the text. *)
Definition from_right (i : nat) (s : string) : option ascii :=
  rev (list_ascii_of_string s) !! i.

(** Commas exactly at the positions 3, 7, 11, ... from the end. *)
Definition commas_every_fourth (s : string) : Prop :=
  forall i : nat,
    from_right i s = Some ","%char
    <-> (i mod 4 = 3 /\ i < String.length s)%nat.

(** * Properties *)

(** ** Text *)

Lemma app_String (c : ascii) (s t : string) : String c s +:+ t = String c (s +:+ t).
Proof. reflexivity. Qed.

Lemma app_empty_l (s : string) : "" +:+ s = s.
Proof. reflexivity. Qed.

Lemma app_empty_r (s : string) : s +:+ "" = s.
Proof. induction s as [|c s IH]; [reflexivity|]. rewrite app_String, IH. reflexivity. Qed.

Lemma string_app_assoc (s t u : string) : (s +:+ t) +:+ u = s +:+ (t +:+ u).
Proof.
  induction s as [|c s IH]; [reflexivity|]. rewrite !app_String, IH. reflexivity.
Qed.

Lemma length_string_app (s t : string) :
  String.length (s +:+ t) = (String.length s + String.length t)%nat.
Proof.
  induction s as [|c s IH]; [reflexivity|]. rewrite app_String. simpl. rewrite IH. reflexivity.
Qed.

(** The limit is 10^4300.  A price and a quantity of 2^7200 (2168 digits
    each) are below it, their product (4335 digits) is not: the examples
    of an order that cannot be printed use them. *)
Lemma STR_LIMIT_value : STR_LIMIT = 10 ^ 4300.
Proof. vm_compute. reflexivity. Qed.

Example fits_str_product :
  fits_str (2 ^ 7200) = true /\ fits_str (2 ^ 7200 * 2 ^ 7200) = false.
Proof. split; vm_compute; reflexivity. Qed.

(** [int] refuses the separators FS, GS, RS and US that [str.strip] drops,
    and a literal of more than 4300 digits. *)
Example ascii_int_white_space :
  ascii_int (" 12" +:+ LF) = Some 12
  /\ ascii_strip (String "028" "12") = "12"
  /\ ascii_int (String "028" "12") = None.
Proof. repeat split. Qed.

(** ** The [json] module: what is written is read back *)

(** *** Strings *)

(** Every byte, escaped or not, is read back as itself. *)
Lemma scan_string_escape_char (c : ascii) (t : string) :
  scan_string (escape_char c +:+ t) = prepend (String c "") (scan_string t).
Proof.
  destruct c as [[] [] [] [] [] [] [] []]; reflexivity.
Qed.

Lemma scan_string_escape (s rest : string) :
  scan_string (escape s +:+ String QUOTE rest) = Some (s, rest).
Proof.
  induction s as [|c s IH]; [reflexivity|].
  simpl escape. rewrite string_app_assoc, scan_string_escape_char, IH. reflexivity.
Qed.

Lemma expect_same (c : ascii) (s : string) : expect c (String c s) = Some s.
Proof. simpl. rewrite Ascii.eqb_refl. reflexivity. Qed.

(** *** Integers *)

Lemma scan_digits_stop (rest : string) : not_a_digit rest -> scan_digits rest = (Nil, rest).
Proof. destruct rest as [|c r]; simpl; [reflexivity|]. intros ->. reflexivity. Qed.

Lemma scan_digits_uint (d : uint) (rest : string) :
  not_a_digit rest ->
  scan_digits (NilEmpty.string_of_uint d +:+ rest) = (d, rest).
Proof.
  intros Hrest. induction d; simpl NilEmpty.string_of_uint;
    rewrite ?app_String; simpl; rewrite ?IHd; try reflexivity.
  apply scan_digits_stop. exact Hrest.
Qed.

(** The decimal digits of a positive number do not start with a zero. *)
Lemma to_uint_head (p : positive) :
  match Pos.to_uint p with
  | Nil | D0 _ => False
  | _ => True
  end.
Proof.
  pose proof (Unsigned.to_uint_nonnil p) as Hnil.
  pose proof (Unsigned.to_of (Pos.to_uint p)) as Hnorm.
  rewrite Unsigned.of_to in Hnorm. simpl in Hnorm.
  destruct (Pos.to_uint p) as [|d| | | | | | | | |] eqn:Hp; try exact I.
  - congruence.
  - unfold unorm in Hnorm. rewrite nzhead_D0 in Hnorm.
    pose proof (nzhead_nonzero d d) as Hnz.
    destruct (nzhead d) eqn:Hd; try congruence.
    injection Hnorm as ->.
    apply (Unsigned.to_uint_nonzero p). exact Hp.
Qed.

Lemma scan_unsigned_pos (p : positive) (rest : string) :
  not_a_digit rest ->
  scan_unsigned (NilEmpty.string_of_uint (Pos.to_uint p) +:+ rest)
  = Some (Pos.to_uint p, rest).
Proof.
  intros Hrest. pose proof (to_uint_head p) as Hhead.
  unfold scan_unsigned. rewrite scan_digits_uint by exact Hrest.
  destruct (Pos.to_uint p); try contradiction; reflexivity.
Qed.

Lemma scan_number_str_of_int (z : Z) (rest : string) :
  not_a_digit rest ->
  scan_number (str_of_int z +:+ rest) = Some (JInt z, rest).
Proof.
  intros Hrest. unfold str_of_int.
  destruct z as [|p|p]; simpl Z.to_int; simpl NilEmpty.string_of_int.
  - reflexivity.
  - pose proof (to_uint_head p) as Hhead.
    pose proof (scan_unsigned_pos p rest Hrest) as Hscan.
    unfold scan_number.
    assert (expect "-" (NilEmpty.string_of_uint (Pos.to_uint p) +:+ rest) = None) as ->.
    { destruct (Pos.to_uint p); try contradiction; reflexivity. }
    rewrite Hscan.
    assert (Z.of_int (Pos (Pos.to_uint p)) = Z.pos p) as ->
      by apply (DecimalZ.of_to (Z.pos p)).
    reflexivity.
  - unfold scan_number. rewrite app_String.
    rewrite expect_same.
    rewrite scan_unsigned_pos by exact Hrest.
    assert (Z.of_int (Neg (Pos.to_uint p)) = Z.neg p) as ->
      by apply (DecimalZ.of_to (Z.neg p)).
    reflexivity.
Qed.

(** *** White space and first characters *)

Lemma skip_ws_start (s : string) : value_start s -> skip_ws s = s.
Proof. destruct s as [|c r]; [reflexivity|]. intros [Hc _]. simpl. rewrite Hc. reflexivity. Qed.

Lemma skip_ws_spaces (k : nat) (s : string) : skip_ws (spaces k +:+ s) = skip_ws s.
Proof. induction k as [|k IH]; [reflexivity|]. simpl spaces. rewrite app_String. exact IH. Qed.

Lemma skip_ws_newline_indent (level : nat) (s : string) :
  skip_ws (newline_indent level +:+ s) = skip_ws s.
Proof.
  unfold newline_indent, LF. rewrite string_app_assoc, app_String, app_empty_l.
  simpl skip_ws at 1. change (is_json_space "010") with true. cbv iota.
  apply skip_ws_spaces.
Qed.

Lemma value_start_app (s t : string) : value_start s -> value_start (s +:+ t).
Proof. destruct s; [contradiction|]. intros Hs. exact Hs. Qed.

Lemma number_start_value_start (s : string) : number_start s -> value_start s.
Proof.
  destruct s as [|c r]; [contradiction|]. simpl.
  destruct c as [[] [] [] [] [] [] [] []]; try discriminate; intros _; split; reflexivity.
Qed.

Lemma str_of_int_start (z : Z) : number_start (str_of_int z).
Proof.
  unfold str_of_int. destruct z as [|p|p]; simpl; try reflexivity.
  pose proof (to_uint_head p). destruct (Pos.to_uint p); try contradiction; reflexivity.
Qed.

Lemma number_start_app (s t : string) : number_start s -> number_start (s +:+ t).
Proof. destruct s; [contradiction|]. intros Hs. exact Hs. Qed.

Lemma encode_start (level : nat) (v : json) : value_start (encode level v).
Proof.
  destruct v as [|[]|z|s|[|x l]|[|kv m]]; simpl; try (split; reflexivity).
  apply number_start_value_start, str_of_int_start.
Qed.

Lemma scan_value_number (n : nat) (s : string) :
  number_start s -> scan_value (S n) s = scan_number s.
Proof.
  destruct s as [|c r]; [contradiction|]. simpl number_start.
  destruct c as [[] [] [] [] [] [] [] []]; try discriminate; intros _; reflexivity.
Qed.

(** *** Documents *)

(** Induction on a document, with the property at hand for every element
    of an array and every member of an object. *)
Lemma json_ind_nested (P : json -> Prop) :
  P JNull -> (forall b, P (JBool b)) -> (forall z, P (JInt z)) ->
  (forall s, P (JStr s)) ->
  (forall l, Forall P l -> P (JArr l)) ->
  (forall m, Forall (fun kv => P (snd kv)) m -> P (JObj m)) ->
  forall v, P v.
Proof.
  intros Hnull Hbool Hint Hstr Harr Hobj. fix IH 1.
  intros [|b|z|s|l|m].
  - exact Hnull.
  - apply Hbool.
  - apply Hint.
  - apply Hstr.
  - apply Harr. induction l as [|x l IHl]; constructor; [apply IH | exact IHl].
  - apply Hobj. induction m as [|[k x] m IHm]; constructor; [apply IH | exact IHm].
Qed.

Lemma not_a_digit_newline (level : nat) (s : string) :
  not_a_digit (newline_indent level +:+ s).
Proof. reflexivity. Qed.

Lemma join_cons_cons (sep x y : string) (l : list string) :
  join sep (x :: y :: l) = x +:+ sep +:+ join sep (y :: l).
Proof. reflexivity. Qed.

Lemma join_start (sep x : string) (l : list string) :
  value_start x -> value_start (join sep (x :: l)).
Proof.
  intros Hx. destruct l as [|y l]; [exact Hx|].
  rewrite join_cons_cons. apply value_start_app. exact Hx.
Qed.

Lemma skip_ws_comma (s : string) : skip_ws (String "," s) = String "," s.
Proof. reflexivity. Qed.

Lemma skip_ws_close (c : ascii) (s : string) :
  is_json_space c = false -> skip_ws (String c s) = String c s.
Proof. intros Hc. simpl. rewrite Hc. reflexivity. Qed.

Lemma expect_close_start (s : string) : value_start s -> expect "]" s = None.
Proof. destruct s as [|c r]; [contradiction|]. intros [_ Hc]. simpl. rewrite Hc. reflexivity. Qed.

Lemma scan_elements_S (n : nat) (s : string) :
  scan_elements (S n) s =
  match scan_value n s with
  | None => None
  | Some (v, r) =>
      match expect "]" (skip_ws r) with
      | Some r' => Some ([v], r')
      | None =>
          match expect "," (skip_ws r) with
          | Some r' =>
              match scan_elements n (skip_ws r') with
              | Some (l, r'') => Some (v :: l, r'')
              | None => None
              end
          | None => None
          end
      end
  end.
Proof. reflexivity. Qed.

Lemma scan_elements_encoded (level : nat) (l : list json) :
  Forall scans_back l ->
  forall x n rest,
    scans_back x ->
    (elements_size json_size (x :: l) <= n)%nat ->
    scan_elements n
      (join ("," +:+ newline_indent (S level)) (map (encode (S level)) (x :: l))
       +:+ newline_indent level +:+ String "]" rest)
    = Some (x :: l, rest).
Proof.
  induction 1 as [|y l Hy Hl IH]; intros x n rest Hx Hn.
  - destruct n as [|n]; [simpl in Hn; lia|].
    simpl map. simpl join. rewrite scan_elements_S.
    rewrite Hx; [|simpl in Hn; lia | apply not_a_digit_newline].
    rewrite skip_ws_newline_indent, skip_ws_close, expect_same by reflexivity.
    reflexivity.
  - destruct n as [|n]; [simpl in Hn; lia|].
    change (map (encode (S level)) (x :: y :: l))
      with (encode (S level) x :: encode (S level) y :: map (encode (S level)) l).
    rewrite join_cons_cons, !string_app_assoc, app_String, app_empty_l.
    change (encode (S level) y :: map (encode (S level)) l)
      with (map (encode (S level)) (y :: l)).
    rewrite scan_elements_S.
    rewrite Hx; [|simpl in Hn |- *; lia | reflexivity].
    rewrite skip_ws_comma.
    change (expect "]" (String "," ?s)) with (@None string).
    rewrite expect_same, skip_ws_newline_indent.
    rewrite skip_ws_start.
    2:{ apply value_start_app. apply join_start. apply encode_start. }
    rewrite IH; [reflexivity | exact Hy | simpl in Hn |- *; lia].
Qed.

Lemma scan_members_S (n : nat) (s : string) :
  scan_members (S n) s =
  match expect QUOTE s with
  | None => None
  | Some r =>
      match scan_string r with
      | None => None
      | Some (k, r1) =>
          match expect ":" (skip_ws r1) with
          | None => None
          | Some r2 =>
              match scan_value n (skip_ws r2) with
              | None => None
              | Some (v, r3) =>
                  match expect "}" (skip_ws r3) with
                  | Some r' => Some ([(k, v)], r')
                  | None =>
                      match expect "," (skip_ws r3) with
                      | Some r' =>
                          match scan_members n (skip_ws r') with
                          | Some (m, r'') => Some ((k, v) :: m, r'')
                          | None => None
                          end
                      | None => None
                      end
                  end
              end
          end
      end
  end.
Proof. reflexivity. Qed.

Lemma join_start_member (level : nat) (sep : string) (kv : string * json)
    (l : list string) :
  value_start (join sep (encode_member level kv :: l)).
Proof.
  apply join_start. destruct kv as [k x]. unfold encode_member, encode_string.
  rewrite app_String. split; reflexivity.
Qed.

(** The key and the value of a member are read back, up to what follows
    the value. *)
Lemma member_text (level : nat) (k : string) (x : json) (t : string) :
  encode_member level (k, x) +:+ t =
  String QUOTE
    (escape k +:+ String QUOTE (String ":" (String " " (encode (S level) x +:+ t)))).
Proof.
  unfold encode_member, encode_string.
  rewrite !app_String, !string_app_assoc, !app_String, !app_empty_l. reflexivity.
Qed.

Lemma join_single (sep x : string) : join sep [x] = x.
Proof. reflexivity. Qed.

Lemma join_comma_text (sep x y : string) (l : list string) (t : string) :
  join ("," +:+ sep) (x :: y :: l) +:+ t =
  x +:+ String "," (sep +:+ join ("," +:+ sep) (y :: l) +:+ t).
Proof.
  rewrite join_cons_cons, !string_app_assoc, app_String, app_empty_l. reflexivity.
Qed.

(** The key and the value of a member are read back, up to what follows
    the value. *)
Ltac scan_member Hx :=
  rewrite member_text, expect_same, scan_string_escape;
  change (skip_ws (String ":" ?s)) with (String ":" s);
  rewrite expect_same;
  change (skip_ws (String " " ?s)) with (skip_ws s);
  rewrite skip_ws_start by (apply value_start_app, encode_start);
  rewrite Hx.

Lemma scan_members_encoded (level : nat) (m : list (string * json)) :
  Forall (fun kv => scans_back (snd kv)) m ->
  forall k x n rest,
    scans_back x ->
    (members_size json_size ((k, x) :: m) <= n)%nat ->
    scan_members n
      (join ("," +:+ newline_indent (S level)) (map (encode_member level) ((k, x) :: m))
       +:+ newline_indent level +:+ String "}" rest)
    = Some ((k, x) :: m, rest).
Proof.
  induction 1 as [|[k' y] m Hy Hm IH]; intros k x n rest Hx Hn.
  - destruct n as [|n]; [simpl in Hn; lia|].
    change (map (encode_member level) [(k, x)]) with [encode_member level (k, x)].
    rewrite join_single, scan_members_S.
    scan_member Hx; [|simpl in Hn; lia | apply not_a_digit_newline].
    rewrite skip_ws_newline_indent, skip_ws_close, expect_same by reflexivity.
    reflexivity.
  - destruct n as [|n]; [simpl in Hn; lia|].
    change (map (encode_member level) ((k, x) :: (k', y) :: m))
      with (encode_member level (k, x)
              :: map (encode_member level) ((k', y) :: m)).
    change (map (encode_member level) ((k', y) :: m))
      with (encode_member level (k', y) :: map (encode_member level) m) at 1.
    rewrite join_comma_text, scan_members_S.
    scan_member Hx; [|simpl in Hn |- *; lia | reflexivity].
    rewrite skip_ws_comma.
    change (expect "}" (String "," ?s)) with (@None string).
    rewrite expect_same, skip_ws_newline_indent.
    rewrite skip_ws_start by (apply value_start_app, join_start_member).
    change (encode_member level (k', y) :: map (encode_member level) m)
      with (map (encode_member level) ((k', y) :: m)).
    rewrite IH; [reflexivity | exact Hy | simpl in Hn |- *; lia].
Qed.

Lemma array_text (level : nat) (x : json) (l : list json) (rest : string) :
  encode level (JArr (x :: l)) +:+ rest =
  String "["
    (newline_indent (S level)
     +:+ (join ("," +:+ newline_indent (S level)) (map (encode (S level)) (x :: l))
          +:+ newline_indent level +:+ String "]" rest)).
Proof.
  change (encode level (JArr (x :: l))) with
    (String "[" (newline_indent (S level)
       +:+ join ("," +:+ newline_indent (S level)) (map (encode (S level)) (x :: l))
       +:+ newline_indent level +:+ "]")).
  rewrite app_String, !string_app_assoc. reflexivity.
Qed.

Lemma object_text (level : nat) (kv : string * json) (m : list (string * json))
    (rest : string) :
  encode level (JObj (kv :: m)) +:+ rest =
  String "{"
    (newline_indent (S level)
     +:+ (join ("," +:+ newline_indent (S level)) (map (encode_member level) (kv :: m))
          +:+ newline_indent level +:+ String "}" rest)).
Proof.
  change (encode level (JObj (kv :: m))) with
    (String "{" (newline_indent (S level)
       +:+ join ("," +:+ newline_indent (S level)) (map (encode_member level) (kv :: m))
       +:+ newline_indent level +:+ "}")).
  rewrite app_String, !string_app_assoc. reflexivity.
Qed.

Lemma scan_value_array (n : nat) (r : string) :
  scan_value (S n) (String "[" r) =
  match expect "]" (skip_ws r) with
  | Some r' => Some (JArr [], r')
  | None =>
      match scan_elements n (skip_ws r) with
      | Some (l, r') => Some (JArr l, r')
      | None => None
      end
  end.
Proof. reflexivity. Qed.

Lemma scan_value_object (n : nat) (r : string) :
  scan_value (S n) (String "{" r) =
  match expect "}" (skip_ws r) with
  | Some r' => Some (JObj [], r')
  | None =>
      match scan_members n (skip_ws r) with
      | Some (m, r') => Some (JObj m, r')
      | None => None
      end
  end.
Proof. reflexivity. Qed.

Lemma scan_value_string (n : nat) (r : string) :
  scan_value (S n) (String QUOTE r) =
  match scan_string r with
  | Some (t, r') => Some (JStr t, r')
  | None => None
  end.
Proof. reflexivity. Qed.

Theorem scan_value_encode (v : json) : scans_back v.
Proof.
  induction v as [|b|z|s|l IH|m IH] using json_ind_nested;
    intros n level rest Hn Hrest;
    (destruct n as [|n]; [simpl in Hn; lia|]).
  - reflexivity.
  - destruct b; reflexivity.
  - simpl encode.
    rewrite scan_value_number by (apply number_start_app, str_of_int_start).
    apply scan_number_str_of_int. exact Hrest.
  - simpl encode. unfold encode_string.
    rewrite app_String, scan_value_string, string_app_assoc, app_String, app_empty_l.
    rewrite scan_string_escape. reflexivity.
  - destruct l as [|x l]; [reflexivity|].
    inversion IH as [|? ? Hx Hl]; subst.
    rewrite array_text, scan_value_array, skip_ws_newline_indent.
    rewrite skip_ws_start by (apply value_start_app, join_start, encode_start).
    rewrite expect_close_start
      by (apply value_start_app, join_start, encode_start).
    rewrite (scan_elements_encoded level l Hl x n rest Hx); [reflexivity|].
    simpl in Hn |- *. lia.
  - destruct m as [|[k x] m]; [reflexivity|].
    inversion IH as [|? ? Hx Hm]; subst.
    rewrite object_text, scan_value_object, skip_ws_newline_indent.
    rewrite skip_ws_start by (apply value_start_app, join_start_member).
    assert (expect "}"
              (join ("," +:+ newline_indent (S level))
                 (map (encode_member level) ((k, x) :: m))
               +:+ newline_indent level +:+ String "}" rest) = None) as ->.
    { change (map (encode_member level) ((k, x) :: m))
        with (encode_member level (k, x) :: map (encode_member level) m).
      destruct (map (encode_member level) m);
        [rewrite join_single | rewrite join_comma_text]; rewrite member_text;
        reflexivity. }
    rewrite (scan_members_encoded level m Hm k x n rest Hx); [reflexivity|].
    simpl in Hn |- *. lia.
Qed.

(** *** The fuel [json_load] starts with is enough *)

Lemma value_start_length (s : string) : value_start s -> (1 <= String.length s)%nat.
Proof. destruct s; [contradiction|]. simpl. lia. Qed.

Lemma length_newline_indent (level : nat) : (1 <= String.length (newline_indent level))%nat.
Proof. unfold newline_indent, LF. rewrite app_String. simpl. lia. Qed.

Lemma elements_length (level : nat) (sep : string) (l : list json) :
  Forall (fun x => forall level, (json_size x <= String.length (encode level x))%nat) l ->
  (1 <= String.length sep)%nat ->
  (elements_size json_size l
   <= String.length (join sep (map (encode level) l)) + 1)%nat.
Proof.
  intros Hl Hsep. induction Hl as [|x l Hx Hl IH]; [simpl; lia|].
  destruct l as [|y l].
  - simpl. specialize (Hx level). lia.
  - change (map (encode level) (x :: y :: l))
      with (encode level x :: encode level y :: map (encode level) l).
    rewrite join_cons_cons, !length_string_app.
    change (encode level y :: map (encode level) l)
      with (map (encode level) (y :: l)).
    specialize (Hx level).
    change (elements_size json_size (x :: y :: l))
      with (S (json_size x + elements_size json_size (y :: l))).
    lia.
Qed.

Lemma members_length (level : nat) (sep : string) (m : list (string * json)) :
  Forall (fun kv => forall level,
            (json_size (snd kv) <= String.length (encode level (snd kv)))%nat) m ->
  (1 <= String.length sep)%nat ->
  (members_size json_size m
   <= String.length (join sep (map (encode_member level) m)) + 1)%nat.
Proof.
  intros Hm Hsep.
  assert (forall k x, (json_size x <= String.length (encode (S level) x))%nat ->
            (json_size x <= String.length (encode_member level (k, x)))%nat) as Hmember.
  { intros k x Hx. unfold encode_member. rewrite !length_string_app. lia. }
  induction Hm as [|[k x] m Hx Hm IH]; [simpl; lia|].
  specialize (Hmember k x (Hx (S level))).
  destruct m as [|[k' y] m].
  - simpl members_size. change (map (encode_member level) [(k, x)])
      with [encode_member level (k, x)]. rewrite join_single. lia.
  - change (map (encode_member level) ((k, x) :: (k', y) :: m))
      with (encode_member level (k, x) :: encode_member level (k', y)
              :: map (encode_member level) m).
    rewrite join_cons_cons, !length_string_app.
    change (encode_member level (k', y) :: map (encode_member level) m)
      with (map (encode_member level) ((k', y) :: m)).
    change (members_size json_size ((k, x) :: (k', y) :: m))
      with (S (json_size x + members_size json_size ((k', y) :: m))).
    lia.
Qed.

Lemma json_size_length (v : json) :
  forall level, (json_size v <= String.length (encode level v))%nat.
Proof.
  induction v as [|b|z|s|l IH|m IH] using json_ind_nested; intros level;
    try (apply (value_start_length _ (encode_start level _))).
  - destruct l as [|x l]; [simpl; lia|].
    pose proof (array_text level x l "") as Htext.
    rewrite app_empty_r in Htext. rewrite Htext.
    pose proof (elements_length (S level) ("," +:+ newline_indent (S level))
                  (x :: l) IH) as Hbound.
    pose proof (length_newline_indent (S level)).
    pose proof (length_newline_indent level).
    simpl String.length. rewrite !length_string_app.
    change (json_size (JArr (x :: l))) with (S (elements_size json_size (x :: l))).
    simpl String.length. rewrite length_string_app in Hbound.
    simpl String.length in Hbound. lia.
  - destruct m as [|kv m]; [simpl; lia|].
    pose proof (object_text level kv m "") as Htext.
    rewrite app_empty_r in Htext. rewrite Htext.
    pose proof (members_length level ("," +:+ newline_indent (S level))
                  (kv :: m) IH) as Hbound.
    pose proof (length_newline_indent (S level)).
    pose proof (length_newline_indent level).
    simpl String.length. rewrite !length_string_app.
    change (json_size (JObj (kv :: m))) with (S (members_size json_size (kv :: m))).
    simpl String.length. rewrite length_string_app in Hbound.
    simpl String.length in Hbound. lia.
Qed.

(** [json.load] reads back what [json.dump] wrote. *)
Theorem json_load_dump (v : json) : json_load (json_dump v) = Some v.
Proof.
  unfold json_load, json_dump.
  rewrite skip_ws_start by apply encode_start.
  pose proof (scan_value_encode v (S (String.length (encode 0 v))) 0%nat "") as Hscan.
  rewrite app_empty_r in Hscan. rewrite Hscan; [reflexivity | | exact I].
  pose proof (json_size_length v 0%nat). lia.
Qed.

(** ** Console computations *)

Lemma world_eta (w : world) : mkWorld (stdin w) (stdout w) (files w) = w.
Proof. destruct w; reflexivity. Qed.

Lemma writes_only_ret : writes_only (io_ret tt).
Proof.
  intros w. exists []. unfold io_ret. rewrite app_nil_r, world_eta. reflexivity.
Qed.

Lemma writes_only_print (s : string) : writes_only (print s).
Proof. intros w. exists [s +:+ LF]. reflexivity. Qed.

Lemma writes_only_bind (m : io unit) (k : unit -> io unit) :
  writes_only m -> (forall u, writes_only (k u)) -> writes_only (io_bind m k).
Proof.
  intros Hm Hk w. unfold io_bind.
  destruct (Hm w) as [out1 ->].
  destruct (Hk tt (mkWorld (stdin w) (stdout w ++ out1) (files w))) as [out2 ->].
  exists (out1 ++ out2). simpl. rewrite app_assoc. reflexivity.
Qed.

Lemma writes_only_for_each {A} (l : list A) (body : A -> io unit) :
  (forall x, writes_only (body x)) -> writes_only (for_each l body).
Proof.
  intros Hbody. induction l as [|x rest IH]; simpl.
  - apply writes_only_ret.
  - apply writes_only_bind; [apply Hbody | intros _; exact IH].
Qed.

Lemma writes_only_for_enumerate {A} (l : list A) (start : Z) (body : Z -> A -> io unit) :
  (forall i x, writes_only (body i x)) -> writes_only (for_enumerate start l body).
Proof.
  intros Hbody. revert start. induction l as [|x rest IH]; intros start; simpl.
  - apply writes_only_ret.
  - apply writes_only_bind; [apply Hbody | intros _; apply IH].
Qed.

Create HintDb console.
#[local] Hint Resolve writes_only_ret writes_only_print writes_only_bind
  writes_only_for_each writes_only_for_enumerate : console.

Lemma writes_or_fails_writes (m : io unit) : writes_only m -> writes_or_fails m.
Proof. intros Hm w. destruct (Hm w) as [out ->]. exists out. left. reflexivity. Qed.

Lemma writes_or_fails_raise : writes_or_fails (raise ValueError).
Proof.
  intros w. exists []. right. unfold raise. rewrite app_nil_r, world_eta. reflexivity.
Qed.

Lemma writes_or_fails_bind (m : io unit) (k : unit -> io unit) :
  writes_or_fails m -> (forall u, writes_or_fails (k u)) ->
  writes_or_fails (io_bind m k).
Proof.
  intros Hm Hk w. unfold io_bind.
  destruct (Hm w) as [out1 [-> | ->]]; [|exists out1; right; reflexivity].
  destruct (Hk tt (mkWorld (stdin w) (stdout w ++ out1) (files w)))
    as [out2 [-> | ->]]; exists (out1 ++ out2); simpl; rewrite app_assoc; auto.
Qed.

Lemma writes_or_fails_for_each {A} (l : list A) (body : A -> io unit) :
  (forall x, writes_or_fails (body x)) -> writes_or_fails (for_each l body).
Proof.
  intros Hbody. induction l as [|x rest IH]; simpl.
  - apply writes_or_fails_writes, writes_only_ret.
  - apply writes_or_fails_bind; [apply Hbody | intros _; exact IH].
Qed.

Lemma writes_or_fails_for_enumerate {A} (l : list A) (start : Z)
    (body : Z -> A -> io unit) :
  (forall i x, writes_or_fails (body i x)) ->
  writes_or_fails (for_enumerate start l body).
Proof.
  intros Hbody. revert start. induction l as [|x rest IH]; intros start; simpl.
  - apply writes_or_fails_writes, writes_only_ret.
  - apply writes_or_fails_bind; [apply Hbody | intros _; apply IH].
Qed.

(** Whether a report returns or raises: it returns when every order it
    prints is printable, and raises [ValueError] otherwise. *)
Ltac report_fails :=
  exists []; unfold raise; rewrite app_nil_r, world_eta; reflexivity.

(** Replaces a run in the goal by its result [H], up to conversion. *)
Ltac run_as H :=
  match type of H with
  | _ = ?rhs =>
      match goal with
      | |- ?m = _ => assert (m = rhs) as -> by exact H
      | |- context [let (_, _) := ?m in _] => assert (m = rhs) as -> by exact H
      end
  end.

Lemma report_rows_outcome (l : list Item) : forall w : world,
  exists out,
    for_each l (fun item =>
      let subtotal := price item * quantity item in
      match text_of_int (price item), text_of_int (quantity item),
            text_of_int subtotal with
      | Some p, Some q, Some t =>
          print (name item +:+ TAB +:+ p +:+ TAB +:+ q +:+ TAB +:+ t)
      | _, _, _ => raise ValueError
      end) w
    = (if forallb printable_item l then Return tt else Raise ValueError,
       mkWorld (stdin w) (stdout w ++ out) (files w)).
Proof.
  induction l as [|item l IH]; intros w.
  - exists []. simpl. unfold io_ret. rewrite app_nil_r, world_eta. reflexivity.
  - cbn [for_each forallb]. unfold io_bind at 1. cbv zeta.
    unfold text_of_int, printable_item.
    destruct (fits_str (price item)); cbn [andb]; [|report_fails].
    destruct (fits_str (quantity item)); cbn [andb]; [|report_fails].
    destruct (fits_str (price item * quantity item)); cbn [andb]; [|report_fails].
    unfold print at 1, write.
    match goal with
    | |- context [for_each l _ ?w1] =>
        match w1 with
        | mkWorld _ (_ ++ [?a]) _ =>
            destruct (IH w1) as [out Hout]; exists (a :: out);
            etransitivity; [exact Hout|]
        end
    end.
    cbn [stdin stdout files]. rewrite <- app_assoc. reflexivity.
Qed.

Lemma report_body_outcome (single : bool) (idx : Z) (order : Order) (w : world) :
  exists out,
    ((if single then io_ret tt
      else print (LF +:+ "訂單 #" +:+ str_of_int idx)) ;;
     print ("訂單編號: " +:+ order_id order) ;;
     print ("客戶姓名: " +:+ customer order) ;;
     print RULE_DASH ;;
     print ("商品名稱" +:+ TAB +:+ "單價" +:+ TAB +:+ "數量" +:+ TAB +:+ "小計") ;;
     print RULE_DASH ;;
     for_each (items order) (fun item =>
       let subtotal := price item * quantity item in
       match text_of_int (price item), text_of_int (quantity item),
             text_of_int subtotal with
       | Some p, Some q, Some t =>
           print (name item +:+ TAB +:+ p +:+ TAB +:+ q +:+ TAB +:+ t)
       | _, _, _ => raise ValueError
       end) ;;
     print RULE_DASH ;;
     let total := calculate_order_total order in
     match text_of_int_comma total with
     | Some t => print ("訂單總額: " +:+ t)
     | None => raise ValueError
     end ;;
     print RULE_EQ) w
    = (if printable_order order then Return tt else Raise ValueError,
       mkWorld (stdin w) (stdout w ++ out) (files w)).
Proof.
  unfold printable_order.
  assert (exists out0 : list string,
            (if single then io_ret tt
             else print (LF +:+ "訂單 #" +:+ str_of_int idx)) w
            = (Return tt, mkWorld (stdin w) (stdout w ++ out0) (files w)))
    as [out0 Hhead].
  { destruct single; [apply writes_only_ret | apply writes_only_print]. }
  unfold io_bind at 1. rewrite Hhead.
  unfold io_bind at 1 2 3 4 5 6. unfold print at 1 2 3 4 5, write.
  cbn [stdin stdout files].
  match goal with |- context [for_each _ _ ?w1] =>
    destruct (report_rows_outcome (items order) w1) as [rows Hrows] end.
  run_as Hrows.
  cbn [stdin stdout files].
  destruct (forallb printable_item (items order)); cbn [andb].
  2:{ rewrite <- !app_assoc.
      match goal with
      | |- context [stdout w ++ ?l] => exists l
      end. reflexivity. }
  unfold io_bind at 1 2. unfold print at 1, write. cbn [stdin stdout files].
  cbv zeta. unfold text_of_int_comma.
  destruct (fits_str (calculate_order_total order)).
  - unfold print, write. cbn [stdin stdout files]. rewrite <- !app_assoc.
    match goal with
    | |- context [stdout w ++ ?l] => exists l
    end. reflexivity.
  - unfold raise. rewrite <- !app_assoc.
    match goal with
    | |- context [stdout w ++ ?l] => exists l
    end. reflexivity.
Qed.

Lemma report_single_outcome (order : Order) (title : string) (w : world) :
  exists out,
    print_order_report (inl order) title true w
    = (if printable_order order then Return tt else Raise ValueError,
       mkWorld (stdin w) (stdout w ++ out) (files w)).
Proof.
  unfold print_order_report. unfold io_bind at 1, print at 1, write.
  cbn [for_enumerate]. unfold io_bind at 1.
  match goal with
  | |- context [let (_, _) := _ ?w1 in _] =>
      destruct (report_body_outcome true 1 order w1) as [out Hbody]
  end.
  run_as Hbody.
  cbn [stdin stdout files]. rewrite <- app_assoc.
  match goal with |- context [stdout w ++ ?l] => exists l end.
  destruct (printable_order order); reflexivity.
Qed.

Lemma report_many_outcome (title : string) (orders : list Order) (w : world) :
  exists out,
    print_order_report (inr orders) title false w
    = (if forallb printable_order orders then Return tt else Raise ValueError,
       mkWorld (stdin w) (stdout w ++ out) (files w)).
Proof.
  unfold print_order_report. unfold io_bind at 1, print at 1, write.
  match goal with |- context [for_enumerate 1 orders ?body ?w1] =>
    assert (forall start w0, exists out,
              for_enumerate start orders body w0
              = (if forallb printable_order orders then Return tt
                 else Raise ValueError,
                 mkWorld (stdin w0) (stdout w0 ++ out) (files w0))) as Hall
  end.
  { clear. induction orders as [|order orders IH]; intros start w0.
    - exists []. simpl. unfold io_ret. rewrite app_nil_r, world_eta. reflexivity.
    - cbn [for_enumerate forallb]. unfold io_bind at 1.
      destruct (report_body_outcome false start order w0) as [out Hbody].
      run_as Hbody.
      destruct (printable_order order); cbn [andb]; [|exists out; reflexivity].
      match goal with |- context [for_enumerate _ orders _ ?w1] =>
        destruct (IH (start + 1) w1) as [out' Hout'] end.
      exists (out ++ out'). etransitivity; [exact Hout'|].
      cbn [stdin stdout files]. rewrite <- app_assoc. reflexivity. }
  match goal with
  | |- context [for_enumerate 1 orders _ ?w1] =>
      match w1 with
      | mkWorld _ (_ ++ [?a]) _ =>
          destruct (Hall 1 w1) as [out Hout]; exists (a :: out);
          etransitivity; [exact Hout|]
      end
  end.
  cbn [stdin stdout files]. rewrite <- app_assoc. reflexivity.
Qed.

Lemma writes_or_fails_report_single (order : Order) (title : string) :
  writes_or_fails (print_order_report (inl order) title true).
Proof.
  intros w. destruct (report_single_outcome order title w) as [out ->]. exists out.
  destruct (printable_order order); auto.
Qed.

(** The report of the menu: the pending orders, or the message that there
    are none. *)
Lemma report_turn_outcome (orders : list Order) (w : world) :
  exists out,
    (if bool_decide (orders = []) then print "=> 目前沒有訂單"
     else print_order_report (inr orders) "訂單報表" false) w
    = (if forallb printable_order orders then Return tt else Raise ValueError,
       mkWorld (stdin w) (stdout w ++ out) (files w)).
Proof.
  destruct (bool_decide_reflect (orders = [])) as [-> | _].
  - apply writes_only_print.
  - apply report_many_outcome.
Qed.

Lemma writes_or_fails_report_turn (orders : list Order) :
  writes_or_fails
    (if bool_decide (orders = []) then print "=> 目前沒有訂單"
     else print_order_report (inr orders) "訂單報表" false).
Proof.
  intros w. destruct (report_turn_outcome orders w) as [out ->]. exists out.
  destruct (forallb printable_order orders); auto.
Qed.

(** ** [list.pop] *)

Lemma list_pop_middle {A} (pre post : list A) (x : A) :
  list_pop (pre ++ x :: post) (Z.of_nat (length pre)) = Some (x, pre ++ post).
Proof.
  unfold list_pop. cbv zeta.
  assert ((Z.of_nat (length pre) <? 0) = false) as Hlt by (apply Z.ltb_ge; lia).
  rewrite Hlt. cbv iota. rewrite Hlt.
  rewrite length_app. simpl length.
  destruct (Z.leb_spec (Z.of_nat (length pre + S (length post)))
              (Z.of_nat (length pre))) as [Hout|_]; [lia|].
  cbn [orb].
  rewrite Nat2Z.id, list_lookup_middle by reflexivity.
  rewrite delete_middle. reflexivity.
Qed.

Lemma list_pop_split {A} (l l' : list A) (i : Z) (x : A) :
  list_pop l i = Some (x, l') ->
  exists pre post, l = pre ++ x :: post /\ l' = pre ++ post.
Proof.
  unfold list_pop. intros Hpop.
  destruct (_ || _); [discriminate|].
  destruct (l !! _) as [y|] eqn:Hy; [|discriminate].
  injection Hpop as -> <-.
  exists (take (Z.to_nat (if i <? 0 then i + Z.of_nat (length l) else i)) l),
         (drop (S (Z.to_nat (if i <? 0 then i + Z.of_nat (length l) else i))) l).
  split.
  - symmetry. apply take_drop_middle. exact Hy.
  - apply delete_take_drop.
Qed.

(** Reached with a negative index, [pop] would take from the end. *)
Example list_pop_negative_index :
  list_pop [1; 2; 3] (-1) = Some (3, [1; 2]).
Proof. reflexivity. Qed.

Ltac io_close :=
  repeat split; try discriminate; try (simpl in *; lia); try assumption;
  try (intros ? ? ?; discriminate).

(** ** [process_order] *)

Section ProcessOrder.
Context `{PyStr}.

Lemma process_order_empty (w : world) :
  process_order [] w = (Return (MSG_NO_ORDERS, None, []), w).
Proof. reflexivity. Qed.

(** Up to the prompt: only the listing is written. *)
Lemma process_order_listing (orders : list Order) (w : world) :
  orders <> [] ->
  exists out,
    process_order orders w =
    (choice <- input "請選擇要出餐的訂單編號 (輸入數字或按 Enter 取消): " ;;
     if is_empty choice then io_ret (MSG_CANCEL, None, orders)
     else
       match int choice with
       | None => io_ret (MSG_INVALID_NUMBER, None, orders)
       | Some n =>
           if (0 <=? n - 1) && (n - 1 <? Z.of_nat (length orders)) then
             match list_pop orders (n - 1) with
             | None => raise IndexError
             | Some (completed_order, orders') =>
                 io_ret ("=> 訂單 " +:+ order_id completed_order +:+ " 已出餐完成",
                         Some completed_order, orders')
             end
           else io_ret (MSG_INVALID_NUMBER, None, orders)
       end)
      (mkWorld (stdin w) (stdout w ++ out) (files w)).
Proof.
  intros Hne. unfold process_order.
  rewrite bool_decide_eq_false_2 by exact Hne.
  assert (writes_only
            (print (LF +:+ "======== 待處理訂單列表 ========") ;;
             for_enumerate 1 orders (fun idx order =>
               print (str_of_int idx +:+ ". 訂單編號: " +:+ order_id order
                      +:+ " - 客戶: " +:+ customer order)) ;;
             print "================================")) as Hlist.
  { repeat (apply writes_only_bind; [auto with console | intros _]);
      auto with console. }
  destruct (Hlist w) as [out Hout]. exists out.
  unfold io_bind in Hout |- *.
  destruct (print _ w) as [[[]| | |] w1]; try discriminate.
  destruct (for_enumerate _ _ _ w1) as [[[]| | |] w2]; try discriminate.
  destruct (print _ w2) as [[[]| | |] w3]; try discriminate.
  injection Hout as ->. reflexivity.
Qed.

(** With a line to read: the listing and the prompt are written and the
    line decides. *)
Lemma process_order_reads (orders : list Order) (choice : string)
    (rest : list string) (w : world) :
  orders <> [] -> stdin w = choice :: rest ->
  exists out,
    process_order orders w =
    (if is_empty choice then io_ret (MSG_CANCEL, None, orders)
     else
       match int choice with
       | None => io_ret (MSG_INVALID_NUMBER, None, orders)
       | Some n =>
           if (0 <=? n - 1) && (n - 1 <? Z.of_nat (length orders)) then
             match list_pop orders (n - 1) with
             | None => raise IndexError
             | Some (completed_order, orders') =>
                 io_ret ("=> 訂單 " +:+ order_id completed_order +:+ " 已出餐完成",
                         Some completed_order, orders')
             end
           else io_ret (MSG_INVALID_NUMBER, None, orders)
       end)
      (mkWorld rest (stdout w ++ out) (files w)).
Proof.
  intros Hne Hin. destruct (process_order_listing orders w Hne) as [out ->].
  exists (out ++ ["請選擇要出餐的訂單編號 (輸入數字或按 Enter 取消): "]).
  unfold io_bind, input. cbn [stdin stdout files].
  rewrite Hin, app_assoc. reflexivity.
Qed.

Lemma is_empty_false (s : string) : s <> "" -> is_empty s = false.
Proof. destruct s; [congruence | reflexivity]. Qed.

Lemma process_order_cancel (orders : list Order) (rest : list string) (w : world) :
  orders <> [] -> stdin w = "" :: rest ->
  exists out,
    process_order orders w =
    (Return (MSG_CANCEL, None, orders), mkWorld rest (stdout w ++ out) (files w)).
Proof.
  intros Hne Hin. destruct (process_order_reads orders "" rest w Hne Hin) as [out ->].
  exists out. reflexivity.
Qed.

Lemma process_order_not_a_number (orders : list Order) (choice : string)
    (rest : list string) (w : world) :
  orders <> [] -> stdin w = choice :: rest -> choice <> "" -> int choice = None ->
  exists out,
    process_order orders w =
    (Return (MSG_INVALID_NUMBER, None, orders),
     mkWorld rest (stdout w ++ out) (files w)).
Proof.
  intros Hne Hin Hchoice Hint.
  destruct (process_order_reads orders choice rest w Hne Hin) as [out ->].
  exists out. rewrite is_empty_false, Hint by exact Hchoice. reflexivity.
Qed.

Lemma process_order_out_of_range (orders : list Order) (choice : string)
    (rest : list string) (n : Z) (w : world) :
  orders <> [] -> stdin w = choice :: rest -> choice <> "" ->
  int choice = Some n -> n < 1 \/ Z.of_nat (length orders) < n ->
  exists out,
    process_order orders w =
    (Return (MSG_INVALID_NUMBER, None, orders),
     mkWorld rest (stdout w ++ out) (files w)).
Proof.
  intros Hne Hin Hchoice Hint Hrange.
  destruct (process_order_reads orders choice rest w Hne Hin) as [out ->].
  exists out. rewrite is_empty_false, Hint by exact Hchoice.
  assert ((0 <=? n - 1) && (n - 1 <? Z.of_nat (length orders)) = false) as ->.
  { apply andb_false_iff. rewrite Z.leb_gt, Z.ltb_ge. lia. }
  reflexivity.
Qed.

Lemma process_order_selects (pre post : list Order) (order : Order)
    (choice : string) (rest : list string) (w : world) :
  stdin w = choice :: rest -> choice <> "" ->
  int choice = Some (Z.of_nat (length pre) + 1) ->
  exists out,
    process_order (pre ++ order :: post) w =
    (Return ("=> 訂單 " +:+ order_id order +:+ " 已出餐完成", Some order, pre ++ post),
     mkWorld rest (stdout w ++ out) (files w)).
Proof.
  intros Hin Hchoice Hint.
  assert (pre ++ order :: post <> []) as Hne by (destruct pre; discriminate).
  destruct (process_order_reads _ choice rest w Hne Hin) as [out ->].
  exists out. rewrite is_empty_false, Hint by exact Hchoice.
  replace (Z.of_nat (length pre) + 1 - 1) with (Z.of_nat (length pre)) by lia.
  assert ((0 <=? Z.of_nat (length pre))
          && (Z.of_nat (length pre) <? Z.of_nat (length (pre ++ order :: post)))
          = true) as ->.
  { apply andb_true_iff. rewrite Z.leb_le, Z.ltb_lt, length_app. simpl. lia. }
  rewrite list_pop_middle. reflexivity.
Qed.

(** Whatever is read: no fuel is involved, no line is given back, no file
    is touched, and the list that is left is the list itself or the list
    without the order that is handed out. *)
Lemma process_order_result (orders : list Order) (w w' : world)
    (r : outcome (string * option Order * list Order)) :
  process_order orders w = (r, w') ->
  r <> OutOfFuel
  /\ (length (stdin w') <= length (stdin w))%nat
  /\ files w' = files w
  /\ forall msg completed orders', r = Return (msg, completed, orders') ->
       (completed = None /\ orders' = orders)
       \/ exists pre post order,
            completed = Some order /\ orders = pre ++ order :: post
            /\ orders' = pre ++ post.
Proof.
  destruct orders as [|o1 os].
  { rewrite process_order_empty. intros [= <- <-]. io_close.
    intros msg completed orders' [= _ <- <-]. left. split; reflexivity. }
  destruct (process_order_listing (o1 :: os) w) as [out ->]; [discriminate|].
  unfold io_bind, input, write. cbn [stdin stdout files].
  destruct (stdin w) as [|choice rest].
  { intros [= <- <-]. io_close. }
  destruct (is_empty choice).
  { intros [= <- <-]. io_close.
    intros msg completed orders' [= _ <- <-]. left. split; reflexivity. }
  destruct (int choice) as [n|].
  2:{ intros [= <- <-]. io_close.
      intros msg completed orders' [= _ <- <-]. left. split; reflexivity. }
  destruct (_ && _).
  2:{ intros [= <- <-]. io_close.
      intros msg completed orders' [= _ <- <-]. left. split; reflexivity. }
  destruct (list_pop _ _) as [[order orders1]|] eqn:Hpop.
  2:{ intros [= <- <-]. io_close. }
  intros [= <- <-]. io_close.
  intros msg completed orders' [= _ <- <-]. right.
  destruct (list_pop_split _ _ _ _ Hpop) as (pre & post & Hl & Hl').
  exists pre, post, order. repeat split; assumption.
Qed.

End ProcessOrder.

(** ** [add_order] *)

Section AddOrder.
Context `{PyStr}.

(** The loop that reads the items stops: it returns or raises before its
    fuel is used up, gives no line back and touches no file. *)
Lemma add_order_items_total (fuel : nat) : forall (items : list Item) (w : world),
  (length (stdin w) < fuel)%nat ->
  exists r w', add_order_items fuel items w = (r, w')
    /\ r <> OutOfFuel /\ (length (stdin w') <= length (stdin w))%nat
    /\ files w' = files w.
Proof.
  induction fuel as [|fuel IH]; intros items w Hfuel; [lia|].
  assert (forall items' w1, (length (stdin w1) < length (stdin w))%nat ->
            files w1 = files w ->
            exists r w', add_order_items fuel items' w1 = (r, w')
              /\ r <> OutOfFuel /\ (length (stdin w') <= length (stdin w))%nat
              /\ files w' = files w) as Hloop.
  { intros items' w1 Hlen Hfs.
    destruct (IH items' w1) as (r & w' & Hrun & Hr & Hlen' & Hfs'); [lia|].
    exists r, w'. repeat split; [exact Hrun | exact Hr | lia | congruence]. }
  simpl. unfold io_bind, input, print, write.
  destruct w as [[|name' r1] out fs]; cbn [stdin stdout files length] in *.
  { eexists _, _. io_close. }
  destruct (is_empty name'); [unfold io_ret; eexists _, _; io_close|].
  destruct r1 as [|text r2]; cbn [stdin stdout files length] in *.
  { eexists _, _. io_close. }
  destruct (int text) as [p|]; [|apply Hloop; simpl; [lia | reflexivity]].
  destruct (p <? 0); [apply Hloop; simpl; [lia | reflexivity]|].
  destruct r2 as [|text2 r3]; cbn [stdin stdout files length] in *.
  { eexists _, _. io_close. }
  destruct (int text2) as [q|]; [|apply Hloop; simpl; [lia | reflexivity]].
  destruct (q <=? 0); apply Hloop; simpl; (lia || reflexivity).
Qed.


Lemma add_order_duplicate (orders : list Order) (line : string) (rest : list string) (w : world) :
  stdin w = line :: rest ->
  existsb (fun order => String.eqb (order_id order) (upper line)) orders = true ->
  add_order orders w =
  (Return ("=> 錯誤：訂單編號 " +:+ upper line +:+ " 已存在！", orders),
   mkWorld rest (stdout w ++ ["請輸入訂單編號："]) (files w)).
Proof.
  intros Hin Hdup. unfold add_order, io_bind, input. rewrite Hin, Hdup. reflexivity.
Qed.

Lemma add_order_result (orders : list Order) (w w' : world)
    (r : outcome (string * list Order)) :
  add_order orders w = (r, w') ->
  r <> OutOfFuel
  /\ (length (stdin w') <= length (stdin w))%nat
  /\ files w' = files w
  /\ forall msg orders', r = Return (msg, orders') ->
       orders' = orders
       \/ exists line customer items,
            orders' = orders ++ [mkOrder (upper line) customer items]
            /\ items <> []
            /\ existsb (fun order => String.eqb (order_id order) (upper line)) orders = false.
Proof.
  unfold add_order, io_bind, input, lines_left, write.
  destruct w as [[|line r1] out fs]; cbn [stdin stdout files].
  { intros [= <- <-]. io_close. }
  destruct (existsb _ orders) eqn:Hdup.
  { intros [= <- <-]. io_close.
    intros msg orders' [= _ <-]. left; reflexivity. }
  destruct r1 as [|cust r2]; cbn [stdin stdout files].
  { intros [= <- <-]. io_close. }
  edestruct (add_order_items_total (S (length r2)) []) as (ri & wi & -> & Hr & Hlen & Hfs);
    [cbn [stdin]; lia|].
  cbn [stdin files] in Hlen, Hfs.
  destruct ri as [its|e| |]; [|intros [= <- <-]; io_close; congruence..].
  destruct (bool_decide (its = [])) eqn:Hits; intros [= <- <-]; io_close.
  - intros msg orders' [= _ <-]. left; reflexivity.
  - intros msg orders' [= _ <-]. right. exists line, cust, its.
    repeat split; [|exact Hdup]. apply bool_decide_eq_false in Hits. exact Hits.
Qed.

End AddOrder.

(** ** The menu loop *)

(** [load_data] returns or raises at once, and changes nothing. *)
Lemma load_data_result (filename : string) (w w' : world) (r : outcome (list Order)) :
  load_data filename w = (r, w') -> w' = w /\ r <> OutOfFuel.
Proof.
  unfold load_data.
  destruct (files w !! filename) as [text|];
    [|intros [= <- <-]; split; [reflexivity | discriminate]].
  destruct (json_load text) as [v|];
    [|destruct (is_empty _); intros [= <- <-]; split; (reflexivity || discriminate)].
  destruct (orders_of_py v); intros [= <- <-]; split; (reflexivity || discriminate).
Qed.

(** The menu is written and the choice is read. *)
Ltac menu_step :=
  unfold main_iteration; unfold io_bind at 1 2 3 4 5 6 7;
  unfold print at 1 2 3 4 5 6, input at 1, write; cbn [stdin stdout files].

Section Menu.
Context `{PyStr}.

Lemma main_iteration_result (orders output_orders : list Order) (w w' : world)
    (r : outcome (option (list Order * list Order))) :
  main_iteration orders output_orders w = (r, w') ->
  r <> OutOfFuel
  /\ (forall x, r = Return (Some x) -> (length (stdin w') < length (stdin w))%nat)
  /\ (r = Return None ->
      exists line, stdin w = line :: stdin w'
                   /\ (strip line = "" \/ strip line = "4")).
Proof.
  menu_step. destruct (stdin w) as [|line rest] eqn:Hin.
  { intros [= <- <-]. io_close. }
  destruct (String.eqb_spec (strip line) "") as [He|_].
  { intros [= <- <-]. io_close. intros _. exists line. auto. }
  destruct (String.eqb_spec (strip line) "1") as [_|_].
  { unfold io_bind.
    destruct (add_order orders _) as [r1 w1] eqn:Hadd.
    apply add_order_result in Hadd as (Hr & Hlen & _ & _).
    destruct r1 as [[msg orders1]|e| |]; intros [= <- <-]; io_close; congruence. }
  destruct (String.eqb_spec (strip line) "2") as [_|_].
  { unfold io_bind.
    destruct (writes_or_fails_report_turn orders
                (mkWorld rest
                   (((((((stdout w ++ [(LF +:+ "***************選單***************") +:+ LF])
                         ++ ["1. 新增訂單" +:+ LF]) ++ ["2. 顯示訂單報表" +:+ LF])
                       ++ ["3. 出餐處理" +:+ LF]) ++ ["4. 離開" +:+ LF])
                     ++ ["**********************************" +:+ LF])
                    ++ ["請選擇操作項目(Enter 離開)："]) (files w)))
      as [out [-> | ->]]; intros [= <- <-]; io_close. }
  destruct (String.eqb_spec (strip line) "3") as [_|_].
  { unfold io_bind.
    destruct (process_order orders _) as [r1 w1] eqn:Hproc.
    apply process_order_result in Hproc as (Hr & Hlen & _ & _).
    destruct r1 as [[[msg [order|]] orders1]|e| |]; cbn [stdin] in *.
    - unfold print at 1, save_orders, write. cbn [stdin stdout files].
      match goal with |- context [print_order_report ?d ?t ?b ?w0] =>
        destruct (writes_or_fails_report_single order t w0) as [out [-> | ->]] end;
        intros [= <- <-]; io_close.
    - intros [= <- <-]. io_close.
    - intros [= <- <-]. io_close.
    - congruence.
    - intros [= <- <-]. io_close. }
  destruct (String.eqb_spec (strip line) "4") as [He|_].
  { intros [= <- <-]. io_close. intros _. exists line. auto. }
  intros [= <- <-]. io_close.
Qed.


Lemma main_loop_exit (fuel : nat) : forall (orders output_orders : list Order) (w w' : world)
    (final : list Order * list Order),
  main_loop fuel orders output_orders w = (Return final, w') ->
  exists orders1 output1 w1 line,
    main_iteration orders1 output1 w1 = (Return None, w')
    /\ final = (orders1, output1)
    /\ stdin w1 = line :: stdin w'
    /\ (strip line = "" \/ strip line = "4").
Proof.
  induction fuel as [|fuel IH]; intros orders output_orders w w' final; [discriminate|].
  simpl. unfold io_bind.
  destruct (main_iteration orders output_orders w) as [r w1] eqn:Hiter.
  destruct r as [[[orders1 output1]|]|e| |]; try discriminate.
  - apply IH.
  - intros [= <- <-].
    destruct (main_iteration_result _ _ _ _ _ Hiter) as (_ & _ & Hexit).
    destruct (Hexit eq_refl) as (line & Hline & Hchoice).
    exists orders, output_orders, w, line. auto.
Qed.


End Menu.

(** * The claims *)

(** ** The order total *)

Lemma fold_total_shift (l : list Item) (acc : Z) :
  fold_left (fun total item => total + price item * quantity item) l acc
  = acc + sum_of_subtotals l.
Proof.
  revert acc. induction l as [|item rest IH]; intros acc; simpl.
  - lia.
  - rewrite IH. lia.
Qed.

(** C3: the order total is the sum over the items of price times quantity,
    and the order with the items (10, 2) and (5, 3) totals 35. *)
Theorem calculate_order_total_is_sum :
  (forall order : Order,
      calculate_order_total order = sum_of_subtotals (items order))
  /\ (forall id who n1 n2,
        calculate_order_total
          (mkOrder id who [mkItem n1 10 2; mkItem n2 5 3]) = 35).
Proof.
  split.
  - intros order. unfold calculate_order_total.
    rewrite fold_total_shift. lia.
  - intros. reflexivity.
Qed.

(** C10: an order without items still has a total, and it is 0. *)
Theorem calculate_order_total_no_items (order : Order) :
  items order = [] -> calculate_order_total order = 0.
Proof.
  intros Hnil. unfold calculate_order_total. rewrite Hnil. reflexivity.
Qed.

Lemma calculate_order_total_no_items_witness :
  items (mkOrder "A1" "Alice" []) = []
  /\ calculate_order_total (mkOrder "A1" "Alice" []) = 0.
Proof.
  split; [reflexivity|].
  apply (calculate_order_total_no_items (mkOrder "A1" "Alice" [])).
  reflexivity.
Defined.

(** ** Orders as documents *)

Lemma item_of_py_to_py (item : Item) : item_of_py (item_to_py item) = Some item.
Proof. destruct item. reflexivity. Qed.

Lemma items_of_py_to_py (l : list Item) :
  mapM item_of_py (map item_to_py l) = Some l.
Proof.
  apply mapM_Some. induction l as [|item l IH]; simpl; constructor.
  - apply item_of_py_to_py.
  - exact IH.
Qed.

Lemma order_of_py_to_py (order : Order) : order_of_py (order_to_py order) = Some order.
Proof.
  destruct order as [i c its]. unfold order_to_py, order_of_py.
  cbn [String.eqb Ascii.eqb Bool.eqb andb order_id customer items].
  rewrite items_of_py_to_py. reflexivity.
Qed.

Lemma orders_of_py_to_py (orders : list Order) :
  orders_of_py (orders_to_py orders) = Some orders.
Proof.
  unfold orders_of_py, orders_to_py. apply mapM_Some.
  induction orders as [|order l IH]; simpl; constructor.
  - apply order_of_py_to_py.
  - exact IH.
Qed.

(** ** The store *)


(** C6: loading a file that does not exist returns the empty sequence; no
    exception is raised and nothing else changes. *)
Theorem load_missing_file (filename : string) (w : world) :
  files w !! filename = None -> load_data filename w = (Return [], w).
Proof. intros Hmissing. unfold load_data. rewrite Hmissing. reflexivity. Qed.

Lemma load_missing_file_witness :
  files (mkWorld [] [] ∅) !! INPUT_FILE = None
  /\ load_data INPUT_FILE (mkWorld [] [] ∅) = (Return [], mkWorld [] [] ∅).
Proof.
  split; [reflexivity|].
  apply (load_missing_file INPUT_FILE (mkWorld [] [] ∅)). reflexivity.
Defined.

(** ** Fulfilment *)

Section Fulfilment.
Context `{PyStr}.

(** C4: a fulfilment attempt that selects no order (no pending order, an
    empty input, an input that is no number, a number outside 1..length)
    returns a message without an order, leaves the pending sequence as it
    was and touches no file. *)
Theorem process_order_without_selection (orders : list Order) (w : world) :
  (orders = [] ->
   process_order orders w = (Return (MSG_NO_ORDERS, None, orders), w))
  /\ (forall choice rest,
        orders <> [] -> stdin w = choice :: rest ->
        choice = ""
        \/ int choice = None
        \/ (exists n, int choice = Some n /\ (n < 1 \/ Z.of_nat (length orders) < n)) ->
        fst (process_order orders w)
        = Return (if is_empty choice then MSG_CANCEL else MSG_INVALID_NUMBER,
                  None, orders)
        /\ stdin (snd (process_order orders w)) = rest
        /\ files (snd (process_order orders w)) = files w).
Proof.
  split.
  - intros ->. apply process_order_empty.
  - intros choice rest Hne Hin Hcase.
    destruct (string_dec choice "") as [->|Hchoice].
    { destruct (process_order_cancel orders rest w Hne Hin) as [out ->].
      repeat split. }
    rewrite (is_empty_false choice Hchoice).
    destruct Hcase as [Hempty|[Hnone|(n & Hsome & Hrange)]]; [contradiction| |].
    + destruct (process_order_not_a_number orders choice rest w Hne Hin Hchoice Hnone)
        as [out ->].
      repeat split.
    + destruct (process_order_out_of_range orders choice rest n w
                  Hne Hin Hchoice Hsome Hrange) as [out ->].
      repeat split.
Qed.

(** C9: with pending orders, a selection that parses to zero or to a
    negative number returns the invalid-number message and removes nothing:
    the range test keeps a negative index away from [pop]. *)
Theorem process_order_rejects_non_positive (orders : list Order) (choice : string)
    (rest : list string) (n : Z) (w : world) :
  orders <> [] -> stdin w = choice :: rest -> choice <> "" ->
  int choice = Some n -> n <= 0 ->
  fst (process_order orders w) = Return (MSG_INVALID_NUMBER, None, orders).
Proof.
  intros Hne Hin Hchoice Hsome Hn.
  destruct (process_order_out_of_range orders choice rest n w
              Hne Hin Hchoice Hsome) as [out ->]; [lia|].
  reflexivity.
Qed.

End Fulfilment.

Lemma process_order_without_selection_witness :
  let o1 := mkOrder "A1" "Alice" [mkItem "Tea" 50 2] in
  process_order [] (mkWorld [] [] ∅) = (Return (MSG_NO_ORDERS, None, []), mkWorld [] [] ∅)
  /\ fst (process_order [o1] (mkWorld [""] [] ∅)) = Return (MSG_CANCEL, None, [o1])
  /\ fst (process_order [o1] (mkWorld ["abc"] [] ∅)) = Return (MSG_INVALID_NUMBER, None, [o1])
  /\ fst (process_order [o1] (mkWorld ["2"] [] ∅)) = Return (MSG_INVALID_NUMBER, None, [o1]).
Proof.
  intros o1.
  assert ([o1] <> []) as Hne by discriminate.
  split; [|split; [|split]].
  - apply (proj1 (process_order_without_selection [] (mkWorld [] [] ∅))). reflexivity.
  - apply (proj2 (process_order_without_selection [o1] (mkWorld [""] [] ∅))
             "" [] Hne eq_refl). left. reflexivity.
  - apply (proj2 (process_order_without_selection [o1] (mkWorld ["abc"] [] ∅))
             "abc" [] Hne eq_refl). right. left. reflexivity.
  - apply (proj2 (process_order_without_selection [o1] (mkWorld ["2"] [] ∅))
             "2" [] Hne eq_refl). right. right. exists 2. simpl. split; [reflexivity | lia].
Defined.

Lemma process_order_rejects_non_positive_witness :
  let o1 := mkOrder "A1" "Alice" [mkItem "Tea" 50 2] in
  let o2 := mkOrder "B2" "Bob" [mkItem "Cake" 80 1] in
  int "-1" = Some (-1)
  /\ list_pop [o1; o2] (-1 - 1) = Some (o1, [o2])
  /\ fst (process_order [o1; o2] (mkWorld ["-1"] [] ∅))
     = Return (MSG_INVALID_NUMBER, None, [o1; o2]).
Proof.
  intros o1 o2. split; [reflexivity|]. split; [reflexivity|].
  apply (process_order_rejects_non_positive [o1; o2] "-1" [] (-1)
           (mkWorld ["-1"] [] ∅)).
  - discriminate.
  - reflexivity.
  - discriminate.
  - reflexivity.
  - lia.
Defined.

Section FulfilmentInTheLoop.
Context `{PyStr}.

(** The turn of the loop that fulfils an order, in full.  Both files are
    saved before the order is reported; the report, the last step of the
    turn, raises [ValueError] when the order is not printable. *)
Lemma main_iteration_fulfils (pre post : list Order) (order : Order)
    (output_orders : list Order) (line choice : string) (rest : list string)
    (w : world) :
  stdin w = line :: choice :: rest ->
  strip line = "3" ->
  choice <> "" ->
  int choice = Some (Z.of_nat (length pre) + 1) ->
  exists out,
    main_iteration (pre ++ order :: post) output_orders w
    = (if printable_order order
       then Return (Some (pre ++ post, output_orders ++ [order]))
       else Raise ValueError,
       mkWorld rest (stdout w ++ out)
         (<[OUTPUT_FILE := json_dump (orders_to_py (output_orders ++ [order]))]>
            (<[INPUT_FILE := json_dump (orders_to_py (pre ++ post))]> (files w)))).
Proof.
  intros Hin Hstrip Hchoice Hint.
  menu_step. rewrite Hin, Hstrip. cbn [String.eqb Ascii.eqb Bool.eqb].
  unfold io_bind at 1.
  match goal with |- context [process_order _ ?w1] =>
    destruct (process_order_selects pre post order choice rest w1 eq_refl Hchoice Hint)
      as [out ->]
  end.
  unfold io_bind, print at 1, save_orders, write. cbn [stdin stdout files].
  match goal with |- context [print_order_report _ ?t _ ?w1] =>
    destruct (report_single_outcome order t w1) as [out' ->]
  end.
  cbn [stdin stdout files]. rewrite <- !app_assoc.
  match goal with |- context [stdout w ++ ?l] => exists l end.
  destruct (printable_order order); reflexivity.
Qed.

(** C2: a valid 1-based selection takes exactly the selected order out of
    the pending sequence and keeps the others in their order; the order is
    returned with the success message, and the menu loop appends it to the
    fulfilled sequence and saves both sequences, whatever the order.  The
    turn then reports the order and hands back the two sequences; only
    for an order with a number too long to print (more than 4300 digits)
    the report, after the saves, ends the turn with [ValueError].  The
    witness below is the selection of index 1 in a sequence of three
    orders. *)
Theorem fulfil_takes_selected_order (pre post : list Order) (order : Order)
    (output_orders : list Order) (line choice : string) (rest : list string)
    (w : world) :
  stdin w = line :: choice :: rest ->
  strip line = "3" ->
  choice <> "" ->
  int choice = Some (Z.of_nat (length pre) + 1) ->
  (forall w1 rest1, stdin w1 = choice :: rest1 ->
     fst (process_order (pre ++ order :: post) w1)
     = Return ("=> 訂單 " +:+ order_id order +:+ " 已出餐完成", Some order, pre ++ post))
  /\ fst (main_iteration (pre ++ order :: post) output_orders w)
     = (if printable_order order
        then Return (Some (pre ++ post, output_orders ++ [order]))
        else Raise ValueError)
  /\ files (snd (main_iteration (pre ++ order :: post) output_orders w))
     = <[OUTPUT_FILE := json_dump (orders_to_py (output_orders ++ [order]))]>
         (<[INPUT_FILE := json_dump (orders_to_py (pre ++ post))]> (files w)).
Proof.
  intros Hin Hstrip Hchoice Hint. split.
  - intros w1 rest1 Hin1.
    destruct (process_order_selects pre post order choice rest1 w1 Hin1 Hchoice Hint)
      as [out ->].
    reflexivity.
  - destruct (main_iteration_fulfils pre post order output_orders line choice rest w
                Hin Hstrip Hchoice Hint) as [out ->].
    split; reflexivity.
Qed.

End FulfilmentInTheLoop.

Lemma fulfil_takes_selected_order_witness :
  let o1 := mkOrder "A1" "Alice" [mkItem "Tea" 50 2] in
  let o2 := mkOrder "B2" "Bob" [mkItem "Cake" 80 1] in
  let o3 := mkOrder "C3" "Carol" [mkItem "Pie" 60 3] in
  fst (process_order [o1; o2; o3] (mkWorld ["1"] [] ∅))
  = Return ("=> 訂單 " +:+ "A1" +:+ " 已出餐完成", Some o1, [o2; o3])
  /\ fst (main_iteration [o1; o2; o3] [] (mkWorld ["3"; "1"] [] ∅))
     = Return (Some ([o2; o3], [o1])).
Proof.
  intros o1 o2 o3.
  pose proof (fulfil_takes_selected_order [] [o2; o3] o1 [] "3" "1" []
                (mkWorld ["3"; "1"] [] ∅) eq_refl eq_refl
                ltac:(discriminate) eq_refl) as (Hprocess & Hloop & _).
  split.
  - apply (Hprocess (mkWorld ["1"] [] ∅) []). reflexivity.
  - exact Hloop.
Defined.

(** ** Adding an order *)

Section Adding.
Context `{PyStr}.

Lemma existsb_order_id (orders : list Order) (id : string) :
  existsb (fun order => String.eqb (order_id order) id) orders = true
  <-> id ∈ ids orders.
Proof.
  unfold ids. rewrite existsb_exists, list_elem_of_fmap. split.
  - intros (order & Hin & Heq). exists order.
    apply String.eqb_eq in Heq. rewrite list_elem_of_In. auto.
  - intros (order & -> & Hin). exists order.
    rewrite <- list_elem_of_In, String.eqb_refl. auto.
Qed.

(** C1: ids are upper-cased when they are stored, and an input that names
    the id of a pending order, whatever the case of its letters, is
    rejected: [add_order] returns the duplicate-id message as a value, the
    pending sequence is unchanged, only the first prompt was answered and
    no file is touched.  The pending id is the upper-cased form of a text
    [stored] (the line it was entered with, or the id itself when it is in
    upper case already), and the input is equal to that text up to case.
    The second part is where the premise comes from: an order that
    [add_order] appends has the upper-cased form of a text as its id. *)
Theorem add_order_rejects_used_id (orders : list Order) (order : Order)
    (stored line : string) (rest : list string) (w : world) :
  stdin w = line :: rest ->
  order ∈ orders ->
  order_id order = upper stored ->
  upper line = upper stored ->
  add_order orders w =
  (Return ("=> 錯誤：訂單編號 " +:+ upper line +:+ " 已存在！", orders),
   mkWorld rest (stdout w ++ ["請輸入訂單編號："]) (files w))
  /\ forall w1 msg orders' w1',
       add_order orders w1 = (Return (msg, orders'), w1') ->
       orders' = orders
       \/ exists new entered, orders' = orders ++ [new] /\ order_id new = upper entered.
Proof.
  intros Hin Hmem Hstored Hsame. split.
  - apply add_order_duplicate; [exact Hin|].
    apply existsb_order_id. rewrite Hsame, <- Hstored. unfold ids.
    apply list_elem_of_fmap_2. exact Hmem.
  - intros w1 msg orders' w1' Hadd.
    apply add_order_result in Hadd as (_ & _ & _ & Hshape).
    destruct (Hshape msg orders' eq_refl)
      as [->|(entered & cust & its & -> & _)]; [left; reflexivity | right].
    exists (mkOrder (upper entered) cust its), entered. split; reflexivity.
Qed.

Lemma add_order_keeps_distinct (orders orders' : list Order) (msg : string)
    (w w' : world) :
  NoDup (ids orders) ->
  add_order orders w = (Return (msg, orders'), w') ->
  NoDup (ids orders').
Proof.
  intros Hdistinct Hadd.
  apply add_order_result in Hadd as (_ & _ & _ & Hshape).
  destruct (Hshape msg orders' eq_refl)
    as [->|(line & cust & its & -> & _ & Hfresh)]; [exact Hdistinct|].
  unfold ids. rewrite fmap_app. apply NoDup_app. repeat split.
  - exact Hdistinct.
  - intros id Hid Hnew. apply list_elem_of_singleton in Hnew. simpl in Hnew. subst id.
    apply existsb_order_id in Hid. congruence.
  - apply NoDup_singleton.
Qed.

Lemma process_order_keeps_distinct (orders orders' : list Order) (msg : string)
    (completed : option Order) (w w' : world) :
  NoDup (ids orders) ->
  process_order orders w = (Return (msg, completed, orders'), w') ->
  NoDup (ids orders').
Proof.
  intros Hdistinct Hprocess.
  apply process_order_result in Hprocess as (_ & _ & _ & Hshape).
  destruct (Hshape msg completed orders' eq_refl)
    as [[_ ->]|(pre & post & order & _ & -> & ->)]; [exact Hdistinct|].
  unfold ids in *. rewrite fmap_app in *. simpl in Hdistinct.
  apply NoDup_app in Hdistinct as (Hpre & Hdisjoint & Hpost).
  apply NoDup_cons in Hpost as [_ Hpost].
  apply NoDup_app. repeat split; [exact Hpre | | exact Hpost].
  intros id Hid Hin. apply (Hdisjoint id Hid). right. exact Hin.
Qed.

(** C7: pairwise-distinct order ids are an invariant of the pending
    sequence: they stay pairwise distinct after any add (which refuses an id
    that is present) and after any fulfilment (which only removes). *)
Theorem distinct_ids_invariant (orders : list Order) :
  NoDup (ids orders) ->
  (forall w msg orders' w',
      add_order orders w = (Return (msg, orders'), w') -> NoDup (ids orders'))
  /\ (forall w msg completed orders' w',
        process_order orders w = (Return (msg, completed, orders'), w') ->
        NoDup (ids orders')).
Proof.
  intros Hdistinct. split.
  - intros w msg orders' w'. apply add_order_keeps_distinct. exact Hdistinct.
  - intros w msg completed orders' w'. apply process_order_keeps_distinct.
    exact Hdistinct.
Qed.

End Adding.

Lemma add_order_rejects_used_id_witness :
  let pending := [mkOrder "A1" "Ann" [mkItem "Tea" 50 2]] in
  let w := mkWorld ["a1"; "Bob"] [] ∅ in
  add_order pending w
  = (Return ("=> 錯誤：訂單編號 " +:+ "A1" +:+ " 已存在！", pending),
     mkWorld ["Bob"] ["請輸入訂單編號："] ∅)
  /\ fst (add_order pending (mkWorld ["A1"; "Bob"] [] ∅))
     = Return ("=> 錯誤：訂單編號 " +:+ "A1" +:+ " 已存在！", pending).
Proof.
  intros pending w.
  assert (mkOrder "A1" "Ann" [mkItem "Tea" 50 2] ∈ pending) as Hmem
    by apply list_elem_of_here.
  destruct (add_order_rejects_used_id pending (mkOrder "A1" "Ann" [mkItem "Tea" 50 2])
              "A1" "a1" ["Bob"] w)
    as [Hlower _]; [reflexivity | exact Hmem | reflexivity | reflexivity |].
  destruct (add_order_rejects_used_id pending (mkOrder "A1" "Ann" [mkItem "Tea" 50 2])
              "a1" "A1" ["Bob"]
              (mkWorld ["A1"; "Bob"] [] ∅))
    as [Hupper _]; [reflexivity | exact Hmem | reflexivity | reflexivity |].
  split; [exact Hlower | rewrite Hupper; reflexivity].
Defined.

Lemma distinct_ids_invariant_witness :
  let o1 := mkOrder "A1" "Alice" [mkItem "Tea" 50 2] in
  let o2 := mkOrder "B2" "Bob" [mkItem "Cake" 80 1] in
  let o3 := mkOrder "C3" "Carol" [mkItem "Pie" 60 3] in
  let adding := mkWorld ["c3"; "Carol"; "Pie"; "60"; "3"; ""] [] ∅ in
  let fulfilling := mkWorld ["1"] [] ∅ in
  NoDup (ids [o1; o2])
  /\ fst (add_order [o1; o2] adding)
     = Return ("=> 訂單 " +:+ "C3" +:+ " 已新增！", [o1; o2; o3])
  /\ NoDup (ids [o1; o2; o3])
  /\ fst (process_order [o1; o2] fulfilling)
     = Return ("=> 訂單 " +:+ "A1" +:+ " 已出餐完成", Some o1, [o2])
  /\ NoDup (ids [o2]).
Proof.
  intros o1 o2 o3 adding fulfilling.
  assert (NoDup (ids [o1; o2])) as Hdistinct.
  { unfold ids. apply (bool_decide_unpack _). vm_compute. exact I. }
  destruct (distinct_ids_invariant [o1; o2] Hdistinct) as [Hadd Hprocess].
  split; [exact Hdistinct|]. split; [vm_compute; reflexivity|]. split.
  - eapply (Hadd adding). vm_compute. reflexivity.
  - split; [vm_compute; reflexivity|].
    eapply (Hprocess fulfilling). vm_compute. reflexivity.
Defined.

(** ** The menu *)

Section MenuChoice.
Context `{PyStr}.

Lemma main_iteration_exits (orders output_orders : list Order) (line : string)
    (rest : list string) (w : world) :
  stdin w = line :: rest ->
  strip line = "" \/ strip line = "4" ->
  fst (main_iteration orders output_orders w) = Return None.
Proof.
  intros Hin Hchoice. menu_step. rewrite Hin.
  destruct Hchoice as [-> | ->]; cbn [String.eqb Ascii.eqb Bool.eqb]; reflexivity.
Qed.

Lemma main_iteration_invalid_option (orders output_orders : list Order)
    (line : string) (rest : list string) (w : world) :
  stdin w = line :: rest ->
  strip line ∉ [""; "1"; "2"; "3"; "4"] ->
  exists out,
    main_iteration orders output_orders w
    = (Return (Some (orders, output_orders)),
       mkWorld rest (stdout w ++ out ++ ["=> 請輸入有效的選項（1-4）" +:+ LF])
         (files w)).
Proof.
  intros Hin Hother. menu_step. rewrite Hin.
  assert (forall s, s ∈ [""; "1"; "2"; "3"; "4"] -> String.eqb (strip line) s = false)
    as Hneq.
  { intros s Hs. apply String.eqb_neq. intros Heq. apply Hother. rewrite Heq. exact Hs. }
  rewrite !Hneq by (rewrite !elem_of_cons; auto 10).
  unfold io_bind, print, io_ret, write. cbn [stdin stdout files].
  rewrite <- !app_assoc.
  match goal with
  | |- context [stdout w ++ [?a] ++ [?b] ++ [?c] ++ [?d] ++ [?e] ++ [?f] ++ [?g] ++ [_]] =>
      exists [a; b; c; d; e; f; g]
  end.
  reflexivity.
Qed.

(** C8 (amended): the loop leaves through Exit exactly when the input,
    with the white space around it stripped, is empty or 4; when the
    stripped input is none of the empty text, 1, 2, 3 and 4 the turn prints
    the invalid-option message and stays in the menu with both sequences
    and all files as they were; and the loop returns only through Exit. *)
Theorem menu_exit_on_stripped_choice (orders output_orders : list Order)
    (line : string) (rest : list string) (w : world) :
  stdin w = line :: rest ->
  (fst (main_iteration orders output_orders w) = Return None
   <-> strip line = "" \/ strip line = "4")
  /\ (strip line ∉ [""; "1"; "2"; "3"; "4"] ->
      exists out,
        main_iteration orders output_orders w
        = (Return (Some (orders, output_orders)),
           mkWorld rest (stdout w ++ out ++ ["=> 請輸入有效的選項（1-4）" +:+ LF])
             (files w)))
  /\ (forall fuel final w',
        main_loop fuel orders output_orders w = (Return final, w') ->
        exists orders1 output1 w1 last,
          main_iteration orders1 output1 w1 = (Return None, w')
          /\ final = (orders1, output1)
          /\ stdin w1 = last :: stdin w'
          /\ (strip last = "" \/ strip last = "4")).
Proof.
  intros Hin. split; [split|split].
  - intros Hexit.
    destruct (main_iteration orders output_orders w) as [r w'] eqn:Hrun.
    simpl in Hexit. subst r.
    apply main_iteration_result in Hrun as (_ & _ & Hnone).
    destruct (Hnone eq_refl) as (line' & Hline & Hchoice).
    rewrite Hin in Hline. injection Hline as <- _. exact Hchoice.
  - apply main_iteration_exits with (rest := rest). exact Hin.
  - apply main_iteration_invalid_option. exact Hin.
  - intros fuel final w'. apply main_loop_exit.
Qed.

End MenuChoice.

(** C8, as stated, fails on an input with white space around it: the line
    made of a space and 4 is neither empty nor 4, and the loop exits on
    it. *)
Lemma menu_exit_counterexample :
  " 4" <> "" /\ " 4" <> "4"
  /\ fst (main_iteration [] [] (mkWorld [" 4"] [] ∅)) = Return None.
Proof. split; [discriminate|]. split; [discriminate|]. vm_compute. reflexivity. Qed.

Lemma menu_exit_on_stripped_choice_witness :
  (fst (main_iteration [] [] (mkWorld [" 4 "] [] ∅)) = Return None
   <-> strip " 4 " = "" \/ strip " 4 " = "4")
  /\ fst (main_iteration [] [] (mkWorld ["9"] [] ∅)) = Return (Some ([], [])).
Proof.
  split.
  - apply (menu_exit_on_stripped_choice [] [] " 4 " [] (mkWorld [" 4 "] [] ∅) eq_refl).
  - destruct (proj1 (proj2 (menu_exit_on_stripped_choice [] [] "9" []
                              (mkWorld ["9"] [] ∅) eq_refl))) as [out ->].
    + change (strip "9") with "9". rewrite !elem_of_cons, elem_of_nil.
      intros [|[|[|[|[|[]]]]]]; discriminate.
    + reflexivity.
Defined.

(** ** A whole run *)

(** The scenario of the specification: from empty files, order A1 of Alice
    with two teas at 50 is added and then fulfilled; the pending sequence
    ends empty, the fulfilled one holds the order, and both files say so. *)
Example end_to_end_scenario :
  let a1 := mkOrder "A1" "Alice" [mkItem "Tea" 50 2] in
  let w := mkWorld ["1"; "A1"; "Alice"; "Tea"; "50"; "2"; ""; "3"; "1"; "4"] [] ∅ in
  fst (main w) = Return ([], [a1])
  /\ calculate_order_total a1 = 100
  /\ load_data INPUT_FILE (snd (main w)) = (Return [], snd (main w))
  /\ load_data OUTPUT_FILE (snd (main w)) = (Return [a1], snd (main w)).
Proof. vm_compute. repeat split. Qed.

(** * Further properties *)

(** ** The items of an order *)

Section Items.
Context `{PyStr}.

Lemma is_empty_true_inv (s : string) : is_empty s = true -> s = "".
Proof. destruct s; [reflexivity | discriminate]. Qed.

Lemma add_order_items_valid (fuel : nat) : forall (acc its : list Item) (w w' : world),
  add_order_items fuel acc w = (Return its, w') ->
  Forall valid_item acc -> Forall valid_item its.
Proof.
  induction fuel as [|fuel IH]; intros acc its w w'; [discriminate|].
  simpl. unfold io_bind, input, print, write.
  destruct w as [[|n r1] out fs]; cbn [stdin stdout files]; [discriminate|].
  destruct (is_empty n) eqn:Hn; [intros [= <- <-]; auto|].
  destruct r1 as [|p r2]; cbn [stdin stdout files]; [discriminate|].
  destruct (int p) as [pr|]; [|apply IH].
  destruct (Z.ltb_spec pr 0) as [Hneg|Hpos]; [apply IH|].
  destruct r2 as [|q r3]; cbn [stdin stdout files]; [discriminate|].
  destruct (int q) as [qu|]; [|apply IH].
  destruct (Z.leb_spec qu 0) as [Hle|Hgt]; [apply IH|].
  intros Hrun Hacc. apply (IH _ _ _ _ Hrun).
  apply Forall_app. split; [exact Hacc|]. constructor; [|constructor].
  repeat split; simpl; [|assumption..].
  intros ->. discriminate.
Qed.

Lemma add_order_items_records (attempts : list (list string * option Item)) :
  Forall (fun a => attempt (fst a) (snd a)) attempts ->
  forall (fuel : nat) (acc : list Item) (rest : list string) (w : world),
    stdin w = concat (map fst attempts) ++ "" :: rest ->
    (length (stdin w) < fuel)%nat ->
    exists out,
      add_order_items fuel acc w =
      (Return (acc ++ omap snd attempts), mkWorld rest (stdout w ++ out) (files w)).
Proof.
  induction 1 as [|[lines result] attempts Ha Hrest IH]; intros fuel acc rest w Hin Hfuel.
  - destruct fuel as [|fuel]; [lia|]. simpl in Hin |- *.
    unfold io_bind, input. rewrite Hin. cbn [is_empty]. unfold io_ret.
    eexists. rewrite app_nil_r. reflexivity.
  - destruct fuel as [|fuel]; [lia|].
    cbn [fst snd] in Ha. cbn [map concat fst] in Hin.
    assert (forall w1 acc1,
              stdin w1 = concat (map fst attempts) ++ "" :: rest ->
              files w1 = files w ->
              (length (stdin w1) < length (stdin w))%nat ->
              (exists out1, stdout w1 = stdout w ++ out1) ->
              exists out,
                add_order_items fuel acc1 w1 =
                (Return (acc1 ++ omap snd attempts),
                 mkWorld rest (stdout w ++ out) (files w))) as Hnext.
    { intros w1 acc1 Hin1 Hfs Hlen [out1 Hout1].
      destruct (IH fuel acc1 rest w1 Hin1) as [out ->]; [lia|].
      exists (out1 ++ out). rewrite Hout1, Hfs, app_assoc. reflexivity. }
    simpl add_order_items. unfold io_bind, input, print, write.
    destruct w as [ins out fs]. cbn [stdin stdout files] in *. subst ins.
    inversion Ha as [n p q pr qu Hn Hp Hpr Hq Hqu
                    |n p Hn Hp|n p pr Hn Hp Hpr
                    |n p q pr Hn Hp Hpr Hq|n p q pr qu Hn Hp Hpr Hq Hqu];
      subst; cbn [app snd stdin stdout files];
      try change (omap snd ((?l, None) :: attempts)) with (omap snd attempts);
      rewrite (is_empty_false n Hn); cbn [app stdin stdout files]; rewrite Hp.
    + destruct (Z.ltb_spec pr 0); [lia|]. cbn [stdin stdout files]. rewrite Hq.
      destruct (Z.leb_spec qu 0); [lia|].
      change (omap snd ((?l, Some ?it) :: attempts)) with (it :: omap snd attempts).
      match goal with
      | |- context [acc ++ ?it :: omap snd attempts] =>
          replace (acc ++ it :: omap snd attempts)
            with ((acc ++ [it]) ++ omap snd attempts)
            by (rewrite <- app_assoc; reflexivity)
      end.
      apply Hnext; cbn [stdin stdout files]; [reflexivity | reflexivity | simpl; lia |].
      rewrite <- ?app_assoc. eexists. reflexivity.
    + apply Hnext; cbn [stdin stdout files]; [reflexivity | reflexivity | simpl; lia |].
      rewrite <- ?app_assoc. eexists. reflexivity.
    + destruct (Z.ltb_spec pr 0); [|lia].
      apply Hnext; cbn [stdin stdout files]; [reflexivity | reflexivity | simpl; lia |].
      rewrite <- ?app_assoc. eexists. reflexivity.
    + destruct (Z.ltb_spec pr 0); [lia|]. cbn [stdin stdout files]. rewrite Hq.
      apply Hnext; cbn [stdin stdout files]; [reflexivity | reflexivity | simpl; lia |].
      rewrite <- ?app_assoc. eexists. reflexivity.
    + destruct (Z.ltb_spec pr 0); [lia|]. cbn [stdin stdout files]. rewrite Hq.
      destruct (Z.leb_spec qu 0); [|lia].
      apply Hnext; cbn [stdin stdout files]; [reflexivity | reflexivity | simpl; lia |].
      rewrite <- ?app_assoc. eexists. reflexivity.
Qed.

Lemma existsb_order_id_false (orders : list Order) (id : string) :
  id ∉ ids orders ->
  existsb (fun order => String.eqb (order_id order) id) orders = false.
Proof.
  intros Hfresh. destruct (existsb _ orders) eqn:Hdup; [|reflexivity].
  exfalso. apply Hfresh. apply existsb_order_id. exact Hdup.
Qed.

(** X1: given an id that is new, a customer name and a series of item
    attempts closed by an empty name, [add_order] records exactly the items
    of the attempts that pass (a price that is an integer not below zero,
    a quantity that is an integer above zero), in the order they were
    entered; when none passes it refuses the order and leaves the sequence
    as it is.  It reads these lines and no more, and touches no file. *)
Theorem add_order_records_attempts (orders : list Order) (line who : string)
    (attempts : list (list string * option Item)) (rest : list string) (w : world) :
  stdin w = line :: who :: concat (map fst attempts) ++ "" :: rest ->
  upper line ∉ ids orders ->
  Forall (fun a => attempt (fst a) (snd a)) attempts ->
  fst (add_order orders w)
  = Return (if bool_decide (omap snd attempts = [])
            then ("=> 至少需要一個訂單項目", orders)
            else ("=> 訂單 " +:+ upper line +:+ " 已新增！",
                  orders ++ [mkOrder (upper line) who (omap snd attempts)]))
  /\ stdin (snd (add_order orders w)) = rest
  /\ files (snd (add_order orders w)) = files w.
Proof.
  intros Hin Hfresh Hattempts.
  unfold add_order, io_bind, input, lines_left, write. rewrite Hin.
  rewrite (existsb_order_id_false orders (upper line) Hfresh).
  cbn [stdin stdout files].
  edestruct (add_order_items_records attempts Hattempts
               (S (length (concat (map fst attempts) ++ "" :: rest))) [] rest)
    as [out ->]; [reflexivity | cbn [stdin]; lia |].
  cbn [app]. destruct (bool_decide (omap snd attempts = [])); repeat split.
Qed.

(** What [add_order] can do to the pending sequence. *)
Lemma add_order_cases (orders orders' : list Order) (msg : string) (w w' : world) :
  add_order orders w = (Return (msg, orders'), w') ->
  orders' = orders
  \/ exists line rest0 who its,
       stdin w = line :: rest0
       /\ orders' = orders ++ [mkOrder (upper line) who its]
       /\ msg = ("=> 訂單 " +:+ (upper line +:+ " 已新增！"))
       /\ (upper line ∉ ids orders)
       /\ its <> [] /\ Forall valid_item its.
Proof.
  unfold add_order, io_bind, input, lines_left, write.
  destruct w as [[|line r1] out fs]; cbn [stdin stdout files]; [discriminate|].
  destruct (existsb _ orders) eqn:Hdup; [intros [= _ <- _]; left; reflexivity|].
  destruct r1 as [|who r2]; cbn [stdin stdout files]; [discriminate|].
  destruct (add_order_items _ _ _) as [[its|e| |] w1] eqn:Hitems; try discriminate.
  destruct (bool_decide (its = [])) eqn:Hits; intros [= <- <- <-];
    [left; reflexivity|].
  right. exists line, (who :: r2), who, its.
  do 3 (split; [reflexivity|]). split; [|split].
  - intros Hin. apply existsb_order_id in Hin. congruence.
  - apply bool_decide_eq_false in Hits. exact Hits.
  - apply (add_order_items_valid _ _ _ _ _ Hitems). constructor.
Qed.

(** X2: [add_order] leaves the pending sequence as it is or appends one
    order to it, and then the order is valid, its id is new and the
    message names it. *)
Theorem add_order_appends_valid_order (orders orders' : list Order) (msg : string)
    (w w' : world) :
  add_order orders w = (Return (msg, orders'), w') ->
  orders' = orders
  \/ exists order,
       orders' = orders ++ [order]
       /\ valid_order order
       /\ (order_id order ∉ ids orders)
       /\ msg = ("=> 訂單 " +:+ order_id order +:+ " 已新增！").
Proof.
  intros Hadd.
  destruct (add_order_cases _ _ _ _ _ Hadd)
    as [->|(line & rest & who & its & _ & -> & -> & Hfresh & Hits & Hvalid)];
    [left; reflexivity | right].
  exists (mkOrder (upper line) who its).
  split; [reflexivity|]. split; [split; assumption|]. split; [exact Hfresh|].
  reflexivity.
Qed.

(** X3: an id that [add_order] has stored is refused afterwards in every
    letter case. *)
Theorem add_order_then_same_id (orders orders' : list Order) (msg : string)
    (line line2 : string) (rest rest2 : list string) (w w' w2 : world) :
  stdin w = line :: rest ->
  add_order orders w = (Return (msg, orders'), w') ->
  orders' <> orders ->
  stdin w2 = line2 :: rest2 ->
  upper line2 = upper line ->
  add_order orders' w2 =
  (Return ("=> 錯誤：訂單編號 " +:+ upper line2 +:+ " 已存在！", orders'),
   mkWorld rest2 (stdout w2 ++ ["請輸入訂單編號："]) (files w2)).
Proof.
  intros Hin Hadd Hchanged Hin2 Hsame.
  destruct (add_order_cases _ _ _ _ _ Hadd)
    as [->|(line' & rest' & who & its & Hin' & -> & _)]; [contradiction|].
  rewrite Hin in Hin'. injection Hin' as <- <-.
  apply add_order_duplicate; [exact Hin2|].
  apply existsb_order_id. rewrite Hsame. unfold ids. rewrite fmap_app.
  apply elem_of_app. right. apply list_elem_of_here.
Qed.
End Items.

Lemma add_order_records_attempts_witness :
  let pending := [mkOrder "B2" "Bob" [mkItem "Cake" 80 1]] in
  let w := mkWorld ["a1"; "Alice"; "Tea"; "50"; "2"; "Pie"; "x";
                    "Jam"; "-1"; "Nut"; "5"; "0"; ""; "4"] [] ∅ in
  fst (add_order pending w)
  = Return ("=> 訂單 A1 已新增！",
            pending ++ [mkOrder "A1" "Alice" [mkItem "Tea" 50 2]])
  /\ stdin (snd (add_order pending w)) = ["4"]
  /\ files (snd (add_order pending w)) = ∅.
Proof.
  intros pending w.
  refine (add_order_records_attempts pending "a1" "Alice"
            [(["Tea"; "50"; "2"], Some (mkItem "Tea" 50 2));
             (["Pie"; "x"], None);
             (["Jam"; "-1"], None);
             (["Nut"; "5"; "0"], None)] ["4"] w _ _ _).
  - reflexivity.
  - unfold ids. apply (bool_decide_unpack _). vm_compute. exact I.
  - constructor; [cbn [fst snd]|constructor; [cbn [fst snd]|constructor;
      [cbn [fst snd]|constructor; [cbn [fst snd]|constructor]]]].
    + apply (attempt_recorded "Tea" "50" "2" 50 2);
        [discriminate | reflexivity | lia | reflexivity | lia].
    + apply (attempt_price_not_int "Pie" "x"); [discriminate | reflexivity].
    + apply (attempt_price_negative "Jam" "-1" (-1));
        [discriminate | reflexivity | lia].
    + apply (attempt_quantity_not_positive "Nut" "5" "0" 5 0);
        [discriminate | reflexivity | lia | reflexivity | lia].
Defined.

Lemma add_order_appends_valid_order_witness :
  let a1 := mkOrder "A1" "Alice" [mkItem "Tea" 50 2] in
  let w := mkWorld ["a1"; "Alice"; "Tea"; "50"; "2"; ""] [] ∅ in
  fst (add_order [] w) = Return ("=> 訂單 A1 已新增！", [a1])
  /\ ([a1] = []
      \/ exists order,
           [a1] = [] ++ [order]
           /\ valid_order order
           /\ (order_id order ∉ ids [])
           /\ "=> 訂單 A1 已新增！" = ("=> 訂單 " +:+ order_id order +:+ " 已新增！")).
Proof.
  intros a1 w. split; [vm_compute; reflexivity|].
  refine (add_order_appends_valid_order [] [a1] "=> 訂單 A1 已新增！" w
            (snd (add_order [] w)) _).
  vm_compute. reflexivity.
Defined.

Lemma add_order_then_same_id_witness :
  let a1 := mkOrder "A1" "Alice" [mkItem "Tea" 50 2] in
  let w := mkWorld ["a1"; "Alice"; "Tea"; "50"; "2"; ""] [] ∅ in
  let w2 := mkWorld ["A1"; "Bob"] [] ∅ in
  fst (add_order [] w) = Return ("=> 訂單 A1 已新增！", [a1])
  /\ add_order [a1] w2
     = (Return ("=> 錯誤：訂單編號 " +:+ upper "A1" +:+ " 已存在！", [a1]),
        mkWorld ["Bob"] (stdout w2 ++ ["請輸入訂單編號："]) (files w2)).
Proof.
  intros a1 w w2. split; [vm_compute; reflexivity|].
  refine (add_order_then_same_id [] [a1] "=> 訂單 A1 已新增！" "a1" "A1"
            ["Alice"; "Tea"; "50"; "2"; ""] ["Bob"] w (snd (add_order [] w)) w2
            _ _ _ _ _).
  - reflexivity.
  - vm_compute. reflexivity.
  - discriminate.
  - reflexivity.
  - reflexivity.
Defined.

(** ** Totals *)

Lemma sum_of_subtotals_perm (l1 l2 : list Item) :
  l1 ≡ₚ l2 -> sum_of_subtotals l1 = sum_of_subtotals l2.
Proof. induction 1; simpl; lia. Qed.

(** X4: the total does not depend on the order of the items. *)
Theorem calculate_order_total_perm (o1 o2 : Order) :
  items o1 ≡ₚ items o2 -> calculate_order_total o1 = calculate_order_total o2.
Proof.
  intros Hperm. unfold calculate_order_total.
  rewrite !fold_total_shift. rewrite (sum_of_subtotals_perm _ _ Hperm). reflexivity.
Qed.

Lemma calculate_order_total_perm_witness :
  calculate_order_total (mkOrder "A1" "Alice" [mkItem "Tea" 50 2; mkItem "Pie" 60 3])
  = calculate_order_total (mkOrder "A1" "Alice" [mkItem "Pie" 60 3; mkItem "Tea" 50 2]).
Proof.
  apply (calculate_order_total_perm
           (mkOrder "A1" "Alice" [mkItem "Tea" 50 2; mkItem "Pie" 60 3])
           (mkOrder "A1" "Alice" [mkItem "Pie" 60 3; mkItem "Tea" 50 2])).
  apply Permutation_swap.
Defined.

Lemma sum_of_subtotals_nonneg (l : list Item) :
  Forall valid_item l -> 0 <= sum_of_subtotals l.
Proof.
  induction 1 as [|item l (_ & Hp & Hq) _ IH]; simpl; [lia|]. nia.
Qed.

(** X5: an order whose items are valid has a non-negative total, and a
    positive one when an item has a positive price. *)
Theorem calculate_order_total_valid (order : Order) :
  Forall valid_item (items order) ->
  0 <= calculate_order_total order
  /\ (forall item, item ∈ items order -> 0 < price item ->
      0 < calculate_order_total order).
Proof.
  intros Hvalid. unfold calculate_order_total. rewrite fold_total_shift.
  split; [pose proof (sum_of_subtotals_nonneg _ Hvalid); lia|].
  intros item Hin Hprice.
  apply list_elem_of_split in Hin as (l1 & l2 & Heq). rewrite Heq in Hvalid |- *.
  apply Forall_app in Hvalid as [H1 H2]. apply Forall_cons in H2 as [(_ & _ & Hq) H2].
  rewrite (sum_of_subtotals_perm (l1 ++ item :: l2) (item :: l1 ++ l2))
    by (symmetry; apply Permutation_middle).
  simpl. pose proof (sum_of_subtotals_nonneg _ (proj2 (Forall_app _ _ _) (conj H1 H2))).
  nia.
Qed.

Lemma calculate_order_total_valid_witness :
  let a1 := mkOrder "A1" "Alice" [mkItem "Water" 0 1; mkItem "Tea" 50 2] in
  0 <= calculate_order_total a1 /\ 0 < calculate_order_total a1.
Proof.
  intros a1.
  assert (Forall valid_item (items a1)) as Hvalid.
  { repeat constructor; simpl; try discriminate; lia. }
  destruct (calculate_order_total_valid a1 Hvalid) as [Hnonneg Hpos].
  split; [exact Hnonneg|].
  apply (Hpos (mkItem "Tea" 50 2)); [|simpl; lia].
  simpl. apply list_elem_of_further, list_elem_of_here.
Defined.

(** ** Fulfilment, read backwards *)

Lemma list_pop_in_range {A} (l l' : list A) (i : Z) (x : A) :
  0 <= i -> list_pop l i = Some (x, l') ->
  l !! Z.to_nat i = Some x /\ l' = delete (Z.to_nat i) l.
Proof.
  intros Hi. unfold list_pop.
  destruct (Z.ltb_spec i 0) as [|_]; [lia|].
  destruct (_ || _); [discriminate|].
  destruct (l !! Z.to_nat i) as [y|]; [|discriminate].
  intros [= -> <-]. split; reflexivity.
Qed.

Section Backwards.
Context `{PyStr}.

(** X6: [process_order] hands out an order only when the line it read is
    not empty and is a number n within 1..length; the order is then the one
    at position n, the sequence that is left is the sequence without that
    position, the message names the order and no file is touched. *)
Theorem process_order_hands_out (orders orders' : list Order) (order : Order)
    (msg : string) (w w' : world) :
  process_order orders w = (Return (msg, Some order, orders'), w') ->
  exists choice n,
    stdin w = choice :: stdin w'
    /\ choice <> ""
    /\ int choice = Some n
    /\ 1 <= n <= Z.of_nat (length orders)
    /\ orders !! Z.to_nat (n - 1) = Some order
    /\ orders' = delete (Z.to_nat (n - 1)) orders
    /\ msg = ("=> 訂單 " +:+ order_id order +:+ " 已出餐完成")
    /\ files w' = files w.
Proof.
  destruct orders as [|o1 os].
  { rewrite process_order_empty. discriminate. }
  destruct (process_order_listing (o1 :: os) w) as [out ->]; [discriminate|].
  unfold io_bind, input, write. cbn [stdin stdout files].
  destruct (stdin w) as [|choice rest]; [discriminate|].
  destruct (is_empty choice) eqn:Hempty; [discriminate|].
  destruct (int choice) as [n|] eqn:Hint; [|discriminate].
  destruct (Z.leb_spec 0 (n - 1)) as [Hlo|]; [|discriminate].
  destruct (Z.ltb_spec (n - 1) (Z.of_nat (length (o1 :: os)))) as [Hhi|]; [|discriminate].
  cbn [andb].
  destruct (list_pop _ _) as [[order1 orders1]|] eqn:Hpop; [|discriminate].
  intros [= <- <- <- <-].
  destruct (list_pop_in_range _ _ _ _ Hlo Hpop) as [Hlookup Hdelete].
  exists choice, n. cbn [stdin files].
  split; [reflexivity|]. split; [intros ->; discriminate|].
  split; [exact Hint|]. split; [lia|].
  split; [exact Hlookup|]. split; [exact Hdelete|]. split; reflexivity.
Qed.

(** X7: at the end of the input every prompt raises [EOFError]: the menu,
    the order id of [add_order], the selection of [process_order] on a
    sequence that is not empty.  The turn of the menu saves nothing. *)
Theorem end_of_input_raises (orders output_orders : list Order) (w : world) :
  stdin w = [] ->
  fst (main_iteration orders output_orders w) = Raise EOFError
  /\ files (snd (main_iteration orders output_orders w)) = files w
  /\ fst (add_order orders w) = Raise EOFError
  /\ (orders <> [] -> fst (process_order orders w) = Raise EOFError).
Proof.
  intros Hin. split; [|split; [|split]].
  - menu_step. rewrite Hin. reflexivity.
  - menu_step. rewrite Hin. reflexivity.
  - unfold add_order, io_bind, input. rewrite Hin. reflexivity.
  - intros Hne. destruct (process_order_listing orders w Hne) as [out ->].
    unfold io_bind, input. cbn [stdin]. rewrite Hin. reflexivity.
Qed.

(** X8: the report of the menu (choice 2) reads the choice and nothing
    else and leaves every file as it was.  It hands back both sequences
    as they were when every pending order is printable (none has a price,
    a quantity, a subtotal or a total of more than 4300 digits); otherwise
    the report raises [ValueError], and the files still are as they
    were. *)
Theorem report_turn_changes_nothing (orders output_orders : list Order)
    (line : string) (rest : list string) (w : world) :
  stdin w = line :: rest -> strip line = "2" ->
  exists out,
    main_iteration orders output_orders w
    = (if forallb printable_order orders
       then Return (Some (orders, output_orders))
       else Raise ValueError,
       mkWorld rest (stdout w ++ out) (files w)).
Proof.
  intros Hin Hstrip. menu_step. rewrite Hin, Hstrip.
  cbn [String.eqb Ascii.eqb Bool.eqb]. unfold io_bind.
  match goal with |- context [?m ?w0] =>
    match m with
    | (if _ then _ else _) => destruct (report_turn_outcome orders w0) as [out ->]
    end
  end.
  unfold io_ret. cbn [stdin stdout files]. rewrite <- !app_assoc.
  match goal with |- context [stdout w ++ ?l] => exists l end.
  destruct (forallb printable_order orders); reflexivity.
Qed.

End Backwards.

Lemma process_order_hands_out_witness :
  let o1 := mkOrder "A1" "Alice" [mkItem "Tea" 50 2] in
  let o2 := mkOrder "B2" "Bob" [mkItem "Cake" 80 1] in
  let w := mkWorld ["2"; "4"] [] ∅ in
  exists choice n,
    stdin w = choice :: stdin (snd (process_order [o1; o2] w))
    /\ choice <> ""
    /\ int choice = Some n
    /\ 1 <= n <= Z.of_nat (length [o1; o2])
    /\ [o1; o2] !! Z.to_nat (n - 1) = Some o2
    /\ [o1] = delete (Z.to_nat (n - 1)) [o1; o2]
    /\ "=> 訂單 B2 已出餐完成" = ("=> 訂單 " +:+ order_id o2 +:+ " 已出餐完成")
    /\ files (snd (process_order [o1; o2] w)) = files w.
Proof.
  intros o1 o2 w.
  refine (process_order_hands_out [o1; o2] [o1] o2 "=> 訂單 B2 已出餐完成" w
            (snd (process_order [o1; o2] w)) _).
  vm_compute. reflexivity.
Defined.

Lemma end_of_input_raises_witness :
  let o1 := mkOrder "A1" "Alice" [mkItem "Tea" 50 2] in
  let w := mkWorld [] [] ∅ in
  fst (main_iteration [o1] [] w) = Raise EOFError
  /\ files (snd (main_iteration [o1] [] w)) = files w
  /\ fst (add_order [o1] w) = Raise EOFError
  /\ fst (process_order [o1] w) = Raise EOFError.
Proof.
  intros o1 w.
  destruct (end_of_input_raises [o1] [] w eq_refl) as (Hmenu & Hfiles & Hadd & Hprocess).
  split; [exact Hmenu|]. split; [exact Hfiles|]. split; [exact Hadd|].
  apply Hprocess. discriminate.
Defined.

Lemma report_turn_changes_nothing_witness :
  let o1 := mkOrder "A1" "Alice" [mkItem "Tea" 50 2] in
  let gold := mkOrder "G1" "Midas" [mkItem "Gold" (2 ^ 7200) (2 ^ 7200)] in
  let w := mkWorld [" 2 "; "4"] [] ∅ in
  (exists out,
     main_iteration [o1] [] w
     = (Return (Some ([o1], [])), mkWorld ["4"] (stdout w ++ out) (files w)))
  /\ (exists out,
       main_iteration [o1; gold] [] w
       = (Raise ValueError, mkWorld ["4"] (stdout w ++ out) (files w))).
Proof.
  intros o1 gold w. split.
  - refine (report_turn_changes_nothing [o1] [] " 2 " ["4"] w _ _); reflexivity.
  - destruct (report_turn_changes_nothing [o1; gold] [] " 2 " ["4"] w)
      as [out Hrun]; [reflexivity | reflexivity |].
    assert (forallb printable_order [o1; gold] = false) as Hgold
      by (vm_compute; reflexivity).
    rewrite Hgold in Hrun. exists out. exact Hrun.
Defined.

(** ** Whole runs *)

Lemma input_output_files_differ : INPUT_FILE <> OUTPUT_FILE.
Proof. discriminate. Qed.

Lemma load_data_saved (filename : string) (orders : list Order) (w : world) :
  files w !! filename = Some (json_dump (orders_to_py orders)) ->
  load_data filename w = (Return orders, w).
Proof.
  intros Hfile. unfold load_data.
  rewrite Hfile, json_load_dump, orders_of_py_to_py. reflexivity.
Qed.

Lemma load_data_same_file (filename : string) (w1 w2 : world) :
  files w1 !! filename = files w2 !! filename ->
  fst (load_data filename w1) = fst (load_data filename w2).
Proof.
  intros Hsame. unfold load_data. rewrite Hsame.
  destruct (files w2 !! filename) as [text|]; [|reflexivity].
  destruct (json_load text) as [v|]; [|destruct (is_empty _); reflexivity].
  destruct (orders_of_py v); reflexivity.
Qed.

Section Runs.
Context `{PyStr}.

(** What one turn of the menu can do to the two sequences and the files. *)
Lemma main_iteration_cases (orders output_orders : list Order) (w w' : world)
    (r : option (list Order * list Order)) :
  main_iteration orders output_orders w = (Return r, w') ->
  match r with
  | None => files w' = files w
  | Some (orders', output_orders') =>
      (orders' = orders /\ output_orders' = output_orders /\ files w' = files w)
      \/ (output_orders' = output_orders
          /\ files w' = <[INPUT_FILE := json_dump (orders_to_py orders')]> (files w)
          /\ exists msg w1 w2, add_order orders w1 = (Return (msg, orders'), w2))
      \/ (exists pre post order,
            orders = pre ++ order :: post /\ orders' = pre ++ post
            /\ output_orders' = output_orders ++ [order]
            /\ files w'
               = <[OUTPUT_FILE := json_dump (orders_to_py output_orders')]>
                   (<[INPUT_FILE := json_dump (orders_to_py orders')]> (files w)))
  end.
Proof.
  menu_step. destruct (stdin w) as [|line rest] eqn:Hin; [discriminate|].
  destruct (String.eqb_spec (strip line) "") as [_|_].
  { intros [= <- <-]. reflexivity. }
  destruct (String.eqb_spec (strip line) "1") as [_|_].
  { unfold io_bind.
    destruct (add_order orders _) as [r1 w1] eqn:Hadd.
    pose proof (add_order_result _ _ _ _ Hadd) as (_ & _ & Hfs & _).
    destruct r1 as [[msg orders1]|e| |]; try discriminate.
    intros [= <- <-]. right. left. cbn [files] in *.
    split; [reflexivity|]. split; [rewrite Hfs; reflexivity|]. eauto. }
  destruct (String.eqb_spec (strip line) "2") as [_|_].
  { unfold io_bind.
    match goal with |- context [?m ?w0] =>
      match m with
      | (if _ then _ else _) =>
          destruct (writes_or_fails_report_turn orders w0) as [out [-> | ->]]
      end
    end; [|discriminate].
    intros [= <- <-]. left. repeat split. }
  destruct (String.eqb_spec (strip line) "3") as [_|_].
  { unfold io_bind.
    destruct (process_order orders _) as [r1 w1] eqn:Hproc.
    pose proof (process_order_result _ _ _ _ Hproc) as (_ & _ & Hfs & Hshape).
    destruct r1 as [[[msg [order|]] orders1]|e| |]; try discriminate;
      cbn [stdin files] in *.
    - unfold print at 1, save_orders, write. cbn [stdin stdout files].
      match goal with |- context [print_order_report ?d ?t ?b ?w0] =>
        destruct (writes_or_fails_report_single order t w0) as [out [-> | ->]] end;
        [|discriminate].
      intros [= <- <-]. right. right.
      destruct (Hshape msg (Some order) orders1 eq_refl)
        as [[? _]|(pre & post & order' & [= <-] & -> & ->)]; [discriminate|].
      exists pre, post, order. cbn [files]. rewrite Hfs. repeat split.
    - intros [= <- <-]. left.
      destruct (Hshape msg None orders1 eq_refl)
        as [[_ ->]|(pre & post & order' & ? & _)]; [|discriminate].
      cbn [files]. repeat split. exact Hfs. }
  destruct (String.eqb_spec (strip line) "4") as [_|_].
  { intros [= <- <-]. reflexivity. }
  intros [= <- <-]. left. repeat split.
Qed.

(** A property of the two sequences and the files that every turn keeps is
    kept by the loop. *)
Lemma main_loop_invariant (P : list Order -> list Order -> gmap string string -> Prop) :
  (forall orders output_orders w orders' output_orders' w',
      P orders output_orders (files w) ->
      main_iteration orders output_orders w
      = (Return (Some (orders', output_orders')), w') ->
      P orders' output_orders' (files w')) ->
  forall fuel orders output_orders w final w',
    P orders output_orders (files w) ->
    main_loop fuel orders output_orders w = (Return final, w') ->
    P (fst final) (snd final) (files w').
Proof.
  intros Hturn. induction fuel as [|fuel IH];
    intros orders output_orders w final w' HP; [discriminate|].
  simpl. unfold io_bind.
  destruct (main_iteration orders output_orders w) as [r w1] eqn:Hiter.
  destruct r as [[[orders1 output1]|]|e| |]; try discriminate.
  - apply IH. apply (Hturn _ _ _ _ _ _ HP Hiter).
  - intros [= <- <-]. apply main_iteration_cases in Hiter. simpl.
    rewrite Hiter. exact HP.
Qed.
End Runs.

Section RunTheorems.
Context `{PyStr}.

Lemma files_in_step_turn (orders output_orders orders' output_orders' : list Order)
    (w w' : world) :
  files_in_step orders output_orders (files w) ->
  main_iteration orders output_orders w
  = (Return (Some (orders', output_orders')), w') ->
  files_in_step orders' output_orders' (files w').
Proof.
  intros Hstep Hiter w0 Hw0.
  apply main_iteration_cases in Hiter.
  destruct Hiter as [(-> & -> & Hfs)|[(-> & Hfs & _)
                                     |(pre & post & order & -> & -> & -> & Hfs)]].
  - apply Hstep. congruence.
  - split.
    + rewrite (load_data_saved INPUT_FILE orders' w0); [reflexivity|].
      rewrite Hw0, Hfs. apply lookup_insert_eq.
    + rewrite (load_data_same_file OUTPUT_FILE w0 w); [apply (Hstep w eq_refl)|].
      rewrite Hw0, Hfs. apply lookup_insert_ne, input_output_files_differ.
  - split.
    + rewrite (load_data_saved INPUT_FILE (pre ++ post) w0); [reflexivity|].
      rewrite Hw0, Hfs.
      rewrite lookup_insert_ne by (apply not_eq_sym, input_output_files_differ).
      apply lookup_insert_eq.
    + rewrite (load_data_saved OUTPUT_FILE (output_orders ++ [order]) w0);
        [reflexivity|].
      rewrite Hw0, Hfs. apply lookup_insert_eq.
Qed.

Lemma files_in_step_loaded (orders output_orders : list Order) (w : world) :
  load_data INPUT_FILE w = (Return orders, w) ->
  load_data OUTPUT_FILE w = (Return output_orders, w) ->
  files_in_step orders output_orders (files w).
Proof.
  intros Hload1 Hload2 w0 Hw0. split.
  - rewrite (load_data_same_file INPUT_FILE w0 w) by (rewrite Hw0; reflexivity).
    rewrite Hload1. reflexivity.
  - rewrite (load_data_same_file OUTPUT_FILE w0 w) by (rewrite Hw0; reflexivity).
    rewrite Hload2. reflexivity.
Qed.

Lemma files_in_step_load (orders output_orders : list Order) (w : world) :
  files_in_step orders output_orders (files w) ->
  load_data INPUT_FILE w = (Return orders, w)
  /\ load_data OUTPUT_FILE w = (Return output_orders, w).
Proof.
  intros Hstep. destruct (Hstep w eq_refl) as [Hin Hout]. split.
  - destruct (load_data INPUT_FILE w) as [r w''] eqn:Hl.
    apply load_data_result in Hl as [-> _]. simpl in Hin. rewrite Hin. reflexivity.
  - destruct (load_data OUTPUT_FILE w) as [r w''] eqn:Hl.
    apply load_data_result in Hl as [-> _]. simpl in Hout. rewrite Hout. reflexivity.
Qed.

Lemma main_runs_loop (w w' : world) (final : list Order * list Order) :
  main w = (Return final, w') ->
  exists orders output_orders,
    load_data INPUT_FILE w = (Return orders, w)
    /\ load_data OUTPUT_FILE w = (Return output_orders, w)
    /\ main_loop (S (length (stdin w))) orders output_orders w = (Return final, w').
Proof.
  unfold main, io_bind, lines_left.
  destruct (load_data INPUT_FILE w) as [r1 w1] eqn:Hload1.
  pose proof (load_data_result _ _ _ _ Hload1) as [-> _].
  destruct r1 as [orders|e| |]; try discriminate.
  destruct (load_data OUTPUT_FILE w) as [r2 w2] eqn:Hload2.
  pose proof (load_data_result _ _ _ _ Hload2) as [-> _].
  destruct r2 as [output_orders|e| |]; try discriminate.
  intros Hloop. exists orders, output_orders. auto.
Qed.

(** X9: when [main] returns, each file holds the sequence the run ended
    with: loading it gives that sequence back. *)
Theorem main_leaves_files_in_step (w w' : world) (orders output_orders : list Order) :
  main w = (Return (orders, output_orders), w') ->
  load_data INPUT_FILE w' = (Return orders, w')
  /\ load_data OUTPUT_FILE w' = (Return output_orders, w').
Proof.
  intros Hmain.
  apply main_runs_loop in Hmain as (o0 & out0 & Hl1 & Hl2 & Hloop).
  apply files_in_step_load.
  refine (main_loop_invariant files_in_step _ _ _ _ _ _ _ _ Hloop).
  - clear. intros o out w o' out' w'. apply files_in_step_turn.
  - apply files_in_step_loaded; assumption.
Qed.

(** X10: over a run no loaded order is lost: the fulfilled sequence at
    the end starts with the fulfilled sequence that was loaded, and every
    order that was loaded, counted as often as it was loaded, is pending or
    fulfilled at the end. *)
Theorem main_keeps_orders (orders output_orders orders' output_orders' : list Order)
    (w w' : world) :
  load_data INPUT_FILE w = (Return orders, w) ->
  load_data OUTPUT_FILE w = (Return output_orders, w) ->
  main w = (Return (orders', output_orders'), w') ->
  output_orders `prefix_of` output_orders'
  /\ orders ++ output_orders ⊆+ orders' ++ output_orders'.
Proof.
  intros Hload1 Hload2 Hmain.
  apply main_runs_loop in Hmain as (o0 & out0 & Hl1 & Hl2 & Hloop).
  rewrite Hload1 in Hl1. rewrite Hload2 in Hl2.
  injection Hl1 as <-. injection Hl2 as <-.
  refine (main_loop_invariant
            (fun o out _ =>
               output_orders `prefix_of` out
               /\ orders ++ output_orders ⊆+ o ++ out)
            _ _ _ _ _ _ _ _ Hloop).
  - clear. intros o out w o' out' w' [Hprefix Hkept] Hiter.
    apply main_iteration_cases in Hiter.
    destruct Hiter as [(-> & -> & _)|[(-> & _ & msg & w1 & w2 & Hadd)
                                     |(pre & post & order & -> & -> & -> & _)]].
    + split; assumption.
    + split; [exact Hprefix|].
      apply add_order_cases in Hadd
          as [->|(line & rest & who & its & _ & -> & _)]; [exact Hkept|].
      etrans; [exact Hkept|].
      rewrite <- (app_assoc o), (Permutation_app_comm [_] out), (app_assoc o).
      apply submseteq_inserts_r. reflexivity.
    + split; [etrans; [exact Hprefix | apply prefix_app_r; reflexivity]|].
      etrans; [exact Hkept|].
      assert ((pre ++ order :: post) ++ out ≡ₚ (pre ++ post) ++ out ++ [order])
        as ->; [|reflexivity].
      transitivity (order :: (pre ++ post) ++ out).
      * rewrite <- (Permutation_middle pre post order). reflexivity.
      * rewrite app_assoc. apply Permutation_cons_append.
  - split; reflexivity.
Qed.

(** X24: what one turn of the menu does to the two sequences, when it
    returns to the menu: nothing; or one new order at the end of the
    pending sequence, valid and with an id that was not pending, the
    fulfilled sequence as it was; or one order moved from its place in the
    pending sequence to the end of the fulfilled sequence, the other
    orders as they were.  No turn copies or drops an order. *)
Theorem turn_appends_or_moves (orders output_orders orders' output_orders' : list Order)
    (w w' : world) :
  main_iteration orders output_orders w
  = (Return (Some (orders', output_orders')), w') ->
  (orders' = orders /\ output_orders' = output_orders)
  \/ (output_orders' = output_orders
      /\ exists order,
           orders' = orders ++ [order] /\ valid_order order
           /\ (order_id order ∉ ids orders))
  \/ (exists pre order post,
        orders = pre ++ order :: post
        /\ orders' = pre ++ post
        /\ output_orders' = output_orders ++ [order]).
Proof.
  intros Hiter. apply main_iteration_cases in Hiter.
  destruct Hiter as [(-> & -> & _)|[(-> & _ & msg & w1 & w2 & Hadd)
                                   |(pre & post & order & -> & -> & -> & _)]].
  - left. split; reflexivity.
  - apply add_order_cases in Hadd
        as [->|(line & rest & who & its & _ & -> & _ & Hfresh & Hits & Hitems)].
    + left. split; reflexivity.
    + right. left. split; [reflexivity|].
      exists (mkOrder (upper line) who its).
      split; [reflexivity|]. split; [split; assumption | exact Hfresh].
  - right. right. exists pre, order, post. repeat split.
Qed.

(** X25: valid orders stay valid over a run: when every order that was
    loaded has at least one item and only items with a name, a price that
    is not negative and a quantity above zero, so has every order that is
    pending or fulfilled at the end. *)
Theorem main_keeps_orders_valid (orders output_orders orders' output_orders' : list Order)
    (w w' : world) :
  load_data INPUT_FILE w = (Return orders, w) ->
  load_data OUTPUT_FILE w = (Return output_orders, w) ->
  Forall valid_order (orders ++ output_orders) ->
  main w = (Return (orders', output_orders'), w') ->
  Forall valid_order (orders' ++ output_orders').
Proof.
  intros Hload1 Hload2 Hvalid Hmain.
  apply main_runs_loop in Hmain as (o0 & out0 & Hl1 & Hl2 & Hloop).
  rewrite Hload1 in Hl1. rewrite Hload2 in Hl2.
  injection Hl1 as <-. injection Hl2 as <-.
  refine (main_loop_invariant (fun o out _ => Forall valid_order (o ++ out))
            _ _ _ _ _ _ _ Hvalid Hloop).
  clear. intros o out w o' out' w' Hvalid Hiter.
  apply main_iteration_cases in Hiter.
  destruct Hiter as [(-> & -> & _)|[(-> & _ & msg & w1 & w2 & Hadd)
                                   |(pre & post & order & -> & -> & -> & _)]].
  - exact Hvalid.
  - apply add_order_cases in Hadd
        as [->|(line & rest & who & its & _ & -> & _ & _ & Hits & Hitems)];
      [exact Hvalid|].
    apply Forall_app in Hvalid as [Ho Hout].
    apply Forall_app. split; [|exact Hout].
    apply Forall_app. split; [exact Ho|].
    constructor; [split; assumption | constructor].
  - apply Forall_app in Hvalid as [Hpending Hout].
    apply Forall_app in Hpending as [Hpre Hpost].
    apply Forall_cons in Hpost as [Horder Hpost].
    apply Forall_app. split; [apply Forall_app; split; assumption|].
    apply Forall_app. split; [exact Hout|].
    constructor; [exact Horder | constructor].
Qed.

(** X11: ids that are pairwise distinct in the file that is loaded are so in
    the pending sequence the run ends with. *)
Theorem main_keeps_ids_distinct (orders orders' output_orders' : list Order)
    (w w' : world) :
  load_data INPUT_FILE w = (Return orders, w) ->
  NoDup (ids orders) ->
  main w = (Return (orders', output_orders'), w') ->
  NoDup (ids orders').
Proof.
  intros Hload1 Hdistinct Hmain.
  apply main_runs_loop in Hmain as (o0 & out0 & Hl1 & _ & Hloop).
  rewrite Hload1 in Hl1. injection Hl1 as <-.
  refine (main_loop_invariant (fun o _ _ => NoDup (ids o)) _ _ _ _ _ _ _
            Hdistinct Hloop).
  clear. intros o out w o' out' w' Hdistinct Hiter.
  apply main_iteration_cases in Hiter.
  destruct Hiter as [(-> & _)|[(_ & _ & msg & w1 & w2 & Hadd)
                              |(pre & post & order & -> & -> & _)]].
  - exact Hdistinct.
  - apply (add_order_keeps_distinct _ _ _ _ _ Hdistinct Hadd).
  - unfold ids in *. rewrite fmap_app in *. simpl in Hdistinct.
    apply NoDup_app in Hdistinct as (Hpre & Hdisjoint & Hpost).
    apply NoDup_cons in Hpost as [_ Hpost].
    apply NoDup_app. repeat split; [exact Hpre | | exact Hpost].
    intros id Hid Hmem. apply (Hdisjoint id Hid). right. exact Hmem.
Qed.

End RunTheorems.

Lemma main_leaves_files_in_step_witness :
  let a1 := mkOrder "A1" "Alice" [mkItem "Tea" 50 2] in
  let b2 := mkOrder "B2" "Bob" [mkItem "Cake" 80 1] in
  let w := mkWorld ["1"; "A1"; "Alice"; "Tea"; "50"; "2"; "";
                    "1"; "B2"; "Bob"; "Cake"; "80"; "1"; "";
                    "3"; "1"; "4"] [] ∅ in
  fst (main w) = Return ([b2], [a1])
  /\ load_data INPUT_FILE (snd (main w)) = (Return [b2], snd (main w))
  /\ load_data OUTPUT_FILE (snd (main w)) = (Return [a1], snd (main w)).
Proof.
  intros a1 b2 w. split; [vm_compute; reflexivity|].
  refine (main_leaves_files_in_step w (snd (main w)) [b2] [a1] _).
  vm_compute. reflexivity.
Defined.

Lemma main_keeps_orders_witness :
  let a1 := mkOrder "A1" "Alice" [mkItem "Tea" 50 2] in
  let b2 := mkOrder "B2" "Bob" [mkItem "Cake" 80 1] in
  let c3 := mkOrder "C3" "Carol" [mkItem "Pie" 60 3] in
  let w := mkWorld ["3"; "1"; "1"; "B2"; "Bob"; "Cake"; "80"; "1"; ""; "4"] []
             {[INPUT_FILE := json_dump (orders_to_py [a1]);
               OUTPUT_FILE := json_dump (orders_to_py [c3])]} in
  fst (main w) = Return ([b2], [c3; a1])
  /\ [c3] `prefix_of` [c3; a1]
  /\ [a1] ++ [c3] ⊆+ [b2] ++ [c3; a1].
Proof.
  intros a1 b2 c3 w. split; [vm_compute; reflexivity|].
  refine (main_keeps_orders [a1] [c3] [b2] [c3; a1] w (snd (main w)) _ _ _);
    vm_compute; reflexivity.
Defined.

Lemma turn_appends_or_moves_witness :
  let a1 := mkOrder "A1" "Alice" [mkItem "Tea" 50 2] in
  let b2 := mkOrder "B2" "Bob" [mkItem "Cake" 80 1] in
  let w := mkWorld ["3"; "2"; "4"] [] ∅ in
  fst (main_iteration [a1; b2] [] w) = Return (Some ([a1], [b2]))
  /\ (([a1] = [a1; b2] /\ [b2] = [])
      \/ ([b2] = []
          /\ exists order,
               [a1] = [a1; b2] ++ [order] /\ valid_order order
               /\ (order_id order ∉ ids [a1; b2]))
      \/ (exists pre order post,
            [a1; b2] = pre ++ order :: post
            /\ [a1] = pre ++ post
            /\ [b2] = [] ++ [order])).
Proof.
  intros a1 b2 w. split; [vm_compute; reflexivity|].
  refine (turn_appends_or_moves [a1; b2] [] [a1] [b2] w
            (snd (main_iteration [a1; b2] [] w)) _).
  vm_compute. reflexivity.
Defined.

Lemma main_keeps_orders_valid_witness :
  let a1 := mkOrder "A1" "Alice" [mkItem "Tea" 50 2] in
  let b2 := mkOrder "B2" "Bob" [mkItem "Cake" 80 1] in
  let w := mkWorld ["3"; "1"; "1"; "B2"; "Bob"; "Cake"; "80"; "1"; ""; "4"] []
             {[INPUT_FILE := json_dump (orders_to_py [a1])]} in
  fst (main w) = Return ([b2], [a1])
  /\ Forall valid_order ([b2] ++ [a1]).
Proof.
  intros a1 b2 w. split; [vm_compute; reflexivity|].
  refine (main_keeps_orders_valid [a1] [] [b2] [a1] w (snd (main w)) _ _ _ _).
  - vm_compute. reflexivity.
  - vm_compute. reflexivity.
  - repeat constructor; simpl; try discriminate; lia.
  - vm_compute. reflexivity.
Defined.

Lemma main_keeps_ids_distinct_witness :
  let a1 := mkOrder "A1" "Alice" [mkItem "Tea" 50 2] in
  let b2 := mkOrder "B2" "Bob" [mkItem "Cake" 80 1] in
  let w := mkWorld ["1"; "a1"; "1"; "B2"; "Bob"; "Cake"; "80"; "1"; ""; "4"] []
             {[INPUT_FILE := json_dump (orders_to_py [a1])]} in
  fst (main w) = Return ([a1; b2], []) /\ NoDup (ids [a1; b2]).
Proof.
  intros a1 b2 w. split; [vm_compute; reflexivity|].
  refine (main_keeps_ids_distinct [a1] [a1; b2] [] w (snd (main w)) _ _ _).
  - vm_compute. reflexivity.
  - unfold ids. apply (bool_decide_unpack _). vm_compute. exact I.
  - vm_compute. reflexivity.
Defined.

(** ** What is written *)

Lemma listing_lines_lookup (orders : list Order) : forall (start : Z) (k : nat) (order : Order),
  orders !! k = Some order ->
  listing_lines start orders !! k = Some (listing_line (start + Z.of_nat k) order).
Proof.
  induction orders as [|o l IH]; intros start k order; [discriminate|].
  destruct k as [|k]; simpl.
  - intros [= ->]. rewrite Z.add_0_r. reflexivity.
  - intros Hk. rewrite (IH (start + 1) k order Hk). do 2 f_equal. lia.
Qed.

Lemma listing_lines_length (orders : list Order) (start : Z) :
  length (listing_lines start orders) = length orders.
Proof. revert start. induction orders as [|o l IH]; intros start; simpl; [|rewrite IH]; reflexivity. Qed.

Lemma for_enumerate_listing (orders : list Order) : forall (start : Z) (w : world),
  for_enumerate start orders (fun idx order =>
    print (str_of_int idx +:+ ". 訂單編號: " +:+ order_id order
           +:+ " - 客戶: " +:+ customer order)) w
  = (Return tt, mkWorld (stdin w) (stdout w ++ listing_lines start orders) (files w)).
Proof.
  induction orders as [|o l IH]; intros start w.
  - simpl. unfold io_ret. rewrite app_nil_r. destruct w; reflexivity.
  - simpl. unfold io_bind, print at 1, write. rewrite IH. cbn [stdin stdout files].
    rewrite <- app_assoc. reflexivity.
Qed.

Lemma for_each_item_lines (l : list Item) :
  forallb printable_item l = true ->
  forall w : world,
    for_each l (fun item =>
      let subtotal := price item * quantity item in
      match text_of_int (price item), text_of_int (quantity item),
            text_of_int subtotal with
      | Some p, Some q, Some t =>
          print (name item +:+ TAB +:+ p +:+ TAB +:+ q +:+ TAB +:+ t)
      | _, _, _ => raise ValueError
      end) w
    = (Return tt, mkWorld (stdin w) (stdout w ++ map item_line l) (files w)).
Proof.
  induction l as [|item l IH]; intros Hl w.
  - simpl. unfold io_ret. rewrite app_nil_r, world_eta. reflexivity.
  - cbn [forallb] in Hl. apply andb_prop in Hl as [Hitem Hl].
    unfold printable_item in Hitem.
    apply andb_prop in Hitem as [Hitem Hsub]. apply andb_prop in Hitem as [Hp Hq].
    cbn [for_each]. unfold io_bind at 1. cbv zeta. unfold text_of_int.
    rewrite Hp, Hq, Hsub. unfold print at 1, write.
    etransitivity; [exact (IH Hl _)|].
    cbn [stdin stdout files map]. rewrite <- app_assoc. reflexivity.
Qed.

(** The lines of one printable order, numbered or not. *)
Lemma report_body (single : bool) (idx : Z) (order : Order) (w : world) :
  printable_order order = true ->
  ((if single then io_ret tt
    else print (LF +:+ "訂單 #" +:+ str_of_int idx)) ;;
   print ("訂單編號: " +:+ order_id order) ;;
   print ("客戶姓名: " +:+ customer order) ;;
   print RULE_DASH ;;
   print ("商品名稱" +:+ TAB +:+ "單價" +:+ TAB +:+ "數量" +:+ TAB +:+ "小計") ;;
   print RULE_DASH ;;
   for_each (items order) (fun item =>
     let subtotal := price item * quantity item in
     match text_of_int (price item), text_of_int (quantity item),
           text_of_int subtotal with
     | Some p, Some q, Some t =>
         print (name item +:+ TAB +:+ p +:+ TAB +:+ q +:+ TAB +:+ t)
     | _, _, _ => raise ValueError
     end) ;;
   print RULE_DASH ;;
   let total := calculate_order_total order in
   match text_of_int_comma total with
   | Some t => print ("訂單總額: " +:+ t)
   | None => raise ValueError
   end ;;
   print RULE_EQ) w
  = (Return tt,
     mkWorld (stdin w)
       (stdout w
        ++ (if single then [] else [(LF +:+ "訂單 #" +:+ str_of_int idx) +:+ LF])
        ++ order_block order)
       (files w)).
Proof.
  intros Hprintable. unfold printable_order in Hprintable.
  apply andb_prop in Hprintable as [Hitems Htotal].
  assert (calculate_order_total order = sum_of_subtotals (items order)) as Hsum.
  { unfold calculate_order_total. rewrite fold_total_shift. lia. }
  unfold io_bind at 1.
  destruct single; unfold io_ret, print at 1, write;
    unfold io_bind at 1 2 3 4 5 6; unfold print at 1 2 3 4 5, write;
    cbn [stdin stdout files];
    (match goal with |- context [for_each _ _ ?w1] =>
       pose proof (for_each_item_lines (items order) Hitems w1) as Hrows end);
    run_as Hrows;
    unfold io_bind, print at 1, write; cbv zeta; unfold text_of_int_comma;
    rewrite Htotal, Hsum; unfold print, write; cbn [stdin stdout files];
    unfold order_block; rewrite <- ?app_assoc; reflexivity.
Qed.

(** X12: the report of one order.  When the order is printable (no price,
    quantity, subtotal or total of more than 4300 digits) it writes the
    title line and then the block of the order: its id, the customer, the
    table header, one row per item with its subtotal, and the total, which
    is the sum of the subtotals written with thousands separators.
    Otherwise it raises [ValueError] at the first number that is too long.
    It reads nothing and touches no file. *)
Theorem print_order_report_single (order : Order) (title : string) (w : world) :
  (printable_order order = true ->
   print_order_report (inl order) title true w
   = (Return tt,
      mkWorld (stdin w)
        (stdout w
         ++ [(LF +:+ "==================== " +:+ title +:+ " ====================") +:+ LF]
         ++ order_block order)
        (files w)))
  /\ (printable_order order = false ->
      exists out,
        print_order_report (inl order) title true w
        = (Raise ValueError, mkWorld (stdin w) (stdout w ++ out) (files w))).
Proof.
  split; intros Hprintable.
  - unfold print_order_report. unfold io_bind at 1, print at 1, write.
    cbn [for_enumerate]. unfold io_bind at 1.
    match goal with |- context [let (_, _) := _ ?w1 in _] =>
      pose proof (report_body true 1 order w1 Hprintable) as Hbody end.
    run_as Hbody. cbn [stdin stdout files].
    unfold io_ret. rewrite <- ?app_assoc. reflexivity.
  - destruct (report_single_outcome order title w) as [out Hrun].
    rewrite Hprintable in Hrun. exists out. exact Hrun.
Qed.

Lemma for_enumerate_blocks (orders : list Order) :
  forallb printable_order orders = true ->
  forall (start : Z) (w : world),
    for_enumerate start orders (fun idx order =>
      (if false then io_ret tt
       else print (LF +:+ "訂單 #" +:+ str_of_int idx)) ;;
      print ("訂單編號: " +:+ order_id order) ;;
      print ("客戶姓名: " +:+ customer order) ;;
      print RULE_DASH ;;
      print ("商品名稱" +:+ TAB +:+ "單價" +:+ TAB +:+ "數量" +:+ TAB +:+ "小計") ;;
      print RULE_DASH ;;
      for_each (items order) (fun item =>
        let subtotal := price item * quantity item in
        match text_of_int (price item), text_of_int (quantity item),
              text_of_int subtotal with
        | Some p, Some q, Some t =>
            print (name item +:+ TAB +:+ p +:+ TAB +:+ q +:+ TAB +:+ t)
        | _, _, _ => raise ValueError
        end) ;;
      print RULE_DASH ;;
      let total := calculate_order_total order in
      match text_of_int_comma total with
      | Some t => print ("訂單總額: " +:+ t)
      | None => raise ValueError
      end ;;
      print RULE_EQ) w
    = (Return tt,
       mkWorld (stdin w) (stdout w ++ numbered_blocks start orders) (files w)).
Proof.
  induction orders as [|o l IH]; intros Hall start w.
  - simpl. unfold io_ret. rewrite app_nil_r, world_eta. reflexivity.
  - cbn [forallb] in Hall. apply andb_prop in Hall as [Ho Hl].
    cbn [for_enumerate]. unfold io_bind at 1.
    pose proof (report_body false start o w Ho) as Hbody.
    run_as Hbody.
    etransitivity; [exact (IH Hl _ _)|].
    cbn [stdin stdout files numbered_blocks]. rewrite <- ?app_assoc. reflexivity.
Qed.

(** X13: the report of a sequence of orders.  When every order is
    printable it writes the title line and then, for each order in turn,
    its number counted from 1 and its block; otherwise it raises
    [ValueError] at the first number that is too long.  It reads nothing
    and touches no file. *)
Theorem print_order_report_many (orders : list Order) (title : string) (w : world) :
  (forallb printable_order orders = true ->
   print_order_report (inr orders) title false w
   = (Return tt,
      mkWorld (stdin w)
        (stdout w
         ++ [(LF +:+ "==================== " +:+ title +:+ " ====================") +:+ LF]
         ++ numbered_blocks 1 orders)
        (files w)))
  /\ (forallb printable_order orders = false ->
      exists out,
        print_order_report (inr orders) title false w
        = (Raise ValueError, mkWorld (stdin w) (stdout w ++ out) (files w))).
Proof.
  split; intros Hprintable.
  - unfold print_order_report. unfold io_bind at 1, print at 1, write.
    etransitivity; [exact (for_enumerate_blocks orders Hprintable 1 _)|].
    cbn [stdin stdout files]. rewrite <- ?app_assoc. reflexivity.
  - destruct (report_many_outcome title orders w) as [out Hrun].
    rewrite Hprintable in Hrun. exists out. exact Hrun.
Qed.

Lemma print_order_report_single_witness :
  let o1 := mkOrder "A1" "Alice" [mkItem "Tea" 1500 2] in
  let gold := mkOrder "G1" "Midas" [mkItem "Gold" (2 ^ 7200) (2 ^ 7200)] in
  let w := mkWorld [] [] ∅ in
  stdout (snd (print_order_report (inl o1) "出餐訂單" true w)) !! 6%nat
  = Some ("Tea" +:+ TAB +:+ "1500" +:+ TAB +:+ "2" +:+ TAB +:+ "3000" +:+ LF)
  /\ stdout (snd (print_order_report (inl o1) "出餐訂單" true w)) !! 8%nat
     = Some ("訂單總額: 3,000" +:+ LF)
  /\ printable_item (mkItem "Gold" (2 ^ 7200) (2 ^ 7200)) = false
  /\ exists out,
       print_order_report (inl gold) "出餐訂單" true w
       = (Raise ValueError, mkWorld (stdin w) (stdout w ++ out) (files w)).
Proof.
  intros o1 gold w.
  assert (printable_order o1 = true) as Hyes by (vm_compute; reflexivity).
  assert (printable_order gold = false) as Hno by (vm_compute; reflexivity).
  rewrite (proj1 (print_order_report_single o1 "出餐訂單" w) Hyes).
  split; [vm_compute; reflexivity|]. split; [vm_compute; reflexivity|].
  split; [vm_compute; reflexivity|].
  apply (proj2 (print_order_report_single gold "出餐訂單" w) Hno).
Defined.

Lemma print_order_report_many_witness :
  let o1 := mkOrder "A1" "Alice" [mkItem "Tea" 1500 2] in
  let o2 := mkOrder "B2" "Bob" [mkItem "Cake" 80 1] in
  let gold := mkOrder "G1" "Midas" [mkItem "Gold" (2 ^ 7200) (2 ^ 7200)] in
  let w := mkWorld [] [] ∅ in
  print_order_report (inr [o1; o2]) "訂單報表" false w
  = (Return tt,
     mkWorld [] ([(LF +:+ "==================== 訂單報表 ====================") +:+ LF]
                 ++ numbered_blocks 1 [o1; o2]) ∅)
  /\ exists out,
       print_order_report (inr [o1; gold; o2]) "訂單報表" false w
       = (Raise ValueError, mkWorld (stdin w) (stdout w ++ out) (files w)).
Proof.
  intros o1 o2 gold w.
  assert (forallb printable_order [o1; o2] = true) as Hyes by (vm_compute; reflexivity).
  assert (forallb printable_order [o1; gold; o2] = false) as Hno
    by (vm_compute; reflexivity).
  split.
  - rewrite (proj1 (print_order_report_many [o1; o2] "訂單報表" w) Hyes). reflexivity.
  - apply (proj2 (print_order_report_many [o1; gold; o2] "訂單報表" w) Hno).
Defined.

(** ** The listing of [process_order] *)

Section Listing.
Context `{PyStr}.

Lemma process_order_prints_listing (orders : list Order) (w : world) :
  orders <> [] ->
  process_order orders w =
  (choice <- input "請選擇要出餐的訂單編號 (輸入數字或按 Enter 取消): " ;;
   if is_empty choice then io_ret (MSG_CANCEL, None, orders)
   else
     match int choice with
     | None => io_ret (MSG_INVALID_NUMBER, None, orders)
     | Some n =>
         if (0 <=? n - 1) && (n - 1 <? Z.of_nat (length orders)) then
           match list_pop orders (n - 1) with
           | None => raise IndexError
           | Some (completed_order, orders') =>
               io_ret ("=> 訂單 " +:+ order_id completed_order +:+ " 已出餐完成",
                       Some completed_order, orders')
           end
         else io_ret (MSG_INVALID_NUMBER, None, orders)
     end)
    (mkWorld (stdin w)
       (stdout w
        ++ [(LF +:+ "======== 待處理訂單列表 ========") +:+ LF]
        ++ listing_lines 1 orders
        ++ ["================================" +:+ LF])
       (files w)).
Proof.
  intros Hne. unfold process_order.
  rewrite bool_decide_eq_false_2 by exact Hne.
  unfold io_bind at 1 2 3. unfold print at 1, write.
  rewrite for_enumerate_listing. unfold print at 1, write.
  cbn [stdin stdout files]. rewrite <- !app_assoc. reflexivity.
Qed.

(** X14: the number the listing shows before an order is the number that
    selects it. *)
Theorem process_order_listed_number_selects (orders : list Order) (k : nat)
    (order : Order) (choice : string) (rest : list string) (w : world) :
  orders !! k = Some order ->
  stdin w = choice :: rest -> choice <> "" ->
  int choice = Some (Z.of_nat k + 1) ->
  listing_lines 1 orders !! k = Some (listing_line (Z.of_nat k + 1) order)
  /\ process_order orders w =
     (Return ("=> 訂單 " +:+ order_id order +:+ " 已出餐完成", Some order,
              delete k orders),
      mkWorld rest
        (stdout w
         ++ [(LF +:+ "======== 待處理訂單列表 ========") +:+ LF]
         ++ listing_lines 1 orders
         ++ ["================================" +:+ LF;
             "請選擇要出餐的訂單編號 (輸入數字或按 Enter 取消): "])
        (files w)).
Proof.
  intros Hk Hin Hchoice Hint. split.
  - rewrite (listing_lines_lookup orders 1 k order Hk). do 2 f_equal. lia.
  - assert (orders <> []) as Hne by (intros ->; discriminate).
    rewrite (process_order_prints_listing orders w Hne).
    unfold io_bind, input. cbn [stdin stdout files]. rewrite Hin.
    rewrite (is_empty_false choice Hchoice), Hint.
    replace (Z.of_nat k + 1 - 1) with (Z.of_nat k) by lia.
    pose proof (lookup_lt_Some _ _ _ Hk) as Hlt.
    assert ((0 <=? Z.of_nat k) && (Z.of_nat k <? Z.of_nat (length orders)) = true)
      as ->.
    { apply andb_true_iff. rewrite Z.leb_le, Z.ltb_lt. lia. }
    apply list_elem_of_split_length in Hk as (pre & post & -> & ->).
    rewrite list_pop_middle, delete_middle. unfold io_ret.
    cbn [stdin stdout files]. rewrite <- !app_assoc. reflexivity.
Qed.

End Listing.

Lemma process_order_listed_number_selects_witness :
  let o1 := mkOrder "A1" "Alice" [mkItem "Tea" 50 2] in
  let o2 := mkOrder "B2" "Bob" [mkItem "Cake" 80 1] in
  let w := mkWorld ["2"; "4"] [] ∅ in
  listing_lines 1 [o1; o2] !! 1%nat = Some (listing_line (Z.of_nat 1 + 1) o2)
  /\ listing_line 2 o2 = "2. 訂單編號: B2 - 客戶: Bob" +:+ LF
  /\ process_order [o1; o2] w =
     (Return ("=> 訂單 " +:+ order_id o2 +:+ " 已出餐完成", Some o2,
              delete 1%nat [o1; o2]),
      mkWorld ["4"]
        (stdout w
         ++ [(LF +:+ "======== 待處理訂單列表 ========") +:+ LF]
         ++ listing_lines 1 [o1; o2]
         ++ ["================================" +:+ LF;
             "請選擇要出餐的訂單編號 (輸入數字或按 Enter 取消): "])
        (files w)).
Proof.
  intros o1 o2 w.
  destruct (process_order_listed_number_selects [o1; o2] 1 o2 "2" ["4"] w
              eq_refl eq_refl ltac:(discriminate) eq_refl) as [Hline Hrun].
  split; [exact Hline|]. split; [reflexivity | exact Hrun].
Defined.


(** ** Files edited by hand *)






Section Startup.
Context `{PyStr}.

(** X16: an empty or blank file is an error, unlike a missing one: loading
    it raises, and [main] stops there before it writes or reads
    anything. *)
Theorem load_data_blank_file (filename text : string) (w : world) :
  files w !! filename = Some text -> skip_ws text = "" ->
  load_data filename w = (Raise JSONDecodeError, w)
  /\ (filename = INPUT_FILE -> main w = (Raise JSONDecodeError, w))
  /\ (filename = OUTPUT_FILE ->
      (exists orders, load_data INPUT_FILE w = (Return orders, w)) ->
      main w = (Raise JSONDecodeError, w)).
Proof.
  intros Hfile Hblank.
  assert (load_data filename w = (Raise JSONDecodeError, w)) as Hload.
  { unfold load_data, json_load. rewrite Hfile, Hblank. reflexivity. }
  split; [exact Hload|]. split.
  - intros ->. unfold main, io_bind. rewrite Hload. reflexivity.
  - intros -> [orders Hin]. unfold main, io_bind. rewrite Hin, Hload. reflexivity.
Qed.

(** X17: leaving at the first menu writes no file: with a missing file none
    is created. *)
Theorem main_exit_at_once (orders output_orders : list Order) (line : string)
    (rest : list string) (w : world) :
  load_data INPUT_FILE w = (Return orders, w) ->
  load_data OUTPUT_FILE w = (Return output_orders, w) ->
  stdin w = line :: rest ->
  strip line = "" \/ strip line = "4" ->
  exists out,
    main w = (Return (orders, output_orders),
              mkWorld rest (stdout w ++ out) (files w)).
Proof.
  intros Hload1 Hload2 Hin Hchoice.
  unfold main. unfold io_bind at 1. rewrite Hload1.
  unfold io_bind at 1. rewrite Hload2.
  unfold io_bind at 1, lines_left. cbn [main_loop]. unfold io_bind at 1.
  assert (exists out, main_iteration orders output_orders w
                      = (Return None, mkWorld rest (stdout w ++ out) (files w)))
    as [out ->].
  { menu_step. rewrite Hin.
    destruct Hchoice as [-> | ->]; cbn [String.eqb Ascii.eqb Bool.eqb];
      unfold io_ret; rewrite <- !app_assoc;
      match goal with
      | |- context [stdout w ++ [?a] ++ [?b] ++ [?c] ++ [?d] ++ [?e] ++ [?f] ++ [?g]] =>
          exists [a; b; c; d; e; f; g]
      end; reflexivity. }
  exists out. reflexivity.
Qed.

(** X18: a rejected addition still saves: the turn of choice 1 writes the
    pending sequence to its file although nothing was added. *)
Theorem rejected_add_still_saves (orders output_orders : list Order)
    (line id : string) (rest : list string) (w : world) :
  stdin w = line :: id :: rest ->
  strip line = "1" ->
  upper id ∈ ids orders ->
  exists out,
    main_iteration orders output_orders w
    = (Return (Some (orders, output_orders)),
       mkWorld rest
         (stdout w ++ out
          ++ [("=> 錯誤：訂單編號 " +:+ upper id +:+ " 已存在！") +:+ LF])
         (<[INPUT_FILE := json_dump (orders_to_py orders)]> (files w))).
Proof.
  intros Hin Hstrip Hused. menu_step. rewrite Hin, Hstrip.
  cbn [String.eqb Ascii.eqb Bool.eqb]. unfold io_bind at 1.
  rewrite (add_order_duplicate orders id rest);
    [|reflexivity | apply existsb_order_id; exact Hused].
  unfold io_bind, print, save_orders, io_ret, write. cbn [stdin stdout files].
  rewrite <- !app_assoc.
  match goal with
  | |- context [stdout w ++ [?a] ++ [?b] ++ [?c] ++ [?d] ++ [?e] ++ [?f] ++ [?g]
                ++ [?h] ++ [_]] =>
      exists [a; b; c; d; e; f; g; h]
  end.
  reflexivity.
Qed.

End Startup.

Lemma load_data_blank_file_witness :
  let w := mkWorld ["4"] [] {[INPUT_FILE := LF]} in
  load_data INPUT_FILE w = (Raise JSONDecodeError, w)
  /\ main w = (Raise JSONDecodeError, w)
  /\ load_data INPUT_FILE (mkWorld ["4"] [] ∅) = (Return [], mkWorld ["4"] [] ∅).
Proof.
  intros w.
  destruct (load_data_blank_file INPUT_FILE LF w eq_refl eq_refl)
    as (Hload & Hmain & _).
  split; [exact Hload|]. split; [exact (Hmain eq_refl) | reflexivity].
Defined.

Lemma main_exit_at_once_witness :
  let w := mkWorld [" 4"; "1"] [] ∅ in
  exists out,
    main w = (Return ([], []), mkWorld ["1"] (stdout w ++ out) (files w)).
Proof.
  intros w.
  refine (main_exit_at_once [] [] " 4" ["1"] w _ _ _ _); try reflexivity.
  right. reflexivity.
Defined.

Lemma rejected_add_still_saves_witness :
  let a1 := mkOrder "A1" "Alice" [mkItem "Tea" 50 2] in
  let w := mkWorld ["1"; "a1"; "4"] [] ∅ in
  exists out,
    main_iteration [a1] [] w
    = (Return (Some ([a1], [])),
       mkWorld ["4"]
         (stdout w ++ out
          ++ [("=> 錯誤：訂單編號 " +:+ upper "a1" +:+ " 已存在！") +:+ LF])
         (<[INPUT_FILE := json_dump (orders_to_py [a1])]> (files w))).
Proof.
  intros a1 w.
  refine (rejected_add_still_saves [a1] [] "1" "a1" ["4"] w _ _ _); try reflexivity.
  apply list_elem_of_here.
Defined.

(** ** The exceptions of a run *)

Lemma list_pop_some {A} (l : list A) (i : Z) :
  0 <= i < Z.of_nat (length l) -> list_pop l i <> None.
Proof.
  intros Hi. unfold list_pop.
  destruct (Z.ltb_spec i 0) as [|_]; [lia|].
  destruct (Z.ltb_spec i 0) as [|_]; [lia|].
  destruct (Z.leb_spec (Z.of_nat (length l)) i) as [|_]; [lia|]. cbn [orb].
  destruct (l !! Z.to_nat i) as [x|] eqn:Hx; [discriminate|].
  apply lookup_ge_None in Hx. lia.
Qed.

Section Exceptions.
Context `{PyStr}.

Lemma add_order_items_raises (fuel : nat) : forall (acc : list Item) (w w' : world) (e : exn),
  add_order_items fuel acc w = (Raise e, w') ->
  e = EOFError /\ stdin w' = [] /\ files w' = files w.
Proof.
  induction fuel as [|fuel IH]; intros acc w w' e; [discriminate|].
  simpl. unfold io_bind, input, print, write.
  destruct w as [[|n r1] out fs]; cbn [stdin stdout files];
    [intros [= <- <-]; repeat split|].
  destruct (is_empty n); [discriminate|].
  destruct r1 as [|p r2]; cbn [stdin stdout files];
    [intros [= <- <-]; repeat split|].
  destruct (int p) as [pr|]; [|apply IH].
  destruct (pr <? 0); [apply IH|].
  destruct r2 as [|q r3]; cbn [stdin stdout files];
    [intros [= <- <-]; repeat split|].
  destruct (int q) as [qu|]; [|apply IH].
  destruct (qu <=? 0); apply IH.
Qed.

Lemma add_order_raises (orders : list Order) (w w' : world) (e : exn) :
  add_order orders w = (Raise e, w') ->
  e = EOFError /\ stdin w' = [] /\ files w' = files w.
Proof.
  unfold add_order, io_bind, input, lines_left, write.
  destruct w as [[|line r1] out fs]; cbn [stdin stdout files];
    [intros [= <- <-]; repeat split|].
  destruct (existsb _ orders); [discriminate|].
  destruct r1 as [|who r2]; cbn [stdin stdout files];
    [intros [= <- <-]; repeat split|].
  destruct (add_order_items _ _ _) as [[its|e'| |] w1] eqn:Hitems; try discriminate.
  - destruct (bool_decide (its = [])); discriminate.
  - intros [= <- <-]. apply (add_order_items_raises _ _ _ _ _ Hitems).
Qed.

Lemma process_order_raises (orders : list Order) (w w' : world) (e : exn) :
  process_order orders w = (Raise e, w') ->
  e = EOFError /\ stdin w' = [] /\ files w' = files w.
Proof.
  destruct orders as [|o1 os].
  { rewrite process_order_empty. discriminate. }
  destruct (process_order_listing (o1 :: os) w) as [out ->]; [discriminate|].
  unfold io_bind, input, write. cbn [stdin stdout files].
  destruct (stdin w) as [|choice rest];
    [intros [= <- <-]; repeat split|].
  destruct (is_empty choice); [discriminate|].
  destruct (int choice) as [n|]; [|discriminate].
  destruct (Z.leb_spec 0 (n - 1)) as [Hlo|]; [|discriminate].
  destruct (Z.ltb_spec (n - 1) (Z.of_nat (length (o1 :: os)))) as [Hhi|]; [|discriminate].
  cbn [andb].
  destruct (list_pop _ _) as [[order1 orders1]|] eqn:Hpop; [discriminate|].
  exfalso. revert Hpop. apply list_pop_some. lia.
Qed.

(** A turn of the menu raises [EOFError], at the end of the input and with
    the files as they were before the turn, or [ValueError], in a report. *)
Lemma main_iteration_raises (orders output_orders : list Order) (w w' : world)
    (e : exn) :
  main_iteration orders output_orders w = (Raise e, w') ->
  (e = EOFError /\ stdin w' = [] /\ files w' = files w) \/ e = ValueError.
Proof.
  menu_step. destruct (stdin w) as [|line rest] eqn:Hin;
    [intros [= <- <-]; left; repeat split|].
  destruct (String.eqb_spec (strip line) "") as [_|_]; [discriminate|].
  destruct (String.eqb_spec (strip line) "1") as [_|_].
  { unfold io_bind.
    destruct (add_order orders _) as [r1 w1] eqn:Hadd.
    destruct r1 as [[msg orders1]|e'| |]; try discriminate.
    intros [= <- <-]. left. apply (add_order_raises _ _ _ _ Hadd). }
  destruct (String.eqb_spec (strip line) "2") as [_|_].
  { unfold io_bind.
    match goal with |- context [?m ?w0] =>
      match m with
      | (if _ then _ else _) =>
          destruct (writes_or_fails_report_turn orders w0) as [out [-> | ->]]
      end
    end; [discriminate|].
    intros [= <- _]. right. reflexivity. }
  destruct (String.eqb_spec (strip line) "3") as [_|_].
  { unfold io_bind.
    destruct (process_order orders _) as [r1 w1] eqn:Hproc.
    destruct r1 as [[[msg [order|]] orders1]|e'| |]; try discriminate.
    - unfold print at 1, save_orders, write. cbn [stdin stdout files].
      match goal with |- context [print_order_report ?d ?t ?b ?w0] =>
        destruct (writes_or_fails_report_single order t w0) as [out [-> | ->]] end;
        [discriminate|].
      intros [= <- _]. right. reflexivity.
    - intros [= <- <-]. left. apply (process_order_raises _ _ _ _ Hproc). }
  destruct (String.eqb_spec (strip line) "4") as [_|_]; discriminate.
Qed.

Lemma main_loop_raises (P : list Order -> list Order -> gmap string string -> Prop) :
  (forall orders output_orders w orders' output_orders' w',
      P orders output_orders (files w) ->
      main_iteration orders output_orders w
      = (Return (Some (orders', output_orders')), w') ->
      P orders' output_orders' (files w')) ->
  forall fuel orders output_orders w e w',
    P orders output_orders (files w) ->
    main_loop fuel orders output_orders w = (Raise e, w') ->
    (e = EOFError /\ stdin w' = []
     /\ exists orders' output_orders', P orders' output_orders' (files w'))
    \/ e = ValueError.
Proof.
  intros Hturn. induction fuel as [|fuel IH];
    intros orders output_orders w e w' HP; [discriminate|].
  simpl. unfold io_bind.
  destruct (main_iteration orders output_orders w) as [r w1] eqn:Hiter.
  destruct r as [[[orders1 output1]|]|e'| |]; try discriminate.
  - apply IH. apply (Hturn _ _ _ _ _ _ HP Hiter).
  - intros [= <- <-].
    destruct (main_iteration_raises _ _ _ _ _ Hiter) as [(-> & Hin & Hfs) | ->];
      [left | right; reflexivity].
    split; [reflexivity|]. split; [exact Hin|].
    exists orders, output_orders. rewrite Hfs. exact HP.
Qed.

Lemma load_data_raises (filename : string) (w w' : world) (e : exn) :
  load_data filename w = (Raise e, w') -> e = JSONDecodeError.
Proof.
  unfold load_data.
  destruct (files w !! filename) as [text|]; [|discriminate].
  destruct (json_load text) as [v|].
  - destruct (orders_of_py v); discriminate.
  - destruct (is_empty _); [intros [= <- _]; reflexivity | discriminate].
Qed.

(** X19: a run that the end of the input cuts short has used up the input
    and leaves two files that load as sequences of orders: every turn
    before the last left them in step with its two sequences, and the turn
    that was cut short has saved nothing. *)
Theorem main_cut_short (w w' : world) :
  main w = (Raise EOFError, w') ->
  stdin w' = []
  /\ exists orders output_orders,
       load_data INPUT_FILE w' = (Return orders, w')
       /\ load_data OUTPUT_FILE w' = (Return output_orders, w').
Proof.
  unfold main, io_bind, lines_left.
  destruct (load_data INPUT_FILE w) as [r1 w1] eqn:Hload1.
  pose proof (load_data_result _ _ _ _ Hload1) as [-> _].
  destruct r1 as [orders|e1| |]; [| |discriminate..].
  2:{ intros [= -> _]. pose proof (load_data_raises _ _ _ _ Hload1). discriminate. }
  destruct (load_data OUTPUT_FILE w) as [r2 w2] eqn:Hload2.
  pose proof (load_data_result _ _ _ _ Hload2) as [-> _].
  destruct r2 as [output_orders|e2| |]; [| |discriminate..].
  2:{ intros [= -> _]. pose proof (load_data_raises _ _ _ _ Hload2). discriminate. }
  intros Hloop.
  destruct (main_loop_raises files_in_step
              (fun o out w0 o' out' w0' => files_in_step_turn o out o' out' w0 w0')
              _ _ _ _ _ _
              (files_in_step_loaded _ _ _ Hload1 Hload2) Hloop)
    as [(_ & Hin & orders' & output' & Hstep) | Habsurd]; [|discriminate].
  split; [exact Hin|].
  exists orders', output'. apply files_in_step_load. exact Hstep.
Qed.







End Exceptions.


Lemma main_cut_short_witness :
  let a1 := mkOrder "A1" "Alice" [mkItem "Tea" 50 2] in
  let w := mkWorld ["1"; "A1"; "Alice"; "Tea"; "50"; "2"; "";
                    "1"; "B2"; "Bob"; "Cake"] [] ∅ in
  fst (main w) = Raise EOFError
  /\ load_data INPUT_FILE (snd (main w)) = (Return [a1], snd (main w))
  /\ stdin (snd (main w)) = []
  /\ exists orders output_orders,
       load_data INPUT_FILE (snd (main w)) = (Return orders, snd (main w))
       /\ load_data OUTPUT_FILE (snd (main w)) = (Return output_orders, snd (main w)).
Proof.
  intros a1 w. split; [vm_compute; reflexivity|]. split; [vm_compute; reflexivity|].
  refine (main_cut_short w (snd (main w)) _).
  vm_compute. reflexivity.
Defined.

(** ** The thousands separator *)

Lemma without_commas_uint (d : uint) :
  without_commas (NilEmpty.string_of_uint d) = NilEmpty.string_of_uint d.
Proof. induction d; simpl; rewrite ?IHd; reflexivity. Qed.

Lemma without_commas_rev_app (r : string) : forall a b : string,
  without_commas a = without_commas b ->
  without_commas (String.rev_app r a) = without_commas (String.rev_app r b).
Proof.
  induction r as [|c r IH]; intros a b Hab; [exact Hab|].
  simpl. apply IH. simpl. rewrite Hab. reflexivity.
Qed.

Lemma without_commas_group (r : string) : forall (k : nat) (acc : string),
  without_commas (group_thousands r k acc) = without_commas (String.rev_app r acc).
Proof.
  induction r as [|c r IH]; intros k acc; [reflexivity|].
  simpl. destruct (Nat.eqb k 3); rewrite IH; [|reflexivity].
  apply without_commas_rev_app. simpl. destruct (Ascii.eqb c ","); reflexivity.
Qed.

Lemma rev_app_rev_app (s : string) : forall a b : string,
  String.rev_app (String.rev_app s a) b = String.rev_app a (s +:+ b).
Proof.
  induction s as [|c s IH]; intros a b; [rewrite app_empty_l; reflexivity|].
  simpl. rewrite IH. rewrite app_String. reflexivity.
Qed.

Lemma rev_rev (s : string) : String.rev_app (String.rev s) "" = s.
Proof. unfold String.rev. rewrite rev_app_rev_app, app_empty_r. reflexivity. Qed.

Lemma without_commas_grouped (d : uint) :
  without_commas (group_thousands (String.rev (NilEmpty.string_of_uint d)) 0 "")
  = NilEmpty.string_of_uint d.
Proof. rewrite without_commas_group, rev_rev. apply without_commas_uint. Qed.

(** *** Where the commas are *)

Lemma length_chars (s : string) :
  length (list_ascii_of_string s) = String.length s.
Proof. induction s as [|c s IH]; simpl; [|rewrite IH]; reflexivity. Qed.

Lemma from_right_cons (c : ascii) (s : string) (i : nat) :
  from_right i (String c s)
  = if (i <? String.length s)%nat then from_right i s
    else if (i =? String.length s)%nat then Some c else None.
Proof.
  unfold from_right. simpl.
  pose proof (length_chars s) as Hlen. rewrite <- (length_rev (list_ascii_of_string s)) in Hlen.
  destruct (Nat.ltb_spec i (String.length s)) as [Hlt|Hge].
  - apply lookup_app_l. lia.
  - rewrite lookup_app_r by lia. rewrite Hlen.
    destruct (Nat.eqb_spec i (String.length s)) as [->|Hne].
    + rewrite Nat.sub_diag. reflexivity.
    + destruct (i - String.length s)%nat eqn:Hd; [lia|reflexivity].
Qed.

Lemma commas_every_fourth_digit (c : ascii) (s : string) :
  c <> ","%char -> (String.length s mod 4 <> 3)%nat ->
  commas_every_fourth s -> commas_every_fourth (String c s).
Proof.
  intros Hc Hlen Hs i. rewrite from_right_cons. simpl String.length.
  destruct (Nat.ltb_spec i (String.length s)) as [Hlt|Hge].
  - rewrite (Hs i). split; intros [? ?]; split; (assumption || lia).
  - destruct (Nat.eqb_spec i (String.length s)) as [->|Hne].
    + split; [intros [= ->]; contradiction | intros [? _]; contradiction].
    + split; [discriminate | intros [_ ?]; lia].
Qed.

Lemma commas_every_fourth_comma (s : string) :
  (String.length s mod 4 = 3)%nat ->
  commas_every_fourth s -> commas_every_fourth (String "," s).
Proof.
  intros Hlen Hs i. rewrite from_right_cons. simpl String.length.
  destruct (Nat.ltb_spec i (String.length s)) as [Hlt|Hge].
  - rewrite (Hs i). split; intros [? ?]; split; (assumption || lia).
  - destruct (Nat.eqb_spec i (String.length s)) as [->|Hne].
    + split; [intros _; split; [exact Hlen | lia] | reflexivity].
    + split; [discriminate | intros [_ ?]; lia].
Qed.

Lemma group_thousands_commas (r : string) : forall (k : nat) (acc : string),
  Forall (fun c => c <> ","%char) (list_ascii_of_string r) ->
  (k = String.length acc mod 4)%nat ->
  commas_every_fourth acc ->
  commas_every_fourth (group_thousands r k acc).
Proof.
  induction r as [|c r IH]; intros k acc Hr Hk Hacc; [exact Hacc|].
  simpl in Hr. apply Forall_cons in Hr as [Hc Hr]. simpl.
  destruct (Nat.eqb_spec k 3) as [->|Hk3].
  - apply IH; [exact Hr | |].
    + simpl String.length.
      replace (S (S (String.length acc))) with (String.length acc + 2)%nat by lia.
      rewrite <- Nat.Div0.add_mod_idemp_l, <- Hk. reflexivity.
    + apply commas_every_fourth_digit; [exact Hc | |].
      * simpl String.length.
        replace (S (String.length acc)) with (String.length acc + 1)%nat by lia.
        rewrite <- Nat.Div0.add_mod_idemp_l, <- Hk. discriminate.
      * apply commas_every_fourth_comma; [symmetry; exact Hk | exact Hacc].
  - assert (String.length acc mod 4 < 4)%nat as Hlt by (apply Nat.mod_upper_bound; lia).
    apply IH; [exact Hr | |].
    + simpl String.length.
      replace (S (String.length acc)) with (String.length acc + 1)%nat by lia.
      rewrite <- Nat.Div0.add_mod_idemp_l, <- Hk.
      assert (k = 0 \/ k = 1 \/ k = 2)%nat as [->|[->| ->]] by lia; reflexivity.
    + apply commas_every_fourth_digit; [exact Hc | lia | exact Hacc].
Qed.

Lemma chars_rev_app (s : string) : forall a : string,
  Forall (fun c => c <> ","%char) (list_ascii_of_string s) ->
  Forall (fun c => c <> ","%char) (list_ascii_of_string a) ->
  Forall (fun c => c <> ","%char) (list_ascii_of_string (String.rev_app s a)).
Proof.
  induction s as [|c s IH]; intros a Hs Ha; [exact Ha|].
  simpl in Hs. apply Forall_cons in Hs as [Hc Hs].
  simpl. apply IH; [exact Hs|]. simpl. constructor; assumption.
Qed.

Lemma chars_uint (d : uint) :
  Forall (fun c => c <> ","%char) (list_ascii_of_string (NilEmpty.string_of_uint d)).
Proof. induction d; simpl; constructor; (discriminate || assumption). Qed.

Lemma group_thousands_length (r : string) : forall (k : nat) (acc : string),
  (k = String.length acc mod 4)%nat ->
  r <> "" \/ k <> 0%nat ->
  (String.length (group_thousands r k acc) mod 4 <> 0)%nat.
Proof.
  induction r as [|c r IH]; intros k acc Hk Hstarted.
  { cbn [group_thousands]. destruct Hstarted as [Hr|Hk0]; [contradiction|].
    rewrite <- Hk. exact Hk0. }
  assert (String.length acc mod 4 < 4)%nat as Hlt by (apply Nat.mod_upper_bound; lia).
  simpl. destruct (Nat.eqb_spec k 3) as [->|Hk3].
  - apply IH; [|right; discriminate]. simpl String.length.
    replace (S (S (String.length acc))) with (String.length acc + 2)%nat by lia.
    rewrite <- Nat.Div0.add_mod_idemp_l, <- Hk. reflexivity.
  - apply IH; [|right; discriminate]. simpl String.length.
    replace (S (String.length acc)) with (String.length acc + 1)%nat by lia.
    rewrite <- Nat.Div0.add_mod_idemp_l, <- Hk.
    assert (k = 0 \/ k = 1 \/ k = 2)%nat as [->|[->| ->]] by lia; reflexivity.
Qed.

Lemma rev_app_not_empty (s : string) : forall a : string,
  s <> "" \/ a <> "" -> String.rev_app s a <> "".
Proof.
  induction s as [|c s IH]; intros a Hne.
  - destruct Hne as [Hs|Ha]; [contradiction | exact Ha].
  - simpl. apply IH. right. discriminate.
Qed.

Lemma string_of_uint_not_empty (d : uint) :
  d <> Nil -> NilEmpty.string_of_uint d <> "".
Proof. destruct d; simpl; (contradiction || discriminate). Qed.

(** X21: the thousands separator of the total line.  Without its commas
    the text is the number as [str] writes it, and for a number that is not
    negative the commas are at the positions 3, 7, 11, ... counted from the
    end of the text and nowhere else, and the text does not start with
    one: every group has three digits but the first, which has one to
    three. *)
Theorem format_comma_digits (z : Z) :
  without_commas (format_comma z) = str_of_int z
  /\ (0 <= z ->
      commas_every_fourth (format_comma z)
      /\ (String.length (format_comma z) mod 4 <> 0)%nat).
Proof.
  unfold format_comma, str_of_int. split.
  - destruct (Z.to_int z) as [d|d]; simpl; rewrite without_commas_grouped; reflexivity.
  - intros Hz.
    assert (exists d, Z.to_int z = Pos d /\ d <> Nil) as (d & -> & Hd).
    { destruct z as [|p|p]; [eexists; split; [reflexivity | discriminate] | | lia].
      eexists. split; [reflexivity|]. apply Unsigned.to_uint_nonnil. }
    split.
    + apply group_thousands_commas; [|reflexivity|].
      * apply chars_rev_app; [apply chars_uint | constructor].
      * intros i. unfold from_right. simpl. rewrite lookup_nil.
        split; [discriminate | intros [_ ?]; lia].
    + apply group_thousands_length; [reflexivity|]. left.
      apply rev_app_not_empty. left. apply string_of_uint_not_empty. exact Hd.
Qed.

Lemma format_comma_digits_witness :
  format_comma 1234567 = "1,234,567"
  /\ without_commas (format_comma 1234567) = str_of_int 1234567
  /\ commas_every_fourth (format_comma 1234567)
  /\ (String.length (format_comma 1234567) mod 4 <> 0)%nat.
Proof.
  split; [reflexivity|].
  split; [apply (format_comma_digits 1234567)|].
  apply (format_comma_digits 1234567). lia.
Defined.

(** ** Turns that add and turns that fulfil nothing *)

Section Turns.
Context `{PyStr}.

(** The run of [add_order] on an id that is new and a series of attempts
    of which one at least passes. *)
Lemma add_order_runs (orders : list Order) (line who : string)
    (attempts : list (list string * option Item)) (rest : list string) (w : world) :
  stdin w = line :: who :: concat (map fst attempts) ++ "" :: rest ->
  upper line ∉ ids orders ->
  Forall (fun a => attempt (fst a) (snd a)) attempts ->
  omap snd attempts <> [] ->
  exists out,
    add_order orders w
    = (Return ("=> 訂單 " +:+ upper line +:+ " 已新增！",
               orders ++ [mkOrder (upper line) who (omap snd attempts)]),
       mkWorld rest (stdout w ++ out) (files w)).
Proof.
  intros Hin Hfresh Hattempts Hsome.
  unfold add_order, io_bind, input, lines_left, write. rewrite Hin.
  rewrite (existsb_order_id_false orders (upper line) Hfresh).
  cbn [stdin stdout files].
  edestruct (add_order_items_records attempts Hattempts
               (S (length (concat (map fst attempts) ++ "" :: rest))) [] rest)
    as [out ->]; [reflexivity | cbn [stdin]; lia |].
  cbn [app stdin stdout files].
  rewrite bool_decide_eq_false_2 by exact Hsome.
  unfold io_ret. rewrite <- ?app_assoc.
  match goal with
  | |- context [stdout w ++ [?a] ++ [?b] ++ out] => exists ([a; b] ++ out)
  end.
  reflexivity.
Qed.

(** X22: a turn of choice 1 with an id that is new and at least one item
    that passes appends the order, keeps the fulfilled sequence, reads the
    lines of the order and no more, and saves the new pending sequence to
    its file; no other file changes. *)
Theorem add_turn_saves (orders output_orders : list Order) (line id who : string)
    (attempts : list (list string * option Item)) (rest : list string) (w : world) :
  stdin w = line :: id :: who :: concat (map fst attempts) ++ "" :: rest ->
  strip line = "1" ->
  upper id ∉ ids orders ->
  Forall (fun a => attempt (fst a) (snd a)) attempts ->
  omap snd attempts <> [] ->
  exists out,
    main_iteration orders output_orders w
    = (Return (Some (orders ++ [mkOrder (upper id) who (omap snd attempts)],
                     output_orders)),
       mkWorld rest (stdout w ++ out)
         (<[INPUT_FILE :=
              json_dump (orders_to_py
                           (orders ++ [mkOrder (upper id) who (omap snd attempts)]))]>
            (files w))).
Proof.
  intros Hin Hstrip Hfresh Hattempts Hsome. menu_step. rewrite Hin, Hstrip.
  cbn [String.eqb Ascii.eqb Bool.eqb]. unfold io_bind at 1.
  edestruct (add_order_runs orders id who attempts rest) as [out ->];
    [|exact Hfresh | exact Hattempts | exact Hsome |]; [reflexivity|].
  unfold io_bind, print, save_orders, io_ret, write. cbn [stdin stdout files].
  rewrite <- !app_assoc.
  match goal with
  | |- context [stdout w ++ [?a] ++ [?b] ++ [?c] ++ [?d] ++ [?e] ++ [?f] ++ [?g]
                ++ out ++ [?h]] =>
      exists ([a; b; c; d; e; f; g] ++ out ++ [h])
  end.
  rewrite <- ?app_assoc. reflexivity.
Qed.

(** X23: a turn of choice 3 that fulfils nothing saves nothing: when the
    fulfilled sequence is as it was, so are the pending sequence and every
    file.  (A turn of choice 1 that adds nothing does save.) *)
Theorem unselected_fulfil_saves_nothing (orders output_orders orders' : list Order)
    (line : string) (rest : list string) (w w' : world) :
  stdin w = line :: rest ->
  strip line = "3" ->
  main_iteration orders output_orders w
  = (Return (Some (orders', output_orders)), w') ->
  orders' = orders /\ files w' = files w.
Proof.
  intros Hin Hstrip. menu_step. rewrite Hin, Hstrip.
  cbn [String.eqb Ascii.eqb Bool.eqb]. unfold io_bind.
  destruct (process_order orders _) as [r1 w1] eqn:Hproc.
  pose proof (process_order_result _ _ _ _ Hproc) as (_ & _ & Hfs & Hshape).
  destruct r1 as [[[msg [order|]] orders1]|e| |]; try discriminate;
    cbn [stdin files] in *.
  - unfold print at 1, save_orders, write. cbn [stdin stdout files].
    match goal with |- context [print_order_report ?d ?t ?b ?w0] =>
      destruct (writes_or_fails_report_single order t w0) as [out [-> | ->]] end;
      [|discriminate].
    intros [= _ Hout _]. exfalso.
    apply (f_equal (@length Order)) in Hout. rewrite length_app in Hout.
    simpl in Hout. lia.
  - intros [= <- <-].
    destruct (Hshape msg None orders1 eq_refl)
      as [[_ ->]|(pre & post & order' & ? & _)]; [|discriminate].
    cbn [files]. split; [reflexivity | exact Hfs].
Qed.

End Turns.

Lemma add_turn_saves_witness :
  let b2 := mkOrder "B2" "Bob" [mkItem "Cake" 80 1] in
  let a1 := mkOrder "A1" "Alice" [mkItem "Tea" 50 2] in
  let w := mkWorld ["1"; "a1"; "Alice"; "Pie"; "x"; "Tea"; "50"; "2"; ""; "4"] [] ∅ in
  exists out,
    main_iteration [b2] [] w
    = (Return (Some ([b2] ++ [a1], [])),
       mkWorld ["4"] (stdout w ++ out)
         (<[INPUT_FILE := json_dump (orders_to_py ([b2] ++ [a1]))]> (files w))).
Proof.
  intros b2 a1 w.
  refine (add_turn_saves [b2] [] "1" "a1" "Alice"
            [(["Pie"; "x"], None);
             (["Tea"; "50"; "2"], Some (mkItem "Tea" 50 2))] ["4"] w _ _ _ _ _).
  - reflexivity.
  - reflexivity.
  - unfold ids. apply (bool_decide_unpack _). vm_compute. exact I.
  - constructor; [cbn [fst snd]|constructor; [cbn [fst snd]|constructor]].
    + apply (attempt_price_not_int "Pie" "x"); [discriminate | reflexivity].
    + apply (attempt_recorded "Tea" "50" "2" 50 2);
        [discriminate | reflexivity | lia | reflexivity | lia].
  - discriminate.
Defined.

Lemma unselected_fulfil_saves_nothing_witness :
  let a1 := mkOrder "A1" "Alice" [mkItem "Tea" 50 2] in
  let w := mkWorld ["3"; "7"; "4"] [] ∅ in
  fst (main_iteration [a1] [] w) = Return (Some ([a1], []))
  /\ [a1] = [a1] /\ files (snd (main_iteration [a1] [] w)) = files w.
Proof.
  intros a1 w. split; [vm_compute; reflexivity|].
  refine (unselected_fulfil_saves_nothing [a1] [] [a1] "3" ["7"; "4"] w
            (snd (main_iteration [a1] [] w)) _ _ _).
  - reflexivity.
  - reflexivity.
  - vm_compute. reflexivity.
Defined.
